(** * Hikvision proxy (supabase/functions/hikvision-proxy/index.ts)

    A shallow embedding of the edge function that forwards dashboard
    requests to the Hikvision OpenAPI and mirrors the results into the
    Supabase tables, followed by the properties checked against it.

    Layout: JavaScript values and coercions, the error catalogue, the
    store tables and the effect monad (outbound fetches, store operations
    and console.error lines are recorded, with their outcomes, in one
    trace), the six operations, the request router, and then the
    theorems.  Three smaller models follow the proxy's definitions: the
    event mirror of the same file (handleEventWebhook, getEvents), the
    dashboard's storage service (services/utils/storageService.ts) and
    the trainer sidebar's state (layouts/AdminLayout.tsx); subscribeToEvents
    is not modelled.

    What the embedding leaves out: console.log lines (console.error
    lines are recorded); non-integral numbers; vendor bodies that parse
    to something other than an object; members that are null (an
    optional member is either defined or absent); thrown values that are
    not Error instances.  An ISO timestamp is represented by the instant it
    prints.  The vendor, the store's failures, the clock and the
    engine's built-ins are parameters of the world ([Env]). *)

From Stdlib Require Import String Ascii List ZArith Bool Lia DecimalString
  Sorted Permutation.
Import ListNotations.
Open Scope string_scope.

(* ================================================================== *)
(** ** JavaScript values the code inspects dynamically *)

Module JS.

(** Scalars that can sit in a field of a parsed JSON body ([JUndefined]
    is an absent field).  [JNum n] is the number an integer literal [n]
    denotes: [n] itself below 2^53, the nearest double above. *)
Inductive jsval :=
| JUndefined
| JNull
| JBool (b : bool)
| JNum (n : Z)
| JStr (s : string).

(** ToBoolean. *)
Definition truthy (v : jsval) : bool :=
  match v with
  | JUndefined | JNull => false
  | JBool b => b
  | JNum n => negb (n =? 0)%Z
  | JStr s => negb (s =? "")
  end.

(** *** Number::toString on integers (ECMA-262, 6.1.6.1.20) *)

(** Decimal digits of a non-negative integer. *)
Definition digits (z : Z) : string := NilZero.string_of_uint (N.to_uint (Z.to_N z)).

(** The double an integer literal of magnitude [m] denotes: [m] itself
    below 2^53; above, the nearest multiple of the spacing of doubles
    around [m], the one with the even mantissa on a tie. *)
Definition nearest_double (m : Z) : Z :=
  if (m <? 2 ^ 53)%Z then m
  else
    let e := (Z.log2 m - 52)%Z in
    let q := (m / 2 ^ e)%Z in
    let r := (m mod 2 ^ e)%Z in
    let half := (2 ^ (e - 1))%Z in
    let q' := if (r <? half)%Z then q
              else if (half <? r)%Z then (q + 1)%Z
              else if Z.even q then q else (q + 1)%Z in
    (q' * 2 ^ e)%Z.

(** The integer [c] reads back as the double [x = q * 2^e]: it lies
    within half a spacing of [x] (the spacing below a power of two is
    half the one above), the bounds included when the mantissa [q] is
    even. *)
Definition reads_as (x q e c : Z) : bool :=
  if (c <=? x)%Z
  then
    let gap := if (q =? 2 ^ 52)%Z then (2 ^ (e - 1))%Z else (2 ^ e)%Z in
    let d := (2 * (x - c))%Z in
    (d <? gap)%Z || ((d =? gap)%Z && Z.even q)
  else
    let d := (2 * (c - x))%Z in
    (d <? 2 ^ e)%Z || ((d =? 2 ^ e)%Z && Z.even q).

(** The shortest decimal that reads back as [x]: a multiple of the
    greatest power of ten (at most [10^m]) that does, the closest to [x]
    (the even one on a tie), with the exponent of that power. *)
Fixpoint shortest (x q e : Z) (m : nat) : Z * Z :=
  let p := (10 ^ Z.of_nat m)%Z in
  let c1 := (x / p * p)%Z in
  let c2 := (c1 + p)%Z in
  let ok1 := (0 <? c1)%Z && reads_as x q e c1 in
  let ok2 := reads_as x q e c2 in
  let pick :=
    if ok1 && ok2
    then if (x - c1 <? c2 - x)%Z then Some c1
         else if (c2 - x <? x - c1)%Z then Some c2
         else if Z.even (c1 / p) then Some c1 else Some c2
    else if ok1 then Some c1
    else if ok2 then Some c2
    else None in
  match pick, m with
  | Some c, _ => (c, Z.of_nat m)
  | None, S m' => shortest x q e m'
  | None, O => (x, 0%Z)
  end.

(** Number::toString on a positive integer-valued double [x]: all its
    digits below 2^53; above, the shortest decimal that reads back as
    [x], padded with zeros up to 21 digits and in exponent form beyond;
    "Infinity" past the range of doubles. *)
Definition double_toString (x : Z) : string :=
  if (x <? 2 ^ 53)%Z then digits x
  else if (2 ^ 1024 <=? x)%Z then "Infinity"
  else
    let e := (Z.log2 x - 52)%Z in
    let q := (x / 2 ^ e)%Z in
    let (c, m) := shortest x q e (Z.to_nat (Z.log2 x)) in
    let all := digits c in
    let n := String.length all in
    if (n <=? 21)%nat then all
    else
      let k := (n - Z.to_nat m)%nat in
      let exponent := "e+" ++ digits (Z.of_nat (n - 1)) in
      match substring 0 k all with
      | String d "" => String d exponent
      | String d rest => String d ("." ++ rest ++ exponent)
      | "" => all
      end.

Definition integer_toString (z : Z) : string :=
  match z with
  | Z0 => "0"
  | Zpos _ => double_toString (nearest_double z)
  | Zneg _ => "-" ++ double_toString (nearest_double (Z.abs z))
  end.

(** ToString, as used by template literals and by property keys. *)
Definition to_string (v : jsval) : string :=
  match v with
  | JUndefined => "undefined"
  | JNull => "null"
  | JBool true => "true"
  | JBool false => "false"
  | JNum n => integer_toString n
  | JStr s => s
  end.

(** *** Strings

    A string holds the UTF-8 encoding of a text; JavaScript counts its
    UTF-16 code units. *)

(** Bytes of the UTF-8 sequence that the lead byte [c] opens. *)
Definition utf8_width (c : ascii) : nat :=
  let n := nat_of_ascii c in
  if (n <? 192)%nat then 1
  else if (n <? 224)%nat then 2
  else if (n <? 240)%nat then 3
  else if (n <? 248)%nat then 4
  else 1.

(** The high surrogate of the character that a four-byte sequence
    encodes, in the three bytes of its own (generalised) UTF-8 form; the
    fourth byte of the sequence does not bear on it. *)
Definition high_surrogate (b0 b1 b2 : ascii) : string :=
  let cp := (N.land (N_of_ascii b0) 7 * 262144
             + N.land (N_of_ascii b1) 63 * 4096
             + N.land (N_of_ascii b2) 63 * 64)%N in
  let high := (55296 + (cp - 65536) / 1024)%N in
  String (ascii_of_N (224 + high / 4096))
    (String (ascii_of_N (128 + N.land (high / 64) 63))
       (String (ascii_of_N (128 + N.land high 63)) "")).

(** The longest prefix of [s] of at most [units] UTF-16 code units.  A
    character outside the basic plane (four bytes) takes two units; when
    one unit is left for it, its high surrogate alone is kept.  [pending]
    counts the bytes still to copy of the character being copied. *)
Fixpoint take_units (units pending : nat) (s : string) : string :=
  match s with
  | "" => ""
  | String c rest =>
      match pending with
      | S p => String c (take_units units p rest)
      | O =>
          let w := utf8_width c in
          let cost := if (w =? 4)%nat then 2 else 1 in
          if (cost <=? units)%nat
          then String c (take_units (units - cost) (w - 1) rest)
          else if (units =? 1)%nat
          then match rest with
               | String b1 (String b2 _) => high_surrogate c b1 b2
               | _ => ""
               end
          else ""
      end
  end.

(** [s.substring(0, units)] *)
Definition substring_utf16 (units : nat) (s : string) : string :=
  take_units units 0 s.

(** [a !== '0'] and friends: strict equality with a string literal. *)
Definition strict_eq_str (v : jsval) (lit : string) : bool :=
  match v with
  | JStr s => s =? lit
  | _ => false
  end.

(** An optional string field ([field?: string]); [!field] holds when it
    is absent or empty. *)
Definition truthy_str (o : option string) : bool :=
  match o with
  | Some s => negb (s =? "")
  | None => false
  end.

(** [o || fallback] on an optional string. *)
Definition or_str (o : option string) (fallback : string) : string :=
  if truthy_str o then match o with Some s => s | None => fallback end
  else fallback.

(** Property names an object literal inherits from Object.prototype
    (ECMA-262, 20.1.3 and B.2.2); each is bound to a function, or for
    [__proto__] to the prototype object: all of them truthy, none of
    them with a [message] or [status] property.  An engine that drops the
    annex B names inherits fewer of them; "constructor", "toString" and
    the other names of 20.1.3 are inherited everywhere. *)
Definition ObjectPrototype_keys : list string :=
  [ "constructor"; "hasOwnProperty"; "isPrototypeOf";
    "propertyIsEnumerable"; "toLocaleString"; "toString"; "valueOf";
    "__proto__"; "__defineGetter__"; "__defineSetter__";
    "__lookupGetter__"; "__lookupSetter__" ].

Fixpoint mem_str (k : string) (l : list string) : bool :=
  match l with
  | [] => false
  | x :: r => (k =? x) || mem_str k r
  end.

(** Own properties of an object literal, in source order. *)
Fixpoint own_get {A : Type} (k : string) (o : list (string * A)) : option A :=
  match o with
  | [] => None
  | (k', v) :: r => if k =? k' then Some v else own_get k r
  end.

(** What [obj[key]] evaluates to on an object literal of [A]-valued own
    properties: the own property, else the member found on the prototype
    chain, else undefined. *)
Inductive member (A : Type) :=
| Own (v : A)
| Inherited (name : string)
| Missing.
Arguments Own {A} v.
Arguments Inherited {A} name.
Arguments Missing {A}.

Definition get {A : Type} (o : list (string * A)) (k : string) : member A :=
  match own_get k o with
  | Some v => Own v
  | None => if mem_str k ObjectPrototype_keys then Inherited k else Missing
  end.

(** [haystack] has [needle] as a contiguous substring. *)
Definition Contains (needle haystack : string) : Prop :=
  exists pre post, haystack = pre ++ needle ++ post.

End JS.
Import JS.

(* ================================================================== *)
(** ** Error catalogue *)

Record HikvisionError := mkError { message : string; status : Z }.

Definition HIKVISION_ERRORS : list (string * HikvisionError) :=
  [ (* Device errors *)
    ("EVZ20002",   mkError "Device does not exist" 404);
    ("EVZ20007",   mkError "The device is offline" 503);
    ("EVZ0012",    mkError "Adding device failed" 400);
    ("EVZ20014",   mkError "Incorrect device serial number" 400);
    ("0x400019F1", mkError "The maximum number of devices reached" 429);
    (* Database errors *)
    ("0x30000010", mkError "Database search failed" 500);
    ("0x30001000", mkError "HBP Exception" 500);
    (* Time function errors *)
    ("0x00300001", mkError "Time synchronization failed" 500);
    ("0x00300002", mkError "Invalid NTP server address" 400);
    ("0x00300003", mkError "Incorrect time format" 400);
    (* Network errors *)
    ("0x00400001", mkError "Parsing domain name failed" 400);
    ("0x00400004", mkError "IP addresses of devices conflicted" 409);
    ("0x00400006", mkError "Uploading failed" 500);
    (* Device function errors *)
    ("0x01400003", mkError "Certificates mismatched" 403);
    ("0x01400004", mkError "Device is not activated" 401);
    ("0x01400006", mkError "IP address is banned" 403);
    (* Face management errors *)
    ("0x4000109C", mkError "The library name already exists" 409);
    ("0x4000109D", mkError "No record found" 404);
    (* Security control errors *)
    ("0x40008000", mkError "Arming failed" 500);
    ("0x40008001", mkError "Disarming failed" 500);
    ("0x40008007", mkError "Registering timed out" 504);
    (* Rate limiting *)
    ("EVZ10029",   mkError "API calling frequency exceeded limit" 429) ].

(** The value [getHikvisionError] hands back: a catalogue-shaped record,
    or a member inherited from Object.prototype. *)
Inductive LookupResult :=
| ErrorEntry (e : HikvisionError)
| PrototypeMember (name : string).

(** [error.message] and [error.status] on that value. *)
Definition result_message (r : LookupResult) : option string :=
  match r with
  | ErrorEntry e => Some (message e)
  | PrototypeMember _ => None
  end.

Definition result_status (r : LookupResult) : option Z :=
  match r with
  | ErrorEntry e => Some (status e)
  | PrototypeMember _ => None
  end.

(** [HIKVISION_ERRORS[errorCode] || defaultError].  The argument is
    whatever the vendor body carried in [code]; as a property key it is
    coerced to a string.  Every catalogue entry and every inherited
    member is an object, hence truthy. *)
Definition getHikvisionError (errorCode : jsval) : LookupResult :=
  let defaultError := mkError ("Hikvision error: " ++ to_string errorCode) 400 in
  match get HIKVISION_ERRORS (to_string errorCode) with
  | Own e => ErrorEntry e
  | Inherited name => PrototypeMember name
  | Missing => ErrorEntry defaultError
  end.

(* ================================================================== *)
(** ** Request and vendor data *)

(** A JavaScript number as far as the proxy handles one: the number an
    integer literal denotes, or the NaN that [parseInt] yields on a string
    without leading digits. *)
Inductive number := Int (z : Z) | NaN.

Definition number_toString (n : number) : string :=
  match n with
  | Int z => to_string (JNum z)
  | NaN => "NaN"
  end.

(** An element of [doorList?: (string | number)[]]. *)
Inductive Door := DoorString (s : string) | DoorNumber (n : number).

Module PersonData.
Record t := mk {
  id : option string;
  name : string;
  email : option string;
  phone : option string;
  faceData : option string;
  personId : option string;
  gender : option string
}.
End PersonData.

Module HikvisionRequest.
Record t := mk {
  action : string;
  apiUrl : option string;
  accessToken : option string;
  appKey : option string;
  secretKey : option string;
  deviceId : option string;
  memberData : option PersonData.t;
  personData : option PersonData.t;
  doorList : option (list Door);
  validStartTime : option string;
  validEndTime : option string;
  branchId : option string;
  siteName : option string;
  siteId : option string
}.
End HikvisionRequest.

(** A site object of the vendor's search result, through the two
    properties the code reads. *)
Module Site.
Record t := mk { id : option string; name : option string }.
End Site.

(** The [data] member of a vendor body, through the properties the code
    reads.  [expireTime] is the instant [new Date(expireTime)] denotes,
    [None] when that Date is invalid; an ISO string is represented by the
    instant it prints. *)
Module VendorData.
Record t := mk {
  accessToken : option string;
  refreshToken : option string;
  tokenType : option string;
  expireTime : option Z;
  areaDomain : option string;
  personId : option string;
  siteId : option string;
  list : option (list Site.t)
}.
End VendorData.

(** A parsed vendor body (a JSON object). *)
Module VendorBody.
Record t := mk {
  code : jsval;
  msg : option string;
  data : option VendorData.t
}.
Definition empty : t := mk JUndefined None None.
End VendorBody.

(** JSON bodies the proxy sends, one per [JSON.stringify(payload)]. *)
Inductive Payload :=
| TokenPayload (appKey secretKey : string)
| PersonPayload (name gender phone email : string) (pictures : list string)
| PrivilegePayload (personId deviceSerialNo : string) (doorList : list number)
    (validStartTime validEndTime : option string)
| SiteAddPayload (siteName remark : string)
| SiteSearchPayload (siteName siteId : option string).

Module FetchRequest.
Record t := mk {
  url : string;
  method : string;
  authorization : option string;
  body : option Payload
}.
End FetchRequest.

(** Outcome of [JSON.parse] / [response.json()] on the body text. *)
Inductive Parse :=
| SyntaxError (message : string)
| Parsed (responseData : VendorBody.t).

Module HttpResponse.
Record t := mk {
  status : Z;
  statusText : string;
  text : string;
  json : Parse
}.
Definition ok (r : t) : bool := (200 <=? status r)%Z && (status r <=? 299)%Z.
End HttpResponse.

Inductive FetchOutcome :=
| NetworkFailure (message : string)
| Responded (response : HttpResponse.t).

(* ================================================================== *)
(** ** Store tables *)

Module TokenRow.
Record t := mk {
  access_token : option string;
  refresh_token : option string;
  token_type : option string;
  expires_in : Z;
  expire_time : Z;
  area_domain : option string;
  branch_id : string;
  updated_at : Z
}.
End TokenRow.

Module DeviceRow.
Record t := mk { device_id : string; branch_id : string }.
End DeviceRow.

Module SettingsRow.
Record t := mk {
  branch_id : string;
  api_url : option string;
  site_id : option string;
  site_name : option string;
  updated_at : Z
}.
End SettingsRow.

Module BranchRow.
Record t := mk {
  id : string;
  hikvision_site_id : option string;
  hikvision_site_name : option string;
  updated_at : Z
}.
End BranchRow.

Module PersonRow.
Record t := mk {
  person_id : option string;
  member_id : option string;
  name : string;
  gender : option string;
  phone : option string;
  email : option string;
  status : string;
  branch_id : string;
  sync_status : string;
  last_sync : Z;
  created_at : Z;
  updated_at : Z
}.
End PersonRow.

Module PrivilegeRow.
Record t := mk {
  person_id : string;
  door_id : string;
  privilege : Z;
  schedule : Z;
  valid_start_time : option string;
  valid_end_time : option string;
  status : string;
  sync_status : string;
  last_sync : Z;
  created_at : Z;
  updated_at : Z
}.
End PrivilegeRow.

Record Tables := mkTables {
  hikvision_tokens : list TokenRow.t;
  hikvision_devices : list DeviceRow.t;
  hikvision_api_settings : list SettingsRow.t;
  hikvision_persons : list PersonRow.t;
  hikvision_access_privileges : list PrivilegeRow.t;
  branches : list BranchRow.t
}.

(** Store requests the proxy issues, one constructor per query shape. *)
Inductive StoreOp :=
| SelectLatestToken (branch_id : string)
| UpsertToken (row : TokenRow.t)
| UpdateBranchSite (id : string) (site_id site_name : option string) (updated_at : Z)
| SelectDeviceBranch (device_id : string)
| SelectApiUrl (branch_id : string)
| UpsertPerson (row : PersonRow.t)
| UpsertPrivilege (row : PrivilegeRow.t)
| UpdateSettingsSite (branch_id : string) (site_id : option string)
    (site_name : string) (updated_at : Z).

(** One observable effect, with its outcome.  [EvStore _ true] is a store
    request that came back with [error] set. *)
Inductive Event :=
| EvFetch (request : FetchRequest.t) (outcome : FetchOutcome)
| EvStore (op : StoreOp) (error : bool)
| EvConsoleError (label : string).

(** Faults the engine raises by itself; the message text is the
    engine's. *)
Inductive EngineFault :=
| DestructureUndefined
| InvalidTimeValue
| ReadPropertyOfUndefined.

(** What the proxy cannot decide: the vendor's answers, store failures,
    the clock, the engine's fault messages and built-ins.  The first
    three are indexed by the number of effects performed so far. *)
Record Env := mkEnv {
  vendor : nat -> FetchRequest.t -> FetchOutcome;
  store_fault : nat -> StoreOp -> bool;
  clock : nat -> Z;
  fault_message : EngineFault -> string;
  parseInt10 : string -> number;
  development : bool;
  stack_of : string -> string
}.

(** [trace] is newest first. *)
Record World := mkWorld {
  db : Tables;
  trace : list Event;
  env : Env
}.

(* ================================================================== *)
(** ** Effects *)

(** Everything thrown on the modelled paths is an [Error] instance, so
    [error instanceof Error ? error.message : ...] yields the message. *)
Inductive exn := JsError (message : string).

Definition exn_message (e : exn) : string :=
  match e with JsError m => m end.

Definition M (A : Type) : Type := World -> (exn + A) * World.

Definition ret {A : Type} (a : A) : M A := fun w => (inr a, w).

Definition throw {A : Type} (message : string) : M A :=
  fun w => (inl (JsError message), w).

Definition bind {A B : Type} (m : M A) (k : A -> M B) : M B :=
  fun w =>
    match m w with
    | (inl e, w') => (inl e, w')
    | (inr a, w') => k a w'
    end.

Notation "x <- m ;; k" := (bind m (fun x => k))
  (at level 61, m at next level, right associativity).
Notation "m ;; k" := (bind m (fun _ => k))
  (at level 61, right associativity).

Definition emit (ev : Event) (w : World) : World :=
  mkWorld (db w) (ev :: trace w) (env w).

Definition tick (w : World) : nat := length (trace w).

Definition console_error (label : string) : M unit :=
  fun w => (inr tt, emit (EvConsoleError label) w).

(** [new Date()] / [Date.now()]. *)
Definition now : M Z := fun w => (inr (clock (env w) (tick w)), w).

(** A fault raised by the engine itself. *)
Definition fault {A : Type} (f : EngineFault) : M A :=
  fun w => (inl (JsError (fault_message (env w) f)), w).

Definition fetch (r : FetchRequest.t) : M HttpResponse.t :=
  fun w =>
    let o := vendor (env w) (tick w) r in
    let w' := emit (EvFetch r o) w in
    match o with
    | NetworkFailure m => (inl (JsError m), w')
    | Responded response => (inr response, w')
    end.

(** [await response.json()]. *)
Definition response_json (r : HttpResponse.t) : M VendorBody.t :=
  match HttpResponse.json r with
  | SyntaxError m => throw m
  | Parsed b => ret b
  end.

(** [try { body } catch (error) { console.error(label, error); return h error }] *)
Definition try_catch {A : Type} (body : M A) (label : string) (h : exn -> A)
  : World -> A * World :=
  fun w =>
    match body w with
    | (inr a, w') => (a, w')
    | (inl e, w') => (h e, emit (EvConsoleError label) w')
    end.

(** Awaiting a function that handles its own faults. *)
Definition await {A : Type} (f : World -> A * World) : M A :=
  fun w => let (a, w') := f w in (inr a, w').

(** *** Store queries

    The Supabase client resolves to [{ data, error }] and does not throw.
    A read is modelled by its [data] ([None] exactly when [error] is set:
    a failed request, or [.single()] not finding exactly one row); a
    write by its [error] flag, the table being left as it was when the
    request fails. *)

Definition store_read {A : Type} (op : StoreOp) (q : Tables -> option A)
  : M (option A) :=
  fun w =>
    let res := if store_fault (env w) (tick w) op then None else q (db w) in
    (inr res, emit (EvStore op (match res with None => true | Some _ => false end)) w).

Definition store_write (op : StoreOp) (f : Tables -> Tables) : M bool :=
  fun w =>
    let err := store_fault (env w) (tick w) op in
    (inr err,
     mkWorld (if err then db w else f (db w)) (EvStore op err :: trace w) (env w)).

(** [.single()] *)
Definition single {A : Type} (rows : list A) : option A :=
  match rows with
  | [r] => Some r
  | _ => None
  end.

(** [.order('updated_at', { ascending: false }).limit(1).single()]: the
    row with the greatest [updated_at] (the earliest such row on a tie),
    no row when there is none. *)
Fixpoint newest (rows : list TokenRow.t) : option TokenRow.t :=
  match rows with
  | [] => None
  | r :: rest =>
      match newest rest with
      | None => Some r
      | Some r' =>
          if (TokenRow.updated_at r <? TokenRow.updated_at r')%Z
          then Some r' else Some r
      end
  end.

Definition tokens_of (branch_id : string) (rows : list TokenRow.t) : list TokenRow.t :=
  filter (fun r => TokenRow.branch_id r =? branch_id) rows.

Definition latest_token (t : Tables) (branch_id : string) : option TokenRow.t :=
  newest (tokens_of branch_id (hikvision_tokens t)).

(** A member of a write payload that is undefined is not sent, and the
    stored column stays as it is. *)
Definition sent {A : Type} (value stored : option A) : option A :=
  match value with
  | Some _ => value
  | None => stored
  end.

(** [.upsert(row, { onConflict })] when the payload may lack columns: the
    row in conflict takes over the columns sent ([update stored row]),
    else the row is appended, the columns not sent being NULL. *)
Fixpoint upsert_with {A : Type} (conflict : A -> bool) (update : A -> A -> A)
    (new : A) (rows : list A) : list A :=
  match rows with
  | [] => [new]
  | r :: rest =>
      if conflict r then update r new :: rest
      else r :: upsert_with conflict update new rest
  end.

(** [.upsert(row, { onConflict })] when the payload carries every column
    (the token payload: HikvisionTokenData declares each member): the row
    in conflict is replaced, else the row is appended. *)
Fixpoint upsert_row {A : Type} (conflict : A -> bool) (new : A) (rows : list A)
  : list A :=
  match rows with
  | [] => [new]
  | r :: rest =>
      if conflict r then new :: rest else r :: upsert_row conflict new rest
  end.

Definition with_tokens (t : Tables) (rows : list TokenRow.t) : Tables :=
  mkTables rows (hikvision_devices t) (hikvision_api_settings t)
    (hikvision_persons t) (hikvision_access_privileges t) (branches t).

Definition with_settings (t : Tables) (rows : list SettingsRow.t) : Tables :=
  mkTables (hikvision_tokens t) (hikvision_devices t) rows
    (hikvision_persons t) (hikvision_access_privileges t) (branches t).

Definition with_persons (t : Tables) (rows : list PersonRow.t) : Tables :=
  mkTables (hikvision_tokens t) (hikvision_devices t) (hikvision_api_settings t)
    rows (hikvision_access_privileges t) (branches t).

Definition with_privileges (t : Tables) (rows : list PrivilegeRow.t) : Tables :=
  mkTables (hikvision_tokens t) (hikvision_devices t) (hikvision_api_settings t)
    (hikvision_persons t) rows (branches t).

Definition with_branches (t : Tables) (rows : list BranchRow.t) : Tables :=
  mkTables (hikvision_tokens t) (hikvision_devices t) (hikvision_api_settings t)
    (hikvision_persons t) (hikvision_access_privileges t) rows.

(** from('hikvision_tokens').select('*').eq('branch_id', b)
      .order('updated_at', desc).limit(1).single() *)
Definition select_latest_token (branch_id : string) : M (option TokenRow.t) :=
  store_read (SelectLatestToken branch_id) (fun t => latest_token t branch_id).

(** from('hikvision_tokens').upsert(row, { onConflict: 'branch_id' }) *)
Definition upsert_token (row : TokenRow.t) : M bool :=
  store_write (UpsertToken row)
    (fun t => with_tokens t
       (upsert_row (fun r => TokenRow.branch_id r =? TokenRow.branch_id row)
          row (hikvision_tokens t))).

(** from('branches').update({ hikvision_site_id, hikvision_site_name,
      updated_at }).eq('id', id) *)
Definition update_branch_site (id : string) (site_id site_name : option string)
    (at_ : Z) : M bool :=
  store_write (UpdateBranchSite id site_id site_name at_)
    (fun t => with_branches t
       (map (fun r => if BranchRow.id r =? id
                      then BranchRow.mk (BranchRow.id r)
                             (sent site_id (BranchRow.hikvision_site_id r))
                             (sent site_name (BranchRow.hikvision_site_name r)) at_
                      else r)
          (branches t))).

(** from('hikvision_devices').select('branch_id').eq('device_id', d).single() *)
Definition select_device_branch (device_id : string) : M (option DeviceRow.t) :=
  store_read (SelectDeviceBranch device_id)
    (fun t => single (filter (fun r => DeviceRow.device_id r =? device_id)
                        (hikvision_devices t))).

(** from('hikvision_api_settings').select('api_url').eq('branch_id', b).single() *)
Definition select_api_url (branch_id : string) : M (option SettingsRow.t) :=
  store_read (SelectApiUrl branch_id)
    (fun t => single (filter (fun r => SettingsRow.branch_id r =? branch_id)
                        (hikvision_api_settings t))).

(** A NULL key never conflicts. *)
Definition same_member (a b : PersonRow.t) : bool :=
  match PersonRow.member_id a, PersonRow.member_id b with
  | Some x, Some y => x =? y
  | _, _ => false
  end.

(** The stored row after an upsert in conflict with it: [person_id],
    [gender], [phone] and [email] are sent only when defined. *)
Definition update_person (stored row : PersonRow.t) : PersonRow.t :=
  PersonRow.mk (sent (PersonRow.person_id row) (PersonRow.person_id stored))
    (PersonRow.member_id row) (PersonRow.name row)
    (sent (PersonRow.gender row) (PersonRow.gender stored))
    (sent (PersonRow.phone row) (PersonRow.phone stored))
    (sent (PersonRow.email row) (PersonRow.email stored))
    (PersonRow.status row) (PersonRow.branch_id row) (PersonRow.sync_status row)
    (PersonRow.last_sync row) (PersonRow.created_at row) (PersonRow.updated_at row).

(** from('hikvision_persons').upsert(row, { onConflict: 'member_id' }) *)
Definition upsert_person (row : PersonRow.t) : M bool :=
  store_write (UpsertPerson row)
    (fun t => with_persons t
       (upsert_with (fun r => same_member r row) update_person row
          (hikvision_persons t))).

Definition same_privilege (a b : PrivilegeRow.t) : bool :=
  (PrivilegeRow.person_id a =? PrivilegeRow.person_id b)
  && (PrivilegeRow.door_id a =? PrivilegeRow.door_id b).

(** The stored row after an upsert in conflict with it: the validity
    period is sent only when defined. *)
Definition update_privilege (stored row : PrivilegeRow.t) : PrivilegeRow.t :=
  PrivilegeRow.mk (PrivilegeRow.person_id row) (PrivilegeRow.door_id row)
    (PrivilegeRow.privilege row) (PrivilegeRow.schedule row)
    (sent (PrivilegeRow.valid_start_time row) (PrivilegeRow.valid_start_time stored))
    (sent (PrivilegeRow.valid_end_time row) (PrivilegeRow.valid_end_time stored))
    (PrivilegeRow.status row) (PrivilegeRow.sync_status row)
    (PrivilegeRow.last_sync row) (PrivilegeRow.created_at row)
    (PrivilegeRow.updated_at row).

(** from('hikvision_access_privileges')
      .upsert(row, { onConflict: 'person_id,door_id' }) *)
Definition upsert_privilege (row : PrivilegeRow.t) : M bool :=
  store_write (UpsertPrivilege row)
    (fun t => with_privileges t
       (upsert_with (fun r => same_privilege r row) update_privilege row
          (hikvision_access_privileges t))).

(** from('hikvision_api_settings').update({ site_id, site_name, updated_at })
      .eq('branch_id', b) *)
Definition update_settings_site (branch_id : string) (site_id : option string)
    (site_name : string) (at_ : Z) : M bool :=
  store_write (UpdateSettingsSite branch_id site_id site_name at_)
    (fun t => with_settings t
       (map (fun r => if SettingsRow.branch_id r =? branch_id
                      then SettingsRow.mk (SettingsRow.branch_id r)
                             (SettingsRow.api_url r)
                             (sent site_id (SettingsRow.site_id r))
                             (Some site_name) at_
                      else r)
          (hikvision_api_settings t))).

(* ================================================================== *)
(** ** Operations *)

(** The object an operation resolves to, one constructor per [return]
    shape of the source. *)
Inductive OpResult :=
| Failure (error : string)
    (* { success: false, error } *)
| SiteSearchFailure (details : option string)
    (* { success: false, error: 'Failed to search for site', details } *)
| TokenCodeFailure (error : string) (errorCode : jsval)
    (* getToken: { success: false, error: msg || `Error code: ...`, errorCode } *)
| CodeFailureError (error : option string) (errorCode : jsval)
    (* testDevice: { success: false, error: error.message, errorCode } *)
| CodeFailureMessage (message : option string) (errorCode : jsval)
    (* the others: { success: false, message: error.message, errorCode } *)
| TokenSuccess (accessToken tokenType : option string) (expireTime : Z)
    (areaDomain siteId siteName : option string)
| DeviceSuccess (data : option VendorData.t)
| PersonSuccess (personId : option string)
| PrivilegesSuccess
| SiteSuccess (siteId : option string) (siteName : string)
| SitesSuccess (sites : list Site.t).

Definition success (r : OpResult) : bool :=
  match r with
  | Failure _ | SiteSearchFailure _ | TokenCodeFailure _ _
  | CodeFailureError _ _ | CodeFailureMessage _ _ => false
  | _ => true
  end.

(** [result.error] *)
Definition error_of (r : OpResult) : option string :=
  match r with
  | Failure e => Some e
  | SiteSearchFailure _ => Some "Failed to search for site"
  | TokenCodeFailure e _ => Some e
  | CodeFailureError e _ => e
  | _ => None
  end.

(** [result.errorCode] *)
Definition errorCode_of (r : OpResult) : option jsval :=
  match r with
  | TokenCodeFailure _ c | CodeFailureError _ c | CodeFailureMessage _ c => Some c
  | _ => None
  end.

Module Settings.
Record t := mk {
  api_url : string;
  branch_id : string;
  device_id : option string
}.
End Settings.

Definition no_token_message : string :=
  "No valid access token found. Please authenticate first.".

(** [tokenError || !tokenData?.access_token] decides between the two
    branches; the token is handed on when the check passes. *)
Definition usable_token (tokenData : option TokenRow.t) : option string :=
  match tokenData with
  | Some row =>
      if truthy_str (TokenRow.access_token row) then TokenRow.access_token row
      else None
  | None => None
  end.

Definition bearer (access_token : string) : option string :=
  Some ("Bearer " ++ access_token).

Definition opt_to_js (o : option string) : jsval :=
  match o with Some s => JStr s | None => JUndefined end.

(** A payload property that is only set under [if (value)]. *)
Definition if_truthy (o : option string) : option string :=
  if truthy_str o then o else None.

Definition searchSites (settings : Settings.t) (siteName siteId : string)
  : World -> OpResult * World :=
  try_catch
    (if negb (truthy_str (Some (Settings.api_url settings)))
     then throw "Hikvision API URL not configured"
     else
       tokenData <- select_latest_token (Settings.branch_id settings) ;;
       match usable_token tokenData with
       | None => ret (Failure no_token_message)
       | Some access_token =>
           response <- fetch (FetchRequest.mk
                                (Settings.api_url settings ++ "/api/hpcgw/v1/site/search")
                                "POST" (bearer access_token)
                                (Some (SiteSearchPayload (if_truthy (Some siteName))
                                         (if_truthy (Some siteId))))) ;;
           responseData <- response_json response ;;
           if negb (strict_eq_str (VendorBody.code responseData) "0")
           then
             let error := getHikvisionError (VendorBody.code responseData) in
             ret (CodeFailureMessage (result_message error)
                    (VendorBody.code responseData))
           else
             ret (SitesSuccess
                    match VendorBody.data responseData with
                    | Some d => match VendorData.list d with
                                | Some l => l
                                | None => []
                                end
                    | None => []
                    end)
       end)
    "Error searching sites:"
    (fun error => Failure (exn_message error)).

(** [siteSearchResult.sites?.[0] || { id: 'default-site', name: 'Default Site' }] *)
Definition default_site : Site.t :=
  Site.mk (Some "default-site") (Some "Default Site").

Definition first_site_or_default (r : OpResult) : Site.t :=
  match r with
  | SitesSuccess (site :: _) => site
  | _ => default_site
  end.

Definition getToken (apiUrl appKey secretKey branchId : string)
  : World -> OpResult * World :=
  try_catch
    (let tokenUrl := apiUrl ++ "/api/hpcgw/v1/token/get" in
     response <- fetch (FetchRequest.mk tokenUrl "POST" None
                          (Some (TokenPayload appKey secretKey))) ;;
     let responseText := HttpResponse.text response in
     responseData <-
       (if responseText =? "" then ret VendorBody.empty
        else match HttpResponse.json response with
             | Parsed b => ret b
             | SyntaxError _ =>
                 console_error "Failed to parse response as JSON:" ;;
                 throw ("Invalid JSON response: " ++ substring_utf16 200 responseText)
             end) ;;
     if negb (HttpResponse.ok response)
     then
       let errorMsg :=
         or_str (VendorBody.msg responseData)
           ("HTTP " ++ to_string (JNum (HttpResponse.status response)) ++ " "
              ++ HttpResponse.statusText response) in
       console_error "Token request failed:" ;;
       throw errorMsg
     else if truthy (VendorBody.code responseData)
             && negb (strict_eq_str (VendorBody.code responseData) "0")
     then
       console_error "API returned error code:" ;;
       ret (TokenCodeFailure
              (or_str (VendorBody.msg responseData)
                 ("Error code: " ++ to_string (VendorBody.code responseData)))
              (VendorBody.code responseData))
     else
       match VendorBody.data responseData with
       | None => fault DestructureUndefined
       | Some d =>
           match VendorData.expireTime d with
           | None => fault InvalidTimeValue
           | Some expireTimestamp =>
               t <- now ;;
               upsertError <-
                 upsert_token
                   (TokenRow.mk (VendorData.accessToken d)
                      (VendorData.refreshToken d) (VendorData.tokenType d)
                      ((expireTimestamp - t) / 1000)%Z expireTimestamp
                      (VendorData.areaDomain d) branchId t) ;;
               if upsertError : bool
               then
                 console_error "Error storing token:" ;;
                 throw "Failed to store token in database"
               else
                 siteSearchResult <-
                   await (searchSites (Settings.mk apiUrl branchId None) "" "") ;;
                 if negb (success siteSearchResult)
                 then
                   console_error "Error searching for site:" ;;
                   ret (SiteSearchFailure (error_of siteSearchResult))
                 else
                   let site := first_site_or_default siteSearchResult in
                   t' <- now ;;
                   updateError <-
                     update_branch_site branchId (Site.id site) (Site.name site) t' ;;
                   (if updateError : bool
                    then console_error "Error updating branch with site info:"
                    else ret tt) ;;
                   ret (TokenSuccess (VendorData.accessToken d)
                          (VendorData.tokenType d) expireTimestamp
                          (VendorData.areaDomain d) (Site.id site) (Site.name site))
           end
       end)
    "Token request error:"
    (fun error => Failure (exn_message error)).

Definition testDevice (settings : Settings.t) : World -> OpResult * World :=
  try_catch
    (if negb (truthy_str (Some (Settings.api_url settings)))
     then throw "Hikvision API URL not configured"
     else
       tokenData <- select_latest_token (Settings.branch_id settings) ;;
       match usable_token tokenData with
       | None => ret (Failure no_token_message)
       | Some access_token =>
           response <- fetch (FetchRequest.mk
                                (Settings.api_url settings
                                   ++ "/api/hpcgw/v1/device/status?deviceId="
                                   ++ to_string (opt_to_js (Settings.device_id settings)))
                                "GET" (bearer access_token) None) ;;
           responseData <- response_json response ;;
           if negb (strict_eq_str (VendorBody.code responseData) "0")
           then
             let error := getHikvisionError (VendorBody.code responseData) in
             ret (CodeFailureError (result_message error)
                    (VendorBody.code responseData))
           else ret (DeviceSuccess (VendorBody.data responseData))
       end)
    "Error testing device:"
    (fun error => Failure (exn_message error)).

Definition registerPerson (settings : Settings.t) (personData : PersonData.t)
    (branchId : string) : World -> OpResult * World :=
  try_catch
    (if negb (truthy_str (Some (Settings.api_url settings)))
     then throw "Hikvision API URL not configured"
     else if negb (truthy_str (Some (PersonData.name personData)))
     then throw "Person name is required"
     else
       tokenData <- select_latest_token branchId ;;
       match usable_token tokenData with
       | None => ret (Failure no_token_message)
       | Some access_token =>
           let payload :=
             PersonPayload (PersonData.name personData)
               (or_str (PersonData.gender personData) "unknown")
               (or_str (PersonData.phone personData) "")
               (or_str (PersonData.email personData) "")
               (match if_truthy (PersonData.faceData personData) with
                | Some f => [f]
                | None => []
                end) in
           response <- fetch (FetchRequest.mk
                                (Settings.api_url settings ++ "/api/hpcgw/v1/person/add")
                                "POST" (bearer access_token) (Some payload)) ;;
           responseData <- response_json response ;;
           if negb (strict_eq_str (VendorBody.code responseData) "0")
           then
             let error := getHikvisionError (VendorBody.code responseData) in
             ret (CodeFailureMessage (result_message error)
                    (VendorBody.code responseData))
           else
             match VendorBody.data responseData with
             | None => fault ReadPropertyOfUndefined
             | Some d =>
                 let personId := VendorData.personId d in
                 t <- now ;;
                 dbError <-
                   upsert_person
                     (PersonRow.mk personId (PersonData.id personData)
                        (PersonData.name personData) (PersonData.gender personData)
                        (PersonData.phone personData) (PersonData.email personData)
                        "active" branchId "success" t t t) ;;
                 (if dbError : bool
                  then console_error "Error storing person mapping:"
                  else ret tt) ;;
                 ret (PersonSuccess personId)
             end
       end)
    "Error registering person:"
    (fun error => Failure (exn_message error)).

(** The body of [for (const doorId of doorList) { ... upsert ... }]. *)
Definition store_privilege (personId : string)
    (validStartTime validEndTime : option string) (doorId : number) : M unit :=
  t <- now ;;
  dbError <-
    upsert_privilege
      (PrivilegeRow.mk personId (number_toString doorId) 1 0
         validStartTime validEndTime "active" "success" t t t) ;;
  if dbError : bool
  then console_error "Error storing access privilege:"
  else ret tt.

Fixpoint for_of {A : Type} (l : list A) (body : A -> M unit) : M unit :=
  match l with
  | [] => ret tt
  | x :: rest => body x ;; for_of rest body
  end.

Definition assignAccessPrivileges (deviceId personId : string)
    (doorList : list number) (validStartTime validEndTime : option string)
  : World -> OpResult * World :=
  try_catch
    (deviceData <- select_device_branch deviceId ;;
     match deviceData with
     | None => throw "Device not found"
     | Some device =>
         let branchId := DeviceRow.branch_id device in
         tokenData <- select_latest_token branchId ;;
         match usable_token tokenData with
         | None => ret (Failure no_token_message)
         | Some access_token =>
             settings <- select_api_url branchId ;;
             match match settings with
                   | Some s => if_truthy (SettingsRow.api_url s)
                   | None => None
                   end with
             | None => throw "Hikvision API settings not found"
             | Some apiUrl =>
                 let payload :=
                   PrivilegePayload personId deviceId doorList
                     (if_truthy validStartTime) (if_truthy validEndTime) in
                 response <- fetch (FetchRequest.mk
                                      (apiUrl ++ "/api/hpcgw/v1/acs/privilege/config")
                                      "POST" (bearer access_token) (Some payload)) ;;
                 responseData <- response_json response ;;
                 if negb (strict_eq_str (VendorBody.code responseData) "0")
                 then
                   let error := getHikvisionError (VendorBody.code responseData) in
                   ret (CodeFailureMessage (result_message error)
                          (VendorBody.code responseData))
                 else
                   for_of doorList
                     (store_privilege personId validStartTime validEndTime) ;;
                   ret PrivilegesSuccess
             end
         end
     end)
    "Error assigning access privileges:"
    (fun error => Failure (exn_message error)).

Definition createSite (siteName branchId : string) : World -> OpResult * World :=
  try_catch
    (tokenData <- select_latest_token branchId ;;
     match usable_token tokenData with
     | None => ret (Failure no_token_message)
     | Some access_token =>
         settings <- select_api_url branchId ;;
         match match settings with
               | Some s => if_truthy (SettingsRow.api_url s)
               | None => None
               end with
         | None => throw "Hikvision API settings not found"
         | Some apiUrl =>
             let payload :=
               SiteAddPayload siteName ("Site for branch " ++ branchId) in
             response <- fetch (FetchRequest.mk
                                  (apiUrl ++ "/api/hpcgw/v1/site/add")
                                  "POST" (bearer access_token) (Some payload)) ;;
             responseData <- response_json response ;;
             if negb (strict_eq_str (VendorBody.code responseData) "0")
             then
               let error := getHikvisionError (VendorBody.code responseData) in
               ret (CodeFailureMessage (result_message error)
                      (VendorBody.code responseData))
             else
               let siteId :=
                 match VendorBody.data responseData with
                 | Some d => VendorData.siteId d
                 | None => None
                 end in
               t <- now ;;
               updateError <- update_settings_site branchId siteId siteName t ;;
               (if updateError : bool
                then console_error "Error updating site ID:"
                else ret tt) ;;
               ret (SiteSuccess siteId siteName)
         end
     end)
    "Error creating site:"
    (fun error => Failure (exn_message error)).

(* ================================================================== *)
(** ** Request router *)

Definition corsHeaders : list (string * string) :=
  [ ("Access-Control-Allow-Origin", "*");
    ("Access-Control-Allow-Methods", "POST, OPTIONS");
    ("Access-Control-Allow-Headers", "Content-Type, Authorization") ].

(** [{ 'Content-Type': 'application/json', ...corsHeaders }] *)
Definition jsonHeaders : list (string * string) :=
  ("Content-Type", "application/json") :: corsHeaders.

(** What [req.json()] gives: a rejection with the parser's message, or
    the request object. *)
Inductive RequestBody :=
| Malformed (message : string)
| Json (requestData : HikvisionRequest.t).

Module Request.
Record t := mk { method : string; body : RequestBody }.
End Request.

(** The object handed to [JSON.stringify] for the response body. *)
Inductive Body :=
| Envelope (result : OpResult)
    (* JSON.stringify(result) *)
| Wrapped (message : string) (data : OpResult)
    (* { success: true, message, data } *)
| ErrorEnvelope (error : string) (details : option string).
    (* { success: false, error, details } *)

Module Response.
Record t := mk {
  status : Z;
  headers : list (string * string);
  body : option Body
}.
End Response.

(** The [success] member of the serialized body. *)
Definition body_success (b : Body) : bool :=
  match b with
  | Envelope r => success r
  | Wrapped _ _ => true
  | ErrorEnvelope _ _ => false
  end.

Definition json_response (b : Body) : Response.t :=
  Response.mk 200 jsonHeaders (Some b).

(** [const { ..., branchId = 'default', ... } = requestData]: the default
    applies to an absent member only. *)
Definition branchId_of (requestData : HikvisionRequest.t) : string :=
  match HikvisionRequest.branchId requestData with
  | Some b => b
  | None => "default"
  end.

Definition or_empty (o : option string) : string := or_str o "".

(** [doorList.map(door => typeof door === 'string' ? parseInt(door, 10) : door)] *)
Definition doorNumbers (e : Env) (doorList : list Door) : list number :=
  map (fun door => match door with
                   | DoorString s => parseInt10 e s
                   | DoorNumber n => n
                   end) doorList.

(** Reading a built-in of the running engine. *)
Definition engine : M Env := fun w => (inr (env w), w).

(** [personData?.id] *)
Definition personData_id (personData : option PersonData.t) : option string :=
  match personData with
  | Some p => PersonData.id p
  | None => None
  end.

(** [doorList?.length], as a condition. *)
Definition has_length (doorList : option (list Door)) : bool :=
  match doorList with
  | Some l => negb (List.length l =? 0)%nat
  | None => false
  end.

Definition or_nil (doorList : option (list Door)) : list Door :=
  match doorList with
  | Some l => l
  | None => []
  end.

(** The [switch (action)] inside the handler's [try].  Past a guard
    [if (!field) throw ...], [or_empty field] is the field's value. *)
Definition route (requestData : HikvisionRequest.t) : M Response.t :=
  let action := HikvisionRequest.action requestData in
  let apiUrl := HikvisionRequest.apiUrl requestData in
  let appKey := HikvisionRequest.appKey requestData in
  let secretKey := HikvisionRequest.secretKey requestData in
  let deviceId := HikvisionRequest.deviceId requestData in
  let personData := HikvisionRequest.personData requestData in
  let doorList := HikvisionRequest.doorList requestData in
  let validStartTime := HikvisionRequest.validStartTime requestData in
  let validEndTime := HikvisionRequest.validEndTime requestData in
  let branchId := branchId_of requestData in
  let siteName := HikvisionRequest.siteName requestData in
  let settings := Settings.mk (or_empty apiUrl) (or_empty (Some branchId)) deviceId in
  if action =? "getToken" then
    if negb (truthy_str appKey) || negb (truthy_str secretKey)
    then throw "appKey and secretKey are required for getToken action"
    else
      tokenResult <- await (getToken (or_empty apiUrl) (or_empty appKey)
                              (or_empty secretKey) branchId) ;;
      ret (json_response (Envelope tokenResult))
  else if action =? "testDevice" then
    if negb (truthy_str deviceId)
    then throw "deviceId is required for testDevice action"
    else
      testResult <- await (testDevice settings) ;;
      ret (json_response (Envelope testResult))
  else if action =? "registerPerson" then
    match personData with
    | None => throw "personData is required for registerPerson action"
    | Some personData =>
        if negb (truthy_str (Some branchId))
        then throw "branchId is required for registerPerson action"
        else
          registerResult <- await (registerPerson settings personData branchId) ;;
          ret (json_response (Envelope registerResult))
    end
  else if action =? "assignAccessPrivileges" then
    if negb (truthy_str (personData_id personData)) || negb (has_length doorList)
    then throw "personData.id and doorList are required for assignAccessPrivileges action"
    else if negb (truthy_str deviceId)
    then throw "deviceId is required for assignAccessPrivileges action"
    else
      e <- engine ;;
      let doorNumbers := doorNumbers e (or_nil doorList) in
      accessResult <-
        await (assignAccessPrivileges (or_empty deviceId)
                 (or_empty (personData_id personData)) doorNumbers
                 validStartTime validEndTime) ;;
      ret (json_response
             (Wrapped "Access privileges assigned successfully" accessResult))
  else if action =? "createSite" then
    if negb (truthy_str siteName)
    then throw "siteName is required for createSite action"
    else if negb (truthy_str (Some branchId))
    then throw "branchId is required for createSite action"
    else
      siteResult <- await (createSite (or_empty siteName) branchId) ;;
      ret (json_response (Wrapped "Site created successfully" siteResult))
  else if action =? "searchSites" then
    let siteName := match HikvisionRequest.siteName requestData with
                    | Some s => s | None => "" end in
    let siteId := match HikvisionRequest.siteId requestData with
                  | Some s => s | None => "" end in
    searchResult <- await (searchSites settings siteName siteId) ;;
    ret (json_response (Envelope searchResult))
  else
    ret (Response.mk 400 jsonHeaders
           (Some (ErrorEnvelope "Invalid action" None))).

(** The handler passed to [serve]. *)
Definition serve (req : Request.t) (w : World) : Response.t * World :=
  if Request.method req =? "OPTIONS"
  then (Response.mk 204 corsHeaders None, w)
  else
    match (match Request.body req with
           | Malformed m => throw m
           | Json requestData => route requestData
           end) w with
    | (inr response, w') => (response, w')
    | (inl error, w') =>
        let errorMessage := exn_message error in
        let w'' := emit (EvConsoleError "Error details:")
                     (emit (EvConsoleError "Error handling request:") w') in
        (Response.mk 500 jsonHeaders
           (Some (ErrorEnvelope errorMessage
                    (if development (env w')
                     then Some (stack_of (env w') errorMessage)
                     else None))),
         w'')
    end.

(* ================================================================== *)
(** ** Observations on a run *)

(** Effects performed between world [w] and a later world [w'], newest
    first, and in chronological order. *)
Definition since (w w' : World) : list Event :=
  firstn (List.length (trace w') - List.length (trace w)) (trace w').

Definition history (w w' : World) : list Event := rev (since w w').

Definition is_fetch (ev : Event) : bool :=
  match ev with EvFetch _ _ => true | _ => false end.

(** The outbound vendor calls among some events. *)
Definition vendor_calls (evs : list Event) : list Event := filter is_fetch evs.

(** The vendor's answer to the first call found in [evs], in list order:
    the most recent call of [since w w'], the earliest call of
    [history w w']. *)
Fixpoint head_answer (evs : list Event) : option FetchOutcome :=
  match evs with
  | [] => None
  | EvFetch _ o :: _ => Some o
  | _ :: rest => head_answer rest
  end.

(** The vendor answered with a JSON body. *)
Definition answered_with (o : option FetchOutcome) (b : VendorBody.t) : Prop :=
  exists response,
    o = Some (Responded response) /\ HttpResponse.json response = Parsed b.

(** Local access-privilege upserts among some events, with their keys
    and error flags. *)
Fixpoint privilege_upserts (evs : list Event)
  : list (string * string * bool) :=
  match evs with
  | [] => []
  | EvStore (UpsertPrivilege row) err :: rest =>
      (PrivilegeRow.person_id row, PrivilegeRow.door_id row, err)
        :: privilege_upserts rest
  | _ :: rest => privilege_upserts rest
  end.

(** Number of console.error lines with a given label. *)
Definition logged (label : string) (evs : list Event) : nat :=
  List.length (filter (fun ev => match ev with
                                 | EvConsoleError l => l =? label
                                 | _ => false
                                 end) evs).

(** The tenant a credential read or write is keyed on. *)
Definition token_key (ev : Event) : option string :=
  match ev with
  | EvStore (SelectLatestToken b) _ => Some b
  | EvStore (UpsertToken row) _ => Some (TokenRow.branch_id row)
  | _ => None
  end.

(** A call of one of the five operations that read the stored
    credential, with its arguments. *)
Inductive Call :=
| TestDevice (settings : Settings.t)
| RegisterPerson (settings : Settings.t) (personData : PersonData.t)
    (branchId : string)
| AssignAccessPrivileges (deviceId personId : string) (doorList : list number)
    (validStartTime validEndTime : option string)
| CreateSite (siteName branchId : string)
| SearchSites (settings : Settings.t) (siteName siteId : string).

Definition perform (c : Call) : World -> OpResult * World :=
  match c with
  | TestDevice settings => testDevice settings
  | RegisterPerson settings personData branchId =>
      registerPerson settings personData branchId
  | AssignAccessPrivileges deviceId personId doorList validStartTime validEndTime =>
      assignAccessPrivileges deviceId personId doorList validStartTime validEndTime
  | CreateSite siteName branchId => createSite siteName branchId
  | SearchSites settings siteName siteId => searchSites settings siteName siteId
  end.

(** The tenant id a call is given; assignAccessPrivileges derives it
    from the device row instead. *)
Definition call_tenant (c : Call) : option string :=
  match c with
  | TestDevice settings => Some (Settings.branch_id settings)
  | RegisterPerson _ _ branchId => Some branchId
  | AssignAccessPrivileges _ _ _ _ _ => None
  | CreateSite _ branchId => Some branchId
  | SearchSites settings _ _ => Some (Settings.branch_id settings)
  end.

(** The vendor-error result for [code]: the catalogue lookup's message
    and the raw code, under [error] (testDevice) or [message]. *)
Definition is_code_failure (r : OpResult) (code : jsval) : Prop :=
  r = CodeFailureError (result_message (getHikvisionError code)) code
  \/ r = CodeFailureMessage (result_message (getHikvisionError code)) code.

(** The request getToken sends. *)
Definition token_request (apiUrl appKey secretKey : string) : FetchRequest.t :=
  FetchRequest.mk (apiUrl ++ "/api/hpcgw/v1/token/get") "POST" None
    (Some (TokenPayload appKey secretKey)).

(** The request searchSites sends when called with empty filters. *)
Definition site_search_all (apiUrl access_token : string) : FetchRequest.t :=
  FetchRequest.mk (apiUrl ++ "/api/hpcgw/v1/site/search") "POST"
    (bearer access_token) (Some (SiteSearchPayload None None)).

(** [responseData.data?.list || []] *)
Definition listed_sites (b : VendorBody.t) : list Site.t :=
  match VendorBody.data b with
  | Some d => match VendorData.list d with Some l => l | None => [] end
  | None => []
  end.

(** Some row of the table has the key (person id, door id). *)
Definition has_privilege (person_id door_id : string) (rows : list PrivilegeRow.t)
  : bool :=
  existsb (fun r => (PrivilegeRow.person_id r =? person_id)
                    && (PrivilegeRow.door_id r =? door_id)) rows.

(** [responseText ? JSON.parse(responseText) : {}], when it does not
    throw. *)
Definition token_body (response : HttpResponse.t) : option VendorBody.t :=
  if HttpResponse.text response =? "" then Some VendorBody.empty
  else match HttpResponse.json response with
       | Parsed b => Some b
       | SyntaxError _ => None
       end.

Definition first_or_default (sites : list Site.t) : Site.t :=
  match sites with
  | site :: _ => site
  | [] => default_site
  end.

Definition set_branch_site (id : string) (site : Site.t) (at_ : Z)
    (rows : list BranchRow.t) : list BranchRow.t :=
  map (fun r => if BranchRow.id r =? id
                then BranchRow.mk (BranchRow.id r)
                       (sent (Site.id site) (BranchRow.hikvision_site_id r))
                       (sent (Site.name site) (BranchRow.hikvision_site_name r)) at_
                else r) rows.

(** What holds of every run of a credentialed call: the trace only
    grows; the credentials are left alone; a run that read the credential
    of a tenant without any ends in the fixed failure; a run whose last
    vendor answer carries a code other than '0' ends in the vendor-error
    result; and every credential access is keyed on the tenant id the
    call was given. *)
Definition credentialed_post (c : Call) (w : World) (r : OpResult) (w' : World)
  : Prop :=
  trace w' = (since w w' ++ trace w)%list
  /\ hikvision_tokens (db w') = hikvision_tokens (db w)
  /\ (forall tenant err,
        In (EvStore (SelectLatestToken tenant) err) (since w w') ->
        tokens_of tenant (hikvision_tokens (db w)) = [] ->
        r = Failure no_token_message)
  /\ (forall b,
        answered_with (head_answer (since w w')) b ->
        strict_eq_str (VendorBody.code b) "0" = false ->
        is_code_failure r (VendorBody.code b))
  /\ (forall tenant,
        call_tenant c = Some tenant ->
        Forall (fun ev => forall k, token_key ev = Some k -> k = tenant)
          (since w w')).

Definition invalid_action_response : Response.t :=
  Response.mk 400 jsonHeaders (Some (ErrorEnvelope "Invalid action" None)).

(** How the router nests an operation's result: at top level for
    testDevice, registerPerson and searchSites, under [data] of a
    [success: true] envelope for assignAccessPrivileges and createSite. *)
Definition body_for (action : string) (r : OpResult) (body : Body) : Prop :=
  (In action ["testDevice"; "registerPerson"; "searchSites"] /\ body = Envelope r)
  \/ (In action ["assignAccessPrivileges"; "createSite"]
      /\ exists message, body = Wrapped message r).

(** The actions the router dispatches. *)
Definition dispatched_actions : list string :=
  [ "getToken"; "testDevice"; "registerPerson"; "assignAccessPrivileges";
    "createSite"; "searchSites" ].

(** The actions that read the stored credential before calling out. *)
Definition credentialed_actions : list string :=
  [ "testDevice"; "registerPerson"; "assignAccessPrivileges";
    "createSite"; "searchSites" ].

(** A required field of the selected action is missing, in the words of
    the specification: getToken without appKey or secretKey, testDevice
    without deviceId, registerPerson without personData,
    assignAccessPrivileges without personData.id, doorList or deviceId,
    createSite without siteName. *)
Definition missing_required_field (rd : HikvisionRequest.t) : bool :=
  let action := HikvisionRequest.action rd in
  if action =? "getToken" then
    negb (truthy_str (HikvisionRequest.appKey rd))
    || negb (truthy_str (HikvisionRequest.secretKey rd))
  else if action =? "testDevice" then
    negb (truthy_str (HikvisionRequest.deviceId rd))
  else if action =? "registerPerson" then
    match HikvisionRequest.personData rd with None => true | Some _ => false end
  else if action =? "assignAccessPrivileges" then
    negb (truthy_str (personData_id (HikvisionRequest.personData rd)))
    || negb (has_length (HikvisionRequest.doorList rd))
    || negb (truthy_str (HikvisionRequest.deviceId rd))
  else if action =? "createSite" then
    negb (truthy_str (HikvisionRequest.siteName rd))
  else false.

(** The fixed messages of the router's required-field guards. *)
Definition required_field_messages : list string :=
  [ "appKey and secretKey are required for getToken action";
    "deviceId is required for testDevice action";
    "personData is required for registerPerson action";
    "personData.id and doorList are required for assignAccessPrivileges action";
    "deviceId is required for assignAccessPrivileges action";
    "siteName is required for createSite action" ].

Definition branchId_required_messages : list string :=
  [ "branchId is required for registerPerson action";
    "branchId is required for createSite action" ].


(** The tenant a store request is keyed on, for the requests that are
    keyed on one: credential reads and writes, the branch update, the
    settings read and update, the person upsert. *)
Definition tenant_key (ev : Event) : option string :=
  match ev with
  | EvStore (SelectLatestToken b) _ => Some b
  | EvStore (UpsertToken row) _ => Some (TokenRow.branch_id row)
  | EvStore (UpdateBranchSite id _ _ _) _ => Some id
  | EvStore (SelectApiUrl b) _ => Some b
  | EvStore (UpsertPerson row) _ => Some (PersonRow.branch_id row)
  | EvStore (UpdateSettingsSite b _ _ _) _ => Some b
  | _ => None
  end.

(** The row [.eq('device_id', d).single()] finds. *)
Definition device_row (t : Tables) (device_id : string) : option DeviceRow.t :=
  single (filter (fun r => DeviceRow.device_id r =? device_id) (hikvision_devices t)).

(** The tenant of a device: the [branch_id] of its row. *)
Definition device_tenant (t : Tables) (device_id : string) : option string :=
  match device_row t device_id with
  | Some device => Some (DeviceRow.branch_id device)
  | None => None
  end.

(** The tenant whose credential a call reads: the tenant id it is given,
    or for assignAccessPrivileges the tenant of the device. *)
Definition tenant_of (c : Call) (t : Tables) : option string :=
  match c with
  | AssignAccessPrivileges deviceId _ _ _ _ => device_tenant t deviceId
  | _ => call_tenant c
  end.

(** The guards a request has to pass before its operation reads the
    stored credential, and the tenant it then reads: the router's
    required fields; an apiUrl for testDevice, registerPerson and
    searchSites; a person name and a branchId for registerPerson; a
    branchId for createSite; for assignAccessPrivileges the row of the
    device, read without a store failure, whose tenant is the one read.
    [None] when a guard stops the request first. *)
Definition credential_tenant (rd : HikvisionRequest.t) (w : World) : option string :=
  let action := HikvisionRequest.action rd in
  let branchId := branchId_of rd in
  if missing_required_field rd then None
  else if (action =? "testDevice") || (action =? "searchSites") then
    if truthy_str (HikvisionRequest.apiUrl rd) then Some branchId else None
  else if action =? "registerPerson" then
    match HikvisionRequest.personData rd with
    | Some personData =>
        if truthy_str (HikvisionRequest.apiUrl rd)
           && truthy_str (Some (PersonData.name personData))
           && truthy_str (Some branchId)
        then Some branchId else None
    | None => None
    end
  else if action =? "createSite" then
    if truthy_str (Some branchId) then Some branchId else None
  else if action =? "assignAccessPrivileges" then
    let deviceId := or_empty (HikvisionRequest.deviceId rd) in
    if store_fault (env w) (tick w) (SelectDeviceBranch deviceId) then None
    else device_tenant (db w) deviceId
  else None.

(** ** What a run may change *)

(** The tables an operation may write: its own mirror table and nothing
    else. *)
Definition mirror_only (c : Call) (t t' : Tables) : Prop :=
  match c with
  | TestDevice _ | SearchSites _ _ _ => t' = t
  | RegisterPerson _ _ _ => t' = with_persons t (hikvision_persons t')
  | AssignAccessPrivileges _ _ _ _ _ =>
      t' = with_privileges t (hikvision_access_privileges t')
  | CreateSite _ _ => t' = with_settings t (hikvision_api_settings t')
  end.

(** What else holds of every run of a credentialed call: the engine's
    environment is untouched and only the call's mirror table may change;
    at most one vendor call is made, and it carries the bearer token of
    the latest credential stored for the tenant that was read; a call the
    network failed, or whose answer does not parse, ends in a failure
    carrying that fault's message, with the store untouched. *)
Definition credentialed_more (c : Call) (w : World) (r : OpResult) (w' : World)
  : Prop :=
  env w' = env w
  /\ mirror_only c (db w) (db w')
  /\ List.length (vendor_calls (since w w')) <= 1
  /\ (forall request o,
        In (EvFetch request o) (since w w') ->
        exists tenant tok,
          In (EvStore (SelectLatestToken tenant) false) (since w w')
          /\ usable_token (latest_token (db w) tenant) = Some tok
          /\ FetchRequest.authorization request = Some ("Bearer " ++ tok))
  /\ (forall m,
        head_answer (since w w') = Some (NetworkFailure m) ->
        r = Failure m /\ db w' = db w)
  /\ (forall response m,
        head_answer (since w w') = Some (Responded response) ->
        HttpResponse.json response = SyntaxError m ->
        r = Failure m /\ db w' = db w).

(** The row [update_settings_site] leaves in place of [r]. *)
Definition set_site (b : string) (siteId : option string) (n : string) (t : Z)
    (r : SettingsRow.t) : SettingsRow.t :=
  if SettingsRow.branch_id r =? b
  then SettingsRow.mk (SettingsRow.branch_id r) (SettingsRow.api_url r)
         (sent siteId (SettingsRow.site_id r)) (Some n) t
  else r.

(** Events that leave the store alone: reads of the credential, vendor
    calls and console.error lines. *)
Definition is_read_event (ev : Event) : bool :=
  match ev with
  | EvStore (SelectLatestToken _) _ | EvFetch _ _ | EvConsoleError _ => true
  | _ => false
  end.

(* ================================================================== *)
(** ** Scenarios for the examples *)

Module Scenario.

Definition v8_message (f : EngineFault) : string :=
  match f with
  | DestructureUndefined =>
      "Cannot destructure property 'accessToken' of 'responseData.data' as it is undefined."
  | InvalidTimeValue => "Invalid time value"
  | ReadPropertyOfUndefined =>
      "Cannot read properties of undefined (reading 'personId')"
  end.

(** A store that never fails, a clock ticking once per effect. *)
Definition env_with (vendor : nat -> FetchRequest.t -> FetchOutcome)
    (store_fault : nat -> StoreOp -> bool) : Env :=
  mkEnv vendor store_fault (fun n => Z.of_nat n * 1000)%Z v8_message
    (fun _ => NaN) false (fun m => m).

Definition no_fault : nat -> StoreOp -> bool := fun _ _ => false.

Definition empty_tables : Tables := mkTables [] [] [] [] [] [].

Definition reply (b : VendorBody.t) : FetchOutcome :=
  Responded (HttpResponse.mk 200 "OK" "{...}" (Parsed b)).

(** A vendor that answers every call with the bare code [c]. *)
Definition vendor_code (c : jsval) : nat -> FetchRequest.t -> FetchOutcome :=
  fun _ _ => reply (VendorBody.mk c None None).

Definition site_a : Site.t := Site.mk (Some "site-1") (Some "Gym A").

(** A vendor that issues the token ["tok-" ++ appKey], lists [sites] and
    accepts everything else. *)
Definition vendor_ok (code_of_token : jsval) (sites : list Site.t)
  : nat -> FetchRequest.t -> FetchOutcome :=
  fun _ r =>
    match FetchRequest.body r with
    | Some (TokenPayload appKey _) =>
        reply (VendorBody.mk code_of_token None
                 (Some (VendorData.mk (Some ("tok-" ++ appKey)) (Some "refresh")
                          (Some "bearer") (Some 9000000%Z) (Some "https://in.example")
                          None None None)))
    | Some (SiteSearchPayload _ _) =>
        reply (VendorBody.mk (JStr "0") None
                 (Some (VendorData.mk None None None None None None None (Some sites))))
    | _ => reply (VendorBody.mk (JStr "0") None None)
    end.

Definition token_row (branch : string) : TokenRow.t :=
  TokenRow.mk (Some "tok-0") (Some "refresh") (Some "bearer") 3600 7200000
    (Some "https://in.example") branch 10.

(** Tenant "b1" is authenticated, owns device "dev-1" and has its API
    settings stored. *)
Definition tables_b1 : Tables :=
  mkTables [token_row "b1"] [DeviceRow.mk "dev-1" "b1"]
    [SettingsRow.mk "b1" (Some "https://api.example") None None 0]
    [] [] [BranchRow.mk "b1" None None 0].

(** Device "dev-1" is known, but its tenant never authenticated. *)
Definition tables_no_token : Tables :=
  mkTables [] [DeviceRow.mk "dev-1" "b1"]
    [SettingsRow.mk "b1" (Some "https://api.example") None None 0] [] [] [].

Definition world (t : Tables) (vendor : nat -> FetchRequest.t -> FetchOutcome)
    (store_fault : nat -> StoreOp -> bool) : World :=
  mkWorld t [] (env_with vendor store_fault).

Definition request (action : string) : HikvisionRequest.t :=
  HikvisionRequest.mk action None None None None None None None None None None
    None None None.

Definition post (rd : HikvisionRequest.t) : Request.t :=
  Request.mk "POST" (Json rd).

Definition alice : PersonData.t :=
  PersonData.mk (Some "m-1") "Alice" None None None None None.

(** getToken with the secret but no appKey. *)
Definition getToken_without_appKey : HikvisionRequest.t :=
  HikvisionRequest.mk "getToken" (Some "https://api.example") None None
    (Some "secret") None None None None None None (Some "b1") None None.

Definition getToken_request (appKey : string) (branchId : option string)
  : HikvisionRequest.t :=
  HikvisionRequest.mk "getToken" (Some "https://api.example") None (Some appKey)
    (Some "secret") None None None None None None branchId None None.

Definition testDevice_request : HikvisionRequest.t :=
  HikvisionRequest.mk "testDevice" (Some "https://api.example") None None None
    (Some "dev-1") None None None None None (Some "b1") None None.

(** registerPerson with [branchId: ""]. *)
Definition registerPerson_empty_branch : HikvisionRequest.t :=
  HikvisionRequest.mk "registerPerson" (Some "https://api.example") None None
    None None None (Some alice) None None None (Some "") None None.

(** searchSites with neither apiUrl nor branchId. *)
Definition searchSites_bare : HikvisionRequest.t := request "searchSites".

(** A 2xx token body without a [code] member. *)
Definition body_without_code : VendorBody.t :=
  VendorBody.mk JUndefined None
    (Some (VendorData.mk (Some "tok-1") (Some "refresh") (Some "bearer")
             (Some 9000000%Z) (Some "https://in.example") None None None)).

(** A vendor that answers every call with the body [b]. *)
Definition vendor_fixed (b : VendorBody.t) : nat -> FetchRequest.t -> FetchOutcome :=
  fun _ _ => reply b.

(** A store that rejects the privilege upsert of door "2". *)
Definition fail_door_2 : nat -> StoreOp -> bool :=
  fun _ op =>
    match op with
    | UpsertPrivilege row => PrivilegeRow.door_id row =? "2"
    | _ => false
    end.

Definition three_doors : list number := [Int 1; Int 2; Int 3].

Definition w_fresh : World := world empty_tables (vendor_ok (JStr "0") [site_a]) no_fault.
Definition w_b1 (vendor : nat -> FetchRequest.t -> FetchOutcome) : World :=
  world tables_b1 vendor no_fault.



(** Three doors for member "m-1", the store rejecting door "2". *)
Definition assign_call :=
  assignAccessPrivileges "dev-1" "m-1" three_doors None None
    (world tables_b1 (vendor_code (JStr "0")) fail_door_2).

(** testDevice for a tenant that never authenticated. *)
Definition testDevice_unauthenticated :=
  serve (post testDevice_request) (world tables_no_token (vendor_code (JStr "0")) no_fault).

(** The same code-less body answered to getToken and to testDevice. *)
Definition getToken_without_code :=
  getToken "https://api.example" "k1" "secret" "b1"
    (world empty_tables (vendor_fixed body_without_code) no_fault).

Definition testDevice_without_code :=
  perform (TestDevice (Settings.mk "https://api.example" "b1" (Some "dev-1")))
    (w_b1 (vendor_fixed body_without_code)).

(** getToken without a branchId. *)
Definition getToken_default :=
  serve (post (getToken_request "k1" None)) w_fresh.

(** A vendor nobody reaches. *)
Definition vendor_down : nat -> FetchRequest.t -> FetchOutcome :=
  fun _ _ => NetworkFailure "connection refused".

(** A vendor that issues tokens, rejects every site search with
    [rejection] and accepts the rest, naming the person "p-9" and the
    site "site-9". *)
Definition vendor_without_sites (rejection : jsval)
  : nat -> FetchRequest.t -> FetchOutcome :=
  fun _ r =>
    match FetchRequest.body r with
    | Some (TokenPayload appKey _) =>
        reply (VendorBody.mk (JStr "0") None
                 (Some (VendorData.mk (Some ("tok-" ++ appKey)) (Some "refresh")
                          (Some "bearer") (Some 9000000%Z) (Some "https://in.example")
                          None None None)))
    | Some (SiteSearchPayload _ _) => reply (VendorBody.mk rejection None None)
    | _ =>
        reply (VendorBody.mk (JStr "0") None
                 (Some (VendorData.mk None None None None None (Some "p-9")
                          (Some "site-9") None)))
    end.

Definition settings_b1 : Settings.t :=
  Settings.mk "https://api.example" "b1" (Some "dev-1").

(** testDevice for tenant "b1", the vendor accepting. *)
Definition testDevice_b1 :=
  perform (TestDevice settings_b1) (w_b1 (vendor_code (JStr "0"))).

(** testDevice for tenant "b1", the vendor out of reach. *)
Definition testDevice_offline := perform (TestDevice settings_b1) (w_b1 vendor_down).

(** getToken, the vendor out of reach. *)
Definition getToken_offline :=
  getToken "https://api.example" "k1" "secret" "b1"
    (world empty_tables vendor_down no_fault).


(** getToken for tenant "b2" on the store of tenant "b1". *)
Definition getToken_b2 :=
  getToken "https://api.example" "k2" "secret" "b2" (w_b1 (vendor_ok (JStr "0") [site_a])).

(** getToken for tenant "b1", whose branch row exists. *)
Definition getToken_b1 :=
  getToken "https://api.example" "k1" "secret" "b1" (w_b1 (vendor_ok (JStr "0") [site_a])).


(** Alice as an earlier registration stored her, with gender and phone. *)
Definition alice_row : PersonRow.t :=
  PersonRow.mk (Some "p-1") (Some "m-1") "Alice" (Some "female") (Some "555-0100")
    None "active" "b1" "success" 0 0 0.

(** The store of tenant "b1" after earlier runs: a site is associated
    with its branch row and its settings, and Alice is registered. *)
Definition tables_used : Tables :=
  mkTables [token_row "b1"] [DeviceRow.mk "dev-1" "b1"]
    [SettingsRow.mk "b1" (Some "https://api.example") (Some "old-site")
       (Some "Old Gym") 0]
    [alice_row] [] [BranchRow.mk "b1" (Some "old-site") (Some "Old Gym") 0].

(** A store that refuses the update of the branch rows. *)
Definition refuse_branch_update : nat -> StoreOp -> bool :=
  fun _ op =>
    match op with
    | UpdateBranchSite _ _ _ _ => true
    | _ => false
    end.

(** getToken for tenant "b1", the store refusing the branch update. *)
Definition getToken_update_refused :=
  getToken "https://api.example" "k1" "secret" "b1"
    (world tables_used (vendor_ok (JStr "0") [site_a]) refuse_branch_update).

(** Alice registered again, the request carrying her name only. *)
Definition registerPerson_again :=
  registerPerson settings_b1 alice "b1"
    (world tables_used (vendor_without_sites (JStr "0")) no_fault).

(** createSite, the vendor accepting without naming the new site. *)
Definition createSite_unnamed :=
  createSite "Gym B" "b1" (world tables_used (vendor_code (JStr "0")) no_fault).

End Scenario.

(* ================================================================== *)
(** * Events mirrored from the vendor's webhook

    [handleEventWebhook] and [getEvents] of the same file.  They are not
    reached from the action switch; they talk to the store only, through
    one request each, whose answer is an argument of the model. *)

Module Events.

(** The webhook body, through the members the code reads (each a string,
    or absent). *)
Record Webhook := mkWebhook {
  eventType : option string;
  eventTime : option string;
  doorId : option string;
  doorName : option string;
  personId : option string;
  personName : option string;
  deviceId : option string;
  deviceName : option string;
  branchId : option string;
  status : option string
}.

(** The columns [handleEventWebhook] inserts. *)
Record EventData := mkEventData {
  event_type : string;
  event_time : string;
  door_id : option string;
  door_name : option string;
  person_id : option string;
  person_name : option string;
  device_id : option string;
  device_name : option string;
  branch_id : string;
  row_status : string;
  raw_data : Webhook
}.

(** A row of hikvision_events: the inserted columns and the id the store
    gave it. *)
Record EventRow := mkEventRow { id : Z; data : EventData }.

(** The [error] of a store answer.  Whether it is an [Error] instance
    depends on the client library's version. *)
Record StoreError := mkStoreError { message : string; is_Error : bool }.

(** What [req.json()] gives. *)
Inductive WebhookBody :=
| BadJson (message : string)
| Delivered (webhookData : Webhook).

(** The store's answer to the insert. *)
Inductive InsertAnswer :=
| Inserted (id : Z)
| InsertRefused (error : StoreError).

Inductive Effect :=
| Insert (row : EventData) (answer : InsertAnswer)
| Select (branch_id : string) (person_id : option string) (limit : nat)
    (error : option StoreError)
| ConsoleError (label : string).

(** The event table and what was done so far, newest first. *)
Record Store := mkStore {
  hikvision_events : list EventRow;
  effects : list Effect
}.

Definition did (ef : Effect) (st : Store) : Store :=
  mkStore (hikvision_events st) (ef :: effects st).

Inductive WebhookResult :=
| Rejected                    (* { success: false, error: 'Invalid webhook data' } *)
| Processed                   (* { success: true, message: 'Event processed successfully' } *)
| WebhookFailed (error : string).  (* { success: false, error } *)

(** [error instanceof Error ? error.message : fallback] on a store error. *)
Definition caught_message (e : StoreError) (fallback : string) : string :=
  if is_Error e then message e else fallback.

(** The object passed to [.insert(...)]. *)
Definition event_of (webhookData : Webhook) : EventData :=
  mkEventData (or_empty (eventType webhookData)) (or_empty (eventTime webhookData))
    (doorId webhookData) (doorName webhookData)
    (personId webhookData) (personName webhookData)
    (deviceId webhookData) (deviceName webhookData)
    (or_str (branchId webhookData) "unknown")
    (or_str (status webhookData) "success")
    webhookData.

Definition handleEventWebhook (body : WebhookBody) (answer : InsertAnswer)
    (st : Store) : WebhookResult * Store :=
  match body with
  | BadJson m =>
      (WebhookFailed m, did (ConsoleError "Error handling webhook:") st)
  | Delivered webhookData =>
      if negb (truthy_str (eventType webhookData))
         || negb (truthy_str (eventTime webhookData))
      then (Rejected, st)
      else
        let row := event_of webhookData in
        match answer with
        | InsertRefused error =>
            (WebhookFailed (caught_message error "Unknown error handling webhook"),
             did (ConsoleError "Error handling webhook:")
               (did (Insert row answer) st))
        | Inserted id =>
            (Processed,
             mkStore (hikvision_events st ++ [mkEventRow id row])%list
               (Insert row answer :: effects st))
        end
  end.

(** An element of the [events] array [getEvents] returns. *)
Record EventView := mkEventView {
  v_id : Z;
  v_eventTime : string;
  v_eventType : string;
  v_doorId : option string;
  v_doorName : option string;
  v_personId : option string;
  v_personName : option string;
  v_status : string
}.

Definition view (event : EventRow) : EventView :=
  let d := data event in
  mkEventView (id event) (event_time d) (event_type d) (door_id d) (door_name d)
    (person_id d) (person_name d) (row_status d).

Inductive EventsResult :=
| EventsSuccess (events : list EventView)
| EventsFailed (error : string).

(** *** The query

    [.eq('branch_id', b).order('event_time', { ascending: false })
     .limit(n)], with [.eq('person_id', p)] added when a person id is
    given.  The builder only collects the parameters of one request, so
    the person filter applies before the limit although it is added
    after it: the rows matching both filters, newest first, cut at [n].
    [instant] is how the store reads an event time as an instant; rows of
    one instant keep their table order. *)

Fixpoint insert_newest (instant : string -> Z) (r : EventRow) (l : list EventRow)
  : list EventRow :=
  match l with
  | [] => [r]
  | x :: rest =>
      if (instant (event_time (data x)) <? instant (event_time (data r)))%Z
      then r :: x :: rest
      else x :: insert_newest instant r rest
  end.

Fixpoint newest_first (instant : string -> Z) (l : list EventRow) : list EventRow :=
  match l with
  | [] => []
  | r :: rest => insert_newest instant r (newest_first instant rest)
  end.

Definition matches (branchId : string) (personId : option string) (r : EventRow)
  : bool :=
  (branch_id (data r) =? branchId)
  && match if_truthy personId with
     | Some p => match person_id (data r) with
                 | Some q => q =? p
                 | None => false
                 end
     | None => true
     end.

Definition select_events (instant : string -> Z) (branchId : string)
    (personId : option string) (limit : nat) (rows : list EventRow)
  : list EventRow :=
  firstn limit (newest_first instant (filter (matches branchId personId) rows)).

(** [limit: number = 10] *)
Definition limit_of (limit : option nat) : nat :=
  match limit with Some n => n | None => 10 end.

Definition getEvents (instant : string -> Z) (settings : Settings.t)
    (branchId : string) (personId : option string) (limit : option nat)
    (fault : option StoreError) (st : Store) : EventsResult * Store :=
  let st' := did (Select branchId (if_truthy personId) (limit_of limit) fault) st in
  match fault with
  | Some error =>
      (EventsFailed (caught_message error "Unknown error getting events"),
       did (ConsoleError "Error getting events:") st')
  | None =>
      (EventsSuccess
         (map view (select_events instant branchId personId (limit_of limit)
                      (hikvision_events st))),
       st')
  end.

(** [x] is at least as recent as [y]. *)
Definition not_older (instant : string -> Z) (x y : EventRow) : Prop :=
  (instant (event_time (data y)) <= instant (event_time (data x)))%Z.

(** The rows an effect list asked the store to insert, newest first. *)
Fixpoint insert_requests (efs : list Effect) : list EventData :=
  match efs with
  | [] => []
  | Insert row _ :: rest => row :: insert_requests rest
  | _ :: rest => insert_requests rest
  end.

(** *** A delivery used in the examples *)

(** A door event of tenant "b1". *)
Definition door_opened : Webhook :=
  mkWebhook (Some "acs.event.door") (Some "2024-05-01T10:00:00Z") (Some "1")
    (Some "Front door") (Some "p-9") (Some "Alice") (Some "dev-1") (Some "Lobby")
    (Some "b1") None.

Definition empty_store : Store := mkStore [] [].

(** A reading of event times that is enough for one event. *)
Definition any_instant : string -> Z := fun _ => 0%Z.

End Events.

(* ================================================================== *)
(** * Storage service (src/services/utils/storageService.ts)

    The dashboard's helpers over the Supabase storage API.  The answers
    of the API are taken from [Api], indexed by the number of effects so
    far; every call and every toast is recorded, newest first. *)

Module Storage.

Definition requiredBuckets : list string :=
  ["avatars"; "documents"; "products"; "equipment"; "gallery"; "trainers";
   "workouts"].

(** What [supabase.auth.getUser()] gives. *)
Inductive UserAnswer :=
| SignedIn
| NoUser
| GetUserThrew.

(** What [.list(...)] gives: [{ error: null }], [{ error }], or a throw. *)
Inductive ListAnswer :=
| Listed
| ListError
| ListThrew.

(** What [.upload(...)] and [.remove(...)] give; a failure carries the
    [message] of the error object, when it has one. *)
Inductive UploadAnswer :=
| Uploaded (path : string)
| UploadError (message : option string)
| UploadThrew (message : option string).

Inductive RemoveAnswer :=
| Removed
| RemoveError (message : option string)
| RemoveThrew (message : option string).

Record File := mkFile { type : string; content : string }.

(** The options object passed to [.list]. *)
Inductive ListOptions :=
| NoOptions                (* .list() *)
| FirstOnly.               (* .list('', { limit: 1, offset: 0 }) *)

Inductive Effect :=
| GetUser (answer : UserAnswer)
| ListFiles (bucket : string) (options : ListOptions) (answer : ListAnswer)
| Upload (bucket path : string) (file : File) (cacheControl : string)
    (upsert : bool) (contentType : string) (answer : UploadAnswer)
| GetPublicUrl (bucket path : string)
| Remove (bucket : string) (paths : list string) (answer : RemoveAnswer)
| Now
| Toast (message description : string) (duration : Z)
| ToastError (message : string).

Record Api := mkApi {
  getUser : nat -> UserAnswer;
  list_files : nat -> string -> ListOptions -> ListAnswer;
  upload : nat -> string -> string -> File -> UploadAnswer;
  remove : nat -> string -> list string -> RemoveAnswer;
  publicUrl : string -> string -> string;
  toISOString : nat -> string
}.

Definition Log := list Effect.

Definition listed (a : ListAnswer) : bool :=
  match a with Listed => true | _ => false end.

Definition bucketExists (api : Api) (name : string) (log : Log) : bool * Log :=
  let a := list_files api (List.length log) name NoOptions in
  (listed a, ListFiles name NoOptions a :: log).

Record BucketMetadata := mkBucketMetadata {
  name : string;
  id : string;
  public : bool;
  createdAt : string
}.

Definition getBucketMetadata (api : Api) (name : string) (log : Log)
  : option BucketMetadata * Log :=
  let a := list_files api (List.length log) name FirstOnly in
  let log1 := ListFiles name FirstOnly a :: log in
  if listed a
  then (Some (mkBucketMetadata name name true (toISOString api (List.length log1))),
        Now :: log1)
  else (None, log1).

Definition not_accessible (bucket : string) : string :=
  "Storage bucket " ++ bucket ++ " not accessible. Contact administrator.".

(** The body of [for (const bucket of requiredBuckets)]. *)
Definition check_bucket (api : Api) (bucket : string) (log : Log) : Log :=
  let (exists_, log1) := bucketExists api bucket log in
  if negb exists_
  then Toast (not_accessible bucket)
         "Some file upload features may not work correctly." 5000 :: log1
  else log1.

Definition check_buckets (api : Api) (buckets : list string) (log : Log) : Log :=
  fold_left (fun log bucket => check_bucket api bucket log) buckets log.

Definition ensureStorageBucketsExist (api : Api) (log : Log) : Log :=
  let a := getUser api (List.length log) in
  let log1 := GetUser a :: log in
  match a with
  | SignedIn => check_buckets api requiredBuckets log1
  | NoUser => log1
  | GetUserThrew => log1
  end.

(** [`Error uploading file: ${error.message || 'Unknown error'}`] *)
Definition upload_failed (message : option string) : string :=
  "Error uploading file: " ++ or_str message "Unknown error".

Definition uploadFile (api : Api) (bucketName filePath : string) (file : File)
    (log : Log) : option string * Log :=
  let (bucketMetadata, log1) := getBucketMetadata api bucketName log in
  match bucketMetadata with
  | None =>
      (None,
       ToastError ("Storage bucket " ++ bucketName
                   ++ " not found. Please contact admin.") :: log1)
  | Some _ =>
      let a := upload api (List.length log1) bucketName filePath file in
      let log2 := Upload bucketName filePath file "3600" true (type file) a :: log1 in
      match a with
      | Uploaded path =>
          (Some (publicUrl api bucketName path),
           GetPublicUrl bucketName path :: log2)
      | UploadError message => (None, ToastError (upload_failed message) :: log2)
      | UploadThrew message => (None, ToastError (upload_failed message) :: log2)
      end
  end.

(** [`Error deleting file: ${error.message || 'Unknown error'}`] *)
Definition delete_failed (message : option string) : string :=
  "Error deleting file: " ++ or_str message "Unknown error".

Definition deleteFile (api : Api) (bucketName filePath : string) (log : Log)
  : bool * Log :=
  let a := remove api (List.length log) bucketName [filePath] in
  let log1 := Remove bucketName [filePath] a :: log in
  match a with
  | Removed => (true, log1)
  | RemoveError message => (false, ToastError (delete_failed message) :: log1)
  | RemoveThrew message => (false, ToastError (delete_failed message) :: log1)
  end.

(** *** Reading a log (oldest first) *)

(** The buckets whose files were listed, each with whether it answered. *)
Fixpoint listings (l : list Effect) : list (string * bool) :=
  match l with
  | [] => []
  | ListFiles bucket _ a :: rest => (bucket, listed a) :: listings rest
  | _ :: rest => listings rest
  end.

(** The messages shown with [toast(...)]. *)
Fixpoint toasts (l : list Effect) : list string :=
  match l with
  | [] => []
  | Toast message _ _ :: rest => message :: toasts rest
  | _ :: rest => toasts rest
  end.

(** The messages shown with [toast.error(...)]. *)
Fixpoint error_toasts (l : list Effect) : list string :=
  match l with
  | [] => []
  | ToastError message :: rest => message :: error_toasts rest
  | _ :: rest => error_toasts rest
  end.

(** The buckets an upload or a removal was sent to. *)
Fixpoint written_buckets (l : list Effect) : list string :=
  match l with
  | [] => []
  | Upload bucket _ _ _ _ _ _ :: rest => bucket :: written_buckets rest
  | Remove bucket _ _ :: rest => bucket :: written_buckets rest
  | _ :: rest => written_buckets rest
  end.

(** The buckets that did not answer, in the order they were asked. *)
Definition inaccessible (l : list (string * bool)) : list string :=
  map fst (filter (fun p => negb (snd p)) l).

End Storage.

(* ================================================================== *)
(** * Trainer sidebar (src/layouts/AdminLayout.tsx, TrainerSidebarContent)

    The state of the component is the list of expanded section names;
    [toggleSection] maps the list of one render to the list of the
    next. *)

Module TrainerSidebar.

(** [useState<string[]>(['Dashboard', 'Training'])] *)
Definition initialExpandedSections : list string := ["Dashboard"; "Training"].

(** [expandedSections.includes(sectionName)] *)
Definition includes (expandedSections : list string) (sectionName : string) : bool :=
  existsb (String.eqb sectionName) expandedSections.

Definition toggleSection (expandedSections : list string) (sectionName : string)
  : list string :=
  if includes expandedSections sectionName
  then filter (fun name => negb (name =? sectionName)) expandedSections
  else (expandedSections ++ [sectionName])%list.

(** The list after the sections [clicked] were toggled, one render each. *)
Definition after_clicks (expandedSections : list string) (clicked : list string)
  : list string :=
  fold_left toggleSection clicked expandedSections.

Section Navigation.

(** The entries of [trainerNavSections] (data/trainerNavigation); only
    their [name] is read here. *)
Variable NavSection : Type.
Variable name : NavSection -> string.

(** [userRole === 'trainer' ? trainerNavSections
      : trainerNavSections.filter(section => section.name !== 'Training')] *)
Definition availableSections (userRole : option string)
    (trainerNavSections : list NavSection) : list NavSection :=
  if match userRole with Some role => role =? "trainer" | None => false end
  then trainerNavSections
  else filter (fun section => negb (name section =? "Training")) trainerNavSections.

End Navigation.

End TrainerSidebar.


(* ================================================================== *)
(** * Properties *)

(** ** The error catalogue *)

Lemma append_empty_r (s : string) : s ++ "" = s.
Proof. induction s as [|c s IH]; simpl; [reflexivity|now rewrite IH]. Qed.

(** X23.  Every entry of the catalogue is found under its own code: for a
    code listed in HIKVISION_ERRORS the lookup returns the message and
    status listed with it (no entry is shadowed by another). *)
Lemma getHikvisionError_catalogued (code : string) (e : HikvisionError) :
  In (code, e) HIKVISION_ERRORS ->
  getHikvisionError (JStr code) = ErrorEntry e.
Proof.
  unfold HIKVISION_ERRORS. simpl.
  intros H.
  repeat (destruct H as [H|H]; [injection H as <- <-; reflexivity|]).
  contradiction.
Qed.

(** X24.  A code that is neither catalogued nor the name of a member
    inherited from Object.prototype yields the fallback: the message
    "Hikvision error: " followed by the code, and status 400. *)
Lemma getHikvisionError_fallback (code : string) :
  own_get code HIKVISION_ERRORS = None ->
  mem_str code ObjectPrototype_keys = false ->
  getHikvisionError (JStr code)
    = ErrorEntry (mkError ("Hikvision error: " ++ code) 400)
  /\ Contains code ("Hikvision error: " ++ code).
Proof.
  intros Hown Hproto. unfold getHikvisionError, get. simpl to_string.
  rewrite Hown, Hproto. split; [reflexivity|].
  exists "Hikvision error: ", "". now rewrite append_empty_r.
Qed.

(** C3 (defect).  The lookup is meant to fall back on a message embedding
    the code and status 400 for every string outside the catalogue, but
    the catalogue is a plain object literal read with
    [HIKVISION_ERRORS[errorCode] || defaultError]: for the uncatalogued
    code "constructor" the bracket access finds the member inherited from
    Object.prototype, which is truthy, so that member is returned instead
    of the fallback, and it has neither a message nor a status. *)
Theorem getHikvisionError_inherited_key :
  own_get "constructor" HIKVISION_ERRORS = None
  /\ getHikvisionError (JStr "constructor") = PrototypeMember "constructor"
  /\ result_message (getHikvisionError (JStr "constructor")) = None
  /\ result_status (getHikvisionError (JStr "constructor")) = None.
Proof. repeat split. Qed.

(* ================================================================== *)
(** ** Reasoning about runs *)

Lemma since_prefix (w w' : World) (pre : list Event) :
  trace w' = (pre ++ trace w)%list -> since w w' = pre.
Proof.
  intros H. unfold since. rewrite H.
  replace (List.length (pre ++ trace w) - List.length (trace w))
    with (List.length pre) by (rewrite length_app; lia).
  clear H. induction pre as [|e pre IH]; simpl.
  - reflexivity.
  - now rewrite IH.
Qed.

Lemma since_refl (w : World) : since w w = [].
Proof. apply since_prefix. reflexivity. Qed.

Lemma bind_inv {A B : Type} (m : M A) (k : A -> M B) w x w' :
  bind m k w = (x, w') ->
  (exists e, m w = (inl e, w') /\ x = inl e) \/
  (exists a w1, m w = (inr a, w1) /\ k a w1 = (x, w')).
Proof.
  unfold bind. destruct (m w) as [[e|a] w1]; intros H.
  - inversion H; subst. left; eauto.
  - right; eauto.
Qed.

Lemma try_catch_inv {A : Type} (body : M A) label h w (a : A) w' :
  try_catch body label h w = (a, w') ->
  body w = (inr a, w') \/
  (exists e w1, body w = (inl e, w1) /\ a = h e
                /\ w' = emit (EvConsoleError label) w1).
Proof.
  unfold try_catch.
  destruct (body w) as [[e|a0] w1]; intros H; inversion H; subst; eauto 6.
Qed.

Lemma await_inv {A : Type} (f : World -> A * World) w x w' :
  await f w = (x, w') -> exists a, f w = (a, w') /\ x = inr a.
Proof.
  unfold await. destruct (f w) as [a w1]. intros H; inversion H; subst; eauto.
Qed.

Lemma fetch_inv r w x w' :
  fetch r w = (x, w') ->
  exists o, w' = emit (EvFetch r o) w /\
    x = match o with
        | NetworkFailure m => inl (JsError m)
        | Responded response => inr response
        end.
Proof.
  unfold fetch. intros H. exists (vendor (env w) (tick w) r).
  destruct (vendor (env w) (tick w) r); inversion H; subst; auto.
Qed.

Lemma store_read_inv {A : Type} op (q : Tables -> option A) w x w' :
  store_read op q w = (x, w') ->
  exists res, x = inr res /\
    w' = emit (EvStore op (match res with None => true | Some _ => false end)) w /\
    (res = None \/ res = q (db w)).
Proof.
  unfold store_read. intros H. inversion H; subst; clear H.
  eexists; split; [reflexivity|split; [reflexivity|]].
  destruct (store_fault _ _ _); auto.
Qed.

Lemma store_write_inv op f w x w' :
  store_write op f w = (x, w') ->
  exists err, x = inr err /\
    w' = mkWorld (if err then db w else f (db w)) (EvStore op err :: trace w) (env w).
Proof.
  unfold store_write. intros H. inversion H; subst; clear H. eauto.
Qed.

(** Inversion of a run [m w = (x, w')] along the program text. *)
Ltac minv H :=
  cbn beta iota zeta in H;
  lazymatch type of H with
  | bind _ _ _ = _ =>
      let e := fresh "e" in let a := fresh "a" in let w1 := fresh "w" in
      let H1 := fresh "H" in let H2 := fresh "H" in
      apply bind_inv in H;
      destruct H as [(e & H1 & H2) | (a & w1 & H1 & H2)];
      [ minv H1; try subst | minv H1; try (minv H2) ]
  | ret _ _ = _ => unfold ret in H; inversion H; subst; clear H
  | throw _ _ = _ => unfold throw in H; inversion H; subst; clear H
  | fault _ _ = _ => unfold fault in H; inversion H; subst; clear H
  | now _ = _ => unfold now in H; inversion H; subst; clear H
  | engine _ = _ => unfold engine in H; inversion H; subst; clear H
  | console_error _ _ = _ => unfold console_error in H; inversion H; subst; clear H
  | response_json _ _ = _ => unfold response_json in H; minv H
  | await _ _ = _ =>
      let r := fresh "r" in let E := fresh "E" in
      apply await_inv in H; destruct H as (r & H & E);
      try (inversion E; subst; clear E)
  | fetch _ _ = _ =>
      let o := fresh "o" in let Hw := fresh "Hw" in let Hx := fresh "Hx" in
      apply fetch_inv in H; destruct H as (o & Hw & Hx);
      destruct o; inversion Hx; subst; clear Hx
  | select_latest_token _ _ = _ => unfold select_latest_token in H; minv H
  | select_device_branch _ _ = _ => unfold select_device_branch in H; minv H
  | select_api_url _ _ = _ => unfold select_api_url in H; minv H
  | upsert_token _ _ = _ => unfold upsert_token in H; minv H
  | upsert_person _ _ = _ => unfold upsert_person in H; minv H
  | upsert_privilege _ _ = _ => unfold upsert_privilege in H; minv H
  | update_branch_site _ _ _ _ _ = _ => unfold update_branch_site in H; minv H
  | update_settings_site _ _ _ _ _ = _ => unfold update_settings_site in H; minv H
  | store_read _ _ _ = _ =>
      let res := fresh "res" in let Hx := fresh "Hx" in
      let Hw := fresh "Hw" in let Hr := fresh "Hr" in
      apply store_read_inv in H; destruct H as (res & Hx & Hw & Hr);
      inversion Hx; subst; clear Hx
  | store_write _ _ _ = _ =>
      let err := fresh "err" in let Hx := fresh "Hx" in let Hw := fresh "Hw" in
      apply store_write_inv in H; destruct H as (err & Hx & Hw);
      inversion Hx; subst; clear Hx
  | try_catch _ _ _ _ = _ =>
      let e := fresh "e" in let w1 := fresh "w" in
      apply try_catch_inv in H;
      destruct H as [H | (e & w1 & H & ? & ?)]; [minv H | minv H; try subst]
  | (if ?c then _ else _) _ = _ =>
      let E := fresh "E" in destruct c eqn:E; minv H
  | (match ?x with _ => _ end) _ = _ =>
      let E := fresh "E" in destruct x eqn:E; minv H
  | _ => idtac
  end.

(** Runs that end in the wrong kind of outcome. *)
Ltac absurd_run :=
  match goal with
  | H : inr _ = inl _ |- _ => discriminate H
  | H : inl _ = inr _ |- _ => discriminate H
  | H : (inr _, _) = (inl _, _) |- _ => discriminate H
  | H : (inl _, _) = (inr _, _) |- _ => discriminate H
  end.

(** The prefix [p] with [l = p ++ t]. *)
Ltac prefix_of l t :=
  lazymatch l with
  | t => constr:(@nil Event)
  | ?e :: ?l' => let p := prefix_of l' t in constr:(e :: p)
  | (?a ++ ?l')%list => let p := prefix_of l' t in constr:((a ++ p)%list)
  end.

(** Computes [since w w'] when [w'] is given by the effects added to [w]. *)
Ltac since_tac :=
  repeat match goal with
  | |- context [since ?w ?w'] =>
      let l := eval cbn [trace emit] in (trace w') in
      let p := prefix_of l (trace w) in
      rewrite (since_prefix w w' p)
        by (cbn [trace emit]; rewrite <- ?app_assoc; reflexivity)
  end.

(* ================================================================== *)
(** ** The per-door mirror loop *)

Lemma privilege_upserts_app (l1 l2 : list Event) :
  privilege_upserts (l1 ++ l2) = (privilege_upserts l1 ++ privilege_upserts l2)%list.
Proof.
  induction l1 as [|ev l1 IH]; simpl; [reflexivity|].
  destruct ev as [| [] |]; simpl; now rewrite ?IH.
Qed.

Lemma head_answer_app (l1 l2 : list Event) :
  vendor_calls l1 = [] ->
  head_answer (l1 ++ l2) = head_answer l2.
Proof.
  induction l1 as [|ev l1 IH]; simpl; [reflexivity|].
  destruct ev; simpl; auto; discriminate.
Qed.

Lemma vendor_calls_app (l1 l2 : list Event) :
  vendor_calls (l1 ++ l2) = (vendor_calls l1 ++ vendor_calls l2)%list.
Proof. apply filter_app. Qed.

Lemma logged_app (label : string) (l1 l2 : list Event) :
  logged label (l1 ++ l2) = logged label l1 + logged label l2.
Proof. unfold logged. now rewrite filter_app, length_app. Qed.

Lemma has_privilege_upsert (q d : string) (row : PrivilegeRow.t)
    (rows : list PrivilegeRow.t) :
  has_privilege q d rows = true
  \/ (PrivilegeRow.person_id row = q /\ PrivilegeRow.door_id row = d) ->
  has_privilege q d
    (upsert_with (fun r => same_privilege r row) update_privilege row rows) = true.
Proof.
  unfold has_privilege.
  induction rows as [|r rows IH]; simpl.
  - intros [H|[<- <-]]; [discriminate|]. now rewrite !String.eqb_refl.
  - intros H. destruct (same_privilege r row) eqn:E; simpl.
    + unfold same_privilege in E. apply andb_true_iff in E as [E1 E2].
      apply String.eqb_eq in E1, E2. rewrite <- E1, <- E2.
      destruct H as [H|[<- <-]].
      * apply orb_true_iff in H as [H| ->]; [now rewrite H | apply orb_true_r].
      * now rewrite E1, E2, !String.eqb_refl.
    + destruct H as [H|H].
      * apply orb_true_iff in H as [-> | H]; [reflexivity|].
        rewrite IH by auto. apply orb_true_r.
      * rewrite IH by auto. apply orb_true_r.
Qed.

(** What the loop over the door list does, whatever the store answers:
    it never throws, issues no vendor call and touches no credential;
    it attempts one upsert per door, in order, keyed on the person and the
    door; each failed upsert costs one console.error line and nothing
    else; and every key that was in the table, or that an upsert
    succeeded on, is in the table afterwards. *)
Lemma for_of_store_privilege (personId : string) (vs ve : option string)
    (doors : list number) :
  forall w x w',
    for_of doors (store_privilege personId vs ve) w = (x, w') ->
    x = inr tt
    /\ hikvision_tokens (db w') = hikvision_tokens (db w)
    /\ exists evs,
         trace w' = (evs ++ trace w)%list
         /\ vendor_calls evs = []
         /\ Forall (fun ev => token_key ev = None) evs
         /\ map fst (privilege_upserts (rev evs))
            = map (fun d => (personId, number_toString d)) doors
         /\ logged "Error storing access privilege:" evs
            = List.length (filter snd (privilege_upserts evs))
         /\ (forall q d,
               has_privilege q d (hikvision_access_privileges (db w)) = true
               \/ In (q, d, false) (privilege_upserts evs) ->
               has_privilege q d (hikvision_access_privileges (db w')) = true).
Proof.
  induction doors as [|door doors IH]; intros w x w' H.
  - simpl in H. minv H. split; [reflexivity|]. split; [reflexivity|].
    exists []. repeat split; auto. intros q d [Hq|[]]; exact Hq.
  - simpl in H. apply bind_inv in H.
    destruct H as [(e & H & _) | (a & w1 & H1 & H2)].
    + unfold store_privilege in H. minv H; absurd_run.
    + apply IH in H2. destruct H2 as (-> & Htok & evs & Htr & Hv & Hk & Hup & Hlog & Hrows).
      split; [reflexivity|].
      unfold store_privilege in H1. minv H1; try absurd_run.
      * (* the upsert failed: one console.error line *)
        split; [exact Htok|].
        eexists (evs ++ [_; _])%list. cbn [trace emit db] in *.
        split; [rewrite Htr, <- app_assoc; reflexivity|].
        split; [rewrite vendor_calls_app, Hv; reflexivity|].
        split; [apply Forall_app; split; [exact Hk|repeat constructor]|].
        split; [rewrite rev_app_distr; cbn; now rewrite Hup|].
        split; [rewrite logged_app, privilege_upserts_app, filter_app, length_app, Hlog;
                cbn; reflexivity|].
        intros q d [Hq|Hq]; apply Hrows; [now left|].
        rewrite privilege_upserts_app in Hq. apply in_app_or in Hq as [Hq|Hq]; [now right|].
        cbn in Hq. destruct Hq as [Hq|[]]. discriminate.
      * (* the upsert succeeded *)
        split; [exact Htok|].
        eexists (evs ++ [_])%list. cbn [trace emit db hikvision_access_privileges with_privileges] in *.
        split; [rewrite Htr, <- app_assoc; reflexivity|].
        split; [rewrite vendor_calls_app, Hv; reflexivity|].
        split; [apply Forall_app; split; [exact Hk|repeat constructor]|].
        split; [rewrite rev_app_distr; cbn; now rewrite Hup|].
        split; [rewrite logged_app, privilege_upserts_app, filter_app, length_app, Hlog;
                cbn; reflexivity|].
        intros q d Hq. apply Hrows.
        rewrite privilege_upserts_app in Hq.
        destruct Hq as [Hq|Hq].
        -- left. apply has_privilege_upsert. now left.
        -- apply in_app_or in Hq as [Hq|Hq]; [now right|].
           left. apply has_privilege_upsert. right.
           cbn in Hq. destruct Hq as [Hq|[]]. inversion Hq; subst. split; reflexivity.
Qed.

(** ** The credentialed operations *)

Lemma no_usable_token (t : Tables) (tenant : string) (res : option TokenRow.t)
    (tok : string) :
  res = None \/ res = latest_token t tenant ->
  usable_token res = Some tok ->
  tokens_of tenant (hikvision_tokens t) = [] -> False.
Proof.
  intros [->| ->] Hu He; [discriminate|].
  unfold latest_token in Hu. rewrite He in Hu. discriminate.
Qed.

Ltac solve_tokens_unchanged :=
  cbn [db emit]; repeat match goal with
  | |- context [if ?e then _ else _] => destruct e
  end; cbn; congruence.

Ltac solve_no_token :=
  let tenant := fresh "tenant" in let err := fresh "err" in
  let Hin := fresh "Hin" in let He := fresh "He" in
  intros tenant err Hin He; try reflexivity; exfalso;
  cbn [In] in Hin;
  repeat (destruct Hin as [Hin|Hin]; [try discriminate Hin|]);
  try contradiction;
  try (inversion Hin; subst; clear Hin;
       eapply no_usable_token; cbn [db emit] in *; eauto).

Ltac solve_code_failure :=
  let b := fresh "b" in let Ha := fresh "Ha" in let Hc := fresh "Hc" in
  let resp := fresh "resp" in let Hj := fresh "Hj" in
  intros b Ha Hc; cbn [head_answer] in Ha;
  destruct Ha as (resp & Ha & Hj);
  try discriminate Ha;
  inversion Ha; subst; clear Ha;
  repeat match goal with
  | E : HttpResponse.json _ = _ |- _ =>
      tryif constr_eq E Hj then fail
      else (rewrite Hj in E; inversion E; subst; clear E)
  end;
  repeat match goal with
  | E : negb (strict_eq_str _ _) = _ |- _ => rewrite Hc in E; try discriminate E; clear E
  end;
  unfold is_code_failure; auto.

Ltac solve_token_keys :=
  let tenant := fresh "tenant" in let Ht := fresh "Ht" in
  intros tenant Ht; cbn [call_tenant] in Ht; try discriminate Ht;
  inversion Ht; subst; clear Ht;
  repeat constructor; cbn [token_key]; intros; congruence.

Ltac run_cases :=
  unfold credentialed_post; since_tac;
  (split; [reflexivity|]);
  (split; [solve_tokens_unchanged|]);
  (split; [solve_no_token|]);
  (split; [solve_code_failure|]);
  solve_token_keys.

Lemma testDevice_run s w r w' :
  testDevice s w = (r, w') -> credentialed_post (TestDevice s) w r w'.
Proof.
  intros H. unfold testDevice in H. minv H; try absurd_run.
  all: run_cases.
Qed.

Lemma searchSites_run s n i w r w' :
  searchSites s n i w = (r, w') -> credentialed_post (SearchSites s n i) w r w'.
Proof.
  intros H. unfold searchSites in H. minv H; try absurd_run.
  all: run_cases.
Qed.

Lemma registerPerson_run s p b w r w' :
  registerPerson s p b w = (r, w') -> credentialed_post (RegisterPerson s p b) w r w'.
Proof.
  intros H. unfold registerPerson in H. minv H; try absurd_run.
  all: run_cases.
Qed.

Lemma createSite_run n b w r w' :
  createSite n b w = (r, w') -> credentialed_post (CreateSite n b) w r w'.
Proof.
  intros H. unfold createSite in H. minv H; try absurd_run.
  all: run_cases.
Qed.

Lemma assignAccessPrivileges_run d p doors vs ve w r w' :
  assignAccessPrivileges d p doors vs ve w = (r, w') ->
  credentialed_post (AssignAccessPrivileges d p doors vs ve) w r w'.
Proof.
  intros H. unfold assignAccessPrivileges in H. minv H; try absurd_run.
  all: try solve [run_cases].
  - (* the vendor accepted: the loop ran *)
    apply for_of_store_privilege in H.
    destruct H as (_ & Htok & evs & Htr & Hv & Hk & _).
    unfold credentialed_post.
    erewrite (since_prefix w w' (evs ++ [_; _; _; _]))
      by (rewrite Htr; cbn [trace emit]; rewrite <- app_assoc; reflexivity).
    split; [rewrite Htr; cbn [trace emit]; rewrite <- app_assoc; reflexivity|].
    split; [rewrite Htok; reflexivity|].
    split.
    { intros tenant err Hin He. exfalso.
      apply in_app_or in Hin as [Hin|Hin].
      - rewrite Forall_forall in Hk. apply Hk in Hin. discriminate Hin.
      - cbn [In] in Hin.
        repeat (destruct Hin as [Hin|Hin]; [try discriminate Hin|]);
          try contradiction.
        inversion Hin; subst; clear Hin.
        eapply no_usable_token; cbn [db emit] in *; eauto. }
    split.
    { intros b (resp & Ha & Hj) Hc.
      rewrite head_answer_app in Ha by exact Hv.
      cbn [head_answer] in Ha. inversion Ha; subst; clear Ha.
      rewrite Hj in E1. inversion E1; subst. rewrite Hc in E2. discriminate E2. }
    intros tenant Ht. discriminate Ht.
  - apply for_of_store_privilege in H. destruct H as (H & _). discriminate H.
Qed.


Lemma perform_run (c : Call) w r w' :
  perform c w = (r, w') -> credentialed_post c w r w'.
Proof.
  destruct c; cbn [perform].
  - apply testDevice_run.
  - apply registerPerson_run.
  - apply assignAccessPrivileges_run.
  - apply createSite_run.
  - apply searchSites_run.
Qed.

(** ** Runs of getToken *)

(** A successful site search: the credential was read, the vendor was
    asked once and answered with code '0'. *)
Lemma searchSites_success s n i w r w' :
  searchSites s n i w = (r, w') ->
  success r = true ->
  exists tok response body,
    usable_token (latest_token (db w) (Settings.branch_id s)) = Some tok
    /\ HttpResponse.json response = Parsed body
    /\ strict_eq_str (VendorBody.code body) "0" = true
    /\ r = SitesSuccess (listed_sites body)
    /\ w' = emit (EvFetch
                    (FetchRequest.mk (Settings.api_url s ++ "/api/hpcgw/v1/site/search")
                       "POST" (bearer tok)
                       (Some (SiteSearchPayload (if_truthy (Some n)) (if_truthy (Some i)))))
                    (Responded response))
              (emit (EvStore (SelectLatestToken (Settings.branch_id s)) false) w).
Proof.
  intros H Hs. unfold searchSites in H. minv H; try absurd_run;
    try discriminate Hs.
  destruct Hr as [-> | ->]; [discriminate E0|].
  apply negb_false_iff in E2.
  exists s0, response, a. repeat split; auto.
  destruct (latest_token (db w) (Settings.branch_id s)); [reflexivity|discriminate E0].
Qed.

Lemma getToken_success a k s b w r w' :
  getToken a k s b w = (r, w') ->
  success r = true ->
  exists response body d expire row tok response2 body2 uerr t2,
    let site := first_or_default (listed_sites body2) in
    history w w'
      = ([ EvFetch (token_request a k s) (Responded response);
           EvStore (UpsertToken row) false;
           EvStore (SelectLatestToken b) false;
           EvFetch (site_search_all a tok) (Responded response2);
           EvStore (UpdateBranchSite b (Site.id site) (Site.name site) t2) uerr ]
         ++ (if uerr : bool
             then [EvConsoleError "Error updating branch with site info:"]
             else []))%list
    /\ token_body response = Some body
    /\ VendorBody.data body = Some d
    /\ VendorData.expireTime d = Some expire
    /\ TokenRow.branch_id row = b
    /\ TokenRow.access_token row = VendorData.accessToken d
    /\ TokenRow.refresh_token row = VendorData.refreshToken d
    /\ TokenRow.token_type row = VendorData.tokenType d
    /\ TokenRow.area_domain row = VendorData.areaDomain d
    /\ TokenRow.expire_time row = expire
    /\ usable_token (latest_token (db w') b) = Some tok
    /\ HttpResponse.json response2 = Parsed body2
    /\ VendorBody.code body2 = JStr "0"
    /\ r = TokenSuccess (VendorData.accessToken d) (VendorData.tokenType d) expire
             (VendorData.areaDomain d) (Site.id site) (Site.name site)
    /\ hikvision_tokens (db w')
       = upsert_row (fun r => TokenRow.branch_id r =? b) row (hikvision_tokens (db w))
    /\ branches (db w')
       = if uerr then branches (db w)
         else set_branch_site b site t2 (branches (db w)).
Proof.
  intros H Hs. unfold getToken in H.
  minv H; try absurd_run; try discriminate Hs.
  all: try match goal with
       | E : VendorBody.data VendorBody.empty = Some _ |- _ => discriminate E
       end.
  all: match goal with
       | H : searchSites _ _ _ _ = (?r0, _), E : negb (success ?r0) = false |- _ =>
           apply negb_false_iff in E;
           destruct (searchSites_success _ _ _ _ _ _ H E)
             as (tok & response2 & body2 & Htok & Hj & Hc & -> & ->);
           clear H
       end.
  all: cbn [db emit Settings.branch_id hikvision_tokens with_tokens latest_token] in Htok.
  all: unfold history; since_tac; cbn [rev app].
  all: match goal with
       | |- context [EvStore (UpsertToken ?row) false] =>
           match goal with
           | |- context [EvStore (UpdateBranchSite _ _ _ ?t2) ?uerr] =>
               exists response, a0, t, z, row, tok, response2, body2, uerr, t2
           end
       end.
  all: unfold token_body; rewrite E, E0.
  all: destruct (VendorBody.code body2) as [| | | |c]; try discriminate Hc.
  all: cbn in Hc; apply String.eqb_eq in Hc; subst c.
  all: cbn.
  all: repeat split; try assumption.
Qed.

(** Computes [since w w'] when the run from [w] to [w'] goes through a
    call of searchSites from [w1] to [w2]. *)
Ltac since_through_searchSites Hext :=
  match type of Hext with
  | trace ?w2 = (since ?w1 ?w2 ++ trace ?w1)%list =>
      match goal with
      | |- context [since ?w ?w'] =>
          lazymatch w with w1 => fail | _ => idtac end;
          let l := eval cbn [trace emit] in (trace w') in
          let post := prefix_of l (trace w2) in
          let l1 := eval cbn [trace emit] in (trace w1) in
          let pre := prefix_of l1 (trace w) in
          rewrite (since_prefix w w' (post ++ since w1 w2 ++ pre))
            by (cbn [trace emit]; rewrite Hext; cbn [trace emit app];
                rewrite <- ?app_assoc; reflexivity)
      end
  end.

Ltac use_searchSites_run :=
  match goal with
  | H : searchSites ?s ?n ?i ?w1 = (?r0, ?w2) |- _ =>
      let Hext := fresh "Hext" in let Hk := fresh "Hk" in
      destruct (searchSites_run _ _ _ _ _ _ H) as (Hext & _ & _ & _ & Hk);
      specialize (Hk _ eq_refl); cbn [Settings.branch_id] in Hk;
      since_through_searchSites Hext
  end.

(** Every credential read or write of a getToken run is keyed on the
    tenant id it was given. *)
Lemma getToken_keys a k s b w r w' :
  getToken a k s b w = (r, w') ->
  Forall (fun ev => forall key, token_key ev = Some key -> key = b) (since w w').
Proof.
  intros H. unfold getToken in H. minv H; try absurd_run.
  all: try use_searchSites_run.
  all: since_tac.
  all: repeat first
         [ apply Forall_nil
         | apply Forall_cons; [cbn [token_key TokenRow.branch_id]; intros; congruence|]
         | apply Forall_app; split; [assumption|] ].
Qed.

Lemma falsy_not_zero (c : jsval) :
  truthy c = false -> truthy c && negb (strict_eq_str c "0") = false.
Proof. intros ->. reflexivity. Qed.

Lemma getToken_falsy_code a k s b w r w' response body :
  getToken a k s b w = (r, w') ->
  head_answer (history w w') = Some (Responded response) ->
  HttpResponse.ok response = true ->
  token_body response = Some body ->
  truthy (VendorBody.code body) = false ->
  errorCode_of r = None
  /\ (VendorBody.data body = None ->
      r = Failure (fault_message (env w) DestructureUndefined))
  /\ (forall d expire,
        VendorBody.data body = Some d ->
        VendorData.expireTime d = Some expire ->
        exists row err,
          In (EvStore (UpsertToken row) err) (history w w')
          /\ TokenRow.branch_id row = b
          /\ TokenRow.access_token row = VendorData.accessToken d
          /\ TokenRow.expire_time row = expire).
Proof.
  intros H Ha Hok Hb Hc. revert Ha. unfold getToken in H.
  minv H; try absurd_run.
  all: unfold history.
  all: try use_searchSites_run.
  all: since_tac.
  all: rewrite ?rev_app_distr; cbn [rev app]; rewrite <- ?app_assoc;
       cbn [app head_answer].
  all: intros Ha; try discriminate Ha.
  all: inversion Ha; subst; clear Ha.
  all: unfold token_body in Hb;
       match goal with E : (HttpResponse.text _ =? "") = _ |- _ => rewrite E in Hb end;
       try match goal with E : HttpResponse.json _ = _ |- _ => rewrite E in Hb end;
       try discriminate Hb; inversion Hb; subst; clear Hb.
  all: try match goal with
       | E : negb (HttpResponse.ok _) = true |- _ => rewrite Hok in E; discriminate E
       end.
  all: try match goal with
       | E : truthy ?c && _ = true |- _ =>
           rewrite (falsy_not_zero c Hc) in E; discriminate E
       end.
  all: (split; [reflexivity|]).
  all: (split; [intros Hd; try reflexivity; try congruence|]).
  all: intros d expire Hd He; try congruence.
  all: match goal with
       | |- context [EvStore (UpsertToken ?row) ?err] => exists row, err
       end.
  all: (split; [cbn [In]; auto 6 using in_or_app, in_eq, in_cons|]).
  all: cbn; repeat split; congruence.
Qed.

(* ================================================================== *)
(** ** The request router *)

Lemma not_dispatched (a : string) :
  ~ In a dispatched_actions ->
  (a =? "getToken") = false /\ (a =? "testDevice") = false
  /\ (a =? "registerPerson") = false /\ (a =? "assignAccessPrivileges") = false
  /\ (a =? "createSite") = false /\ (a =? "searchSites") = false.
Proof.
  intros H. repeat split; apply String.eqb_neq; intros ->; apply H; simpl; tauto.
Qed.

(** C8.  A request (not a pre-flight) whose action is none of the six
    dispatched ones is answered with
    [{ success: false, error: "Invalid action" }], HTTP status 400 and the
    CORS headers; nothing else happens. *)
Theorem invalid_action_400 (req : Request.t) (rd : HikvisionRequest.t) (w : World) :
  Request.method req <> "OPTIONS" ->
  Request.body req = Json rd ->
  ~ In (HikvisionRequest.action rd) dispatched_actions ->
  serve req w
    = (Response.mk 400 jsonHeaders (Some (ErrorEnvelope "Invalid action" None)), w)
  /\ body_success (ErrorEnvelope "Invalid action" None) = false
  /\ incl corsHeaders (Response.headers (fst (serve req w))).
Proof.
  intros Hm Hb Ha.
  assert (E : serve req w
    = (Response.mk 400 jsonHeaders (Some (ErrorEnvelope "Invalid action" None)), w)).
  { unfold serve. apply String.eqb_neq in Hm. rewrite Hm, Hb.
    unfold route.
    destruct (not_dispatched _ Ha) as (-> & -> & -> & -> & -> & ->).
    reflexivity. }
  rewrite E. repeat split.
  simpl. unfold jsonHeaders. apply incl_tl, incl_refl.
Qed.

Lemma route_missing_field (rd : HikvisionRequest.t) (w : World) :
  missing_required_field rd = true ->
  exists msg, In msg required_field_messages /\ route rd w = (inl (JsError msg), w).
Proof.
  unfold missing_required_field, route, required_field_messages.
  destruct (HikvisionRequest.action rd =? "getToken").
  { intros ->. eexists; split; [|reflexivity]. simpl; tauto. }
  destruct (HikvisionRequest.action rd =? "testDevice").
  { intros ->. eexists; split; [|reflexivity]. simpl; tauto. }
  destruct (HikvisionRequest.action rd =? "registerPerson").
  { destruct (HikvisionRequest.personData rd); [discriminate|].
    intros _. eexists; split; [|reflexivity]. simpl; tauto. }
  destruct (HikvisionRequest.action rd =? "assignAccessPrivileges").
  { intros H.
    destruct (negb (truthy_str (personData_id (HikvisionRequest.personData rd)))
              || negb (has_length (HikvisionRequest.doorList rd))).
    - eexists; split; [|reflexivity]. simpl; tauto.
    - simpl in H. rewrite H. eexists; split; [|reflexivity]. simpl; tauto. }
  destruct (HikvisionRequest.action rd =? "createSite").
  { intros ->. eexists; split; [|reflexivity]. simpl; tauto. }
  discriminate.
Qed.

(** C1 (as amended).  A request (not a pre-flight) whose selected action
    lacks a required field is answered with HTTP status 500 and
    [{ success: false, error }] carrying the guard's fixed message; the
    run consists of the two console.error lines of the outer catch: no
    vendor call is made and the store is untouched. *)
Theorem missing_field_500_no_vendor_call
    (req : Request.t) (rd : HikvisionRequest.t) (w : World) :
  Request.method req <> "OPTIONS" ->
  Request.body req = Json rd ->
  missing_required_field rd = true ->
  exists msg,
    In msg required_field_messages
    /\ fst (serve req w)
       = Response.mk 500 jsonHeaders
           (Some (ErrorEnvelope msg
                    (if development (env w) then Some (stack_of (env w) msg)
                     else None)))
    /\ history w (snd (serve req w))
       = [EvConsoleError "Error handling request:"; EvConsoleError "Error details:"]
    /\ vendor_calls (history w (snd (serve req w))) = []
    /\ db (snd (serve req w)) = db w.
Proof.
  intros Hm Hb Hmiss.
  destruct (route_missing_field rd w Hmiss) as (msg & Hin & Hr).
  exists msg. split; [exact Hin|].
  unfold serve. apply String.eqb_neq in Hm. rewrite Hm, Hb, Hr.
  cbn [fst snd exn_message]. unfold history.
  since_tac. repeat split.
Qed.

Lemma or_empty_some (b : string) : or_empty (Some b) = b.
Proof.
  unfold or_empty, or_str, truthy_str.
  destruct (b =? "") eqn:E; [|reflexivity].
  apply String.eqb_eq in E. now subst.
Qed.

Lemma not_truthy_empty (b : string) :
  negb (truthy_str (Some b)) = true -> b = "".
Proof.
  unfold truthy_str. rewrite negb_involutive. apply String.eqb_eq.
Qed.

Lemma route_inv (rd : HikvisionRequest.t) w x w' :
  route rd w = (x, w') ->
  (exists msg, In msg required_field_messages /\ x = inl (JsError msg) /\ w' = w)
  \/ (exists msg, In msg branchId_required_messages /\ branchId_of rd = ""
                  /\ x = inl (JsError msg) /\ w' = w)
  \/ (~ In (HikvisionRequest.action rd) dispatched_actions
      /\ x = inr invalid_action_response /\ w' = w)
  \/ (HikvisionRequest.action rd = "getToken"
      /\ exists r,
           getToken (or_empty (HikvisionRequest.apiUrl rd))
             (or_empty (HikvisionRequest.appKey rd))
             (or_empty (HikvisionRequest.secretKey rd)) (branchId_of rd) w = (r, w')
           /\ x = inr (json_response (Envelope r)))
  \/ (In (HikvisionRequest.action rd) credentialed_actions
      /\ exists c r body,
           perform c w = (r, w')
           /\ x = inr (json_response body)
           /\ body_for (HikvisionRequest.action rd) r body
           /\ call_tenant c
              = if HikvisionRequest.action rd =? "assignAccessPrivileges"
                then None else Some (branchId_of rd)).
Proof.
  unfold route. intros H.
  destruct (HikvisionRequest.action rd =? "getToken") eqn:A1.
  { apply String.eqb_eq in A1. minv H.
    - left. eexists; split; [|split; reflexivity]. simpl; tauto.
    - do 3 right; left. split; [exact A1|]. eauto. }
  destruct (HikvisionRequest.action rd =? "testDevice") eqn:A2.
  { apply String.eqb_eq in A2. minv H.
    - left. eexists; split; [|split; reflexivity]. simpl; tauto.
    - do 4 right. rewrite A2. split; [simpl; tauto|].
      eexists (TestDevice _), _, _. split; [eassumption|]. split; [reflexivity|].
      split; [left; split; [simpl; tauto|reflexivity]|].
      cbn. now rewrite or_empty_some. }
  destruct (HikvisionRequest.action rd =? "registerPerson") eqn:A3.
  { apply String.eqb_eq in A3. minv H.
    - right; left. apply not_truthy_empty in E0.
      eexists; split; [|split; [exact E0|split; reflexivity]]. simpl; tauto.
    - do 4 right. rewrite A3. split; [simpl; tauto|].
      eexists (RegisterPerson _ _ _), _, _. split; [eassumption|]. split; [reflexivity|].
      split; [left; split; [simpl; tauto|reflexivity]|]. reflexivity.
    - left. eexists; split; [|split; reflexivity]. simpl; tauto. }
  destruct (HikvisionRequest.action rd =? "assignAccessPrivileges") eqn:A4.
  { apply String.eqb_eq in A4. minv H.
    - left. eexists; split; [|split; reflexivity]. simpl; tauto.
    - left. eexists; split; [|split; reflexivity]. simpl; tauto.
    - do 4 right. rewrite A4. split; [simpl; tauto|].
      eexists (AssignAccessPrivileges _ _ _ _ _), _, _.
      split; [eassumption|]. split; [reflexivity|].
      split; [right; split; [simpl; tauto|eauto]|]. reflexivity. }
  destruct (HikvisionRequest.action rd =? "createSite") eqn:A5.
  { apply String.eqb_eq in A5. minv H.
    - left. eexists; split; [|split; reflexivity]. simpl; tauto.
    - right; left. apply not_truthy_empty in E0.
      eexists; split; [|split; [exact E0|split; reflexivity]]. simpl; tauto.
    - do 4 right. rewrite A5. split; [simpl; tauto|].
      eexists (CreateSite _ _), _, _. split; [eassumption|]. split; [reflexivity|].
      split; [right; split; [simpl; tauto|eauto]|]. reflexivity. }
  destruct (HikvisionRequest.action rd =? "searchSites") eqn:A6.
  { apply String.eqb_eq in A6. minv H.
    do 4 right. rewrite A6. split; [simpl; tauto|].
    eexists (SearchSites _ _ _), _, _. split; [eassumption|]. split; [reflexivity|].
    split; [left; split; [simpl; tauto|reflexivity]|].
    cbn. now rewrite or_empty_some. }
  minv H. do 2 right; left. split; [|split; reflexivity].
  apply String.eqb_neq in A1, A2, A3, A4, A5, A6.
  simpl. intuition congruence.
Qed.

(** The handler's outcome in terms of the router's. *)
Lemma serve_inv (req : Request.t) (rd : HikvisionRequest.t) w :
  Request.method req <> "OPTIONS" ->
  Request.body req = Json rd ->
  (exists response, route rd w = (inr response, snd (serve req w))
                    /\ fst (serve req w) = response)
  \/ (exists msg w1,
        route rd w = (inl (JsError msg), w1)
        /\ snd (serve req w)
           = emit (EvConsoleError "Error details:")
               (emit (EvConsoleError "Error handling request:") w1)
        /\ fst (serve req w)
           = Response.mk 500 jsonHeaders
               (Some (ErrorEnvelope msg
                        (if development (env w1)
                         then Some (stack_of (env w1) msg) else None)))).
Proof.
  intros Hm Hb. unfold serve. apply String.eqb_neq in Hm. rewrite Hm, Hb.
  destruct (route rd w) as [[[msg]|response] w1]; cbn [fst snd exn_message].
  - right. eauto.
  - left. eauto.
Qed.

Lemma code_failure_shape (r : OpResult) (c : jsval) :
  is_code_failure r c ->
  success r = false /\ errorCode_of r = Some c.
Proof. intros [-> | ->]; split; reflexivity. Qed.

(** C2 (as amended).  When a credentialed action is dispatched and the
    vendor's answer to its call carries a code other than '0', the
    response has HTTP status 200, not the catalogued status; the
    operation's result (at top level, or under [data] for
    assignAccessPrivileges and createSite) has success=false, the raw
    code as errorCode, and the message of the catalogue lookup for that
    code. *)
Theorem vendor_error_message_with_status_200
    (req : Request.t) (rd : HikvisionRequest.t) (w : World) (b : VendorBody.t) :
  Request.method req <> "OPTIONS" ->
  Request.body req = Json rd ->
  In (HikvisionRequest.action rd) credentialed_actions ->
  answered_with (head_answer (since w (snd (serve req w)))) b ->
  strict_eq_str (VendorBody.code b) "0" = false ->
  exists body r,
    fst (serve req w) = Response.mk 200 jsonHeaders (Some body)
    /\ body_for (HikvisionRequest.action rd) r body
    /\ is_code_failure r (VendorBody.code b)
    /\ success r = false
    /\ errorCode_of r = Some (VendorBody.code b).
Proof.
  intros Hm Hb Hact Hans Hcode.
  destruct (serve_inv req rd w Hm Hb) as [(response & Hr & Hf) | (msg & w1 & Hr & Hw & _)].
  - apply route_inv in Hr.
    destruct Hr as [(m & _ & Hx & _) | [(m & _ & _ & Hx & _) | [(Hn & _) | [(Ha & _) | (_ & c & r & body & Hp & Hx & Hbody & _)]]]].
    + discriminate Hx.
    + discriminate Hx.
    + exfalso. apply Hn. simpl in Hact |- *. tauto.
    + exfalso. rewrite Ha in Hact. simpl in Hact. intuition discriminate.
    + injection Hx as Hx.
      destruct (perform_run _ _ _ _ Hp) as (_ & _ & _ & Hc & _).
      specialize (Hc b Hans Hcode).
      destruct (code_failure_shape _ _ Hc) as (Hs & He).
      exists body, r. rewrite Hf, Hx. repeat split; assumption.
  - exfalso. apply route_inv in Hr.
    destruct Hr as [(m & _ & Hx & ->) | [(m & _ & _ & Hx & ->) | [(_ & Hx & _) | [(_ & r & _ & Hx) | (_ & c & r & body & _ & Hx & _)]]]];
      try discriminate Hx.
    all: rewrite Hw in Hans; revert Hans; since_tac; cbn [head_answer];
      intros (resp & Hans & _); discriminate Hans.
Qed.

(** ** Without a credential *)

Lemma truthy_or_empty (o : option string) :
  truthy_str (Some (or_empty o)) = truthy_str o.
Proof.
  unfold or_empty, or_str. destruct o as [s|]; [|reflexivity].
  cbn. destruct (s =? "") eqn:E; cbn; [|now rewrite E].
  reflexivity.
Qed.

Lemma latest_token_absent (t : Tables) (tenant : string) :
  tokens_of tenant (hikvision_tokens t) = [] -> latest_token t tenant = None.
Proof. unfold latest_token. now intros ->. Qed.

(** The credential read of a tenant without credentials finds nothing,
    whether or not the store fails. *)
Lemma select_latest_token_absent (tenant : string) (w : World) :
  tokens_of tenant (hikvision_tokens (db w)) = [] ->
  select_latest_token tenant w
  = (inr None, emit (EvStore (SelectLatestToken tenant) true) w).
Proof.
  intros H. unfold select_latest_token, store_read.
  rewrite (latest_token_absent _ _ H).
  destruct (store_fault (env w) (tick w) (SelectLatestToken tenant)); reflexivity.
Qed.

Lemma testDevice_without_credential (s : Settings.t) (w : World) :
  truthy_str (Some (Settings.api_url s)) = true ->
  tokens_of (Settings.branch_id s) (hikvision_tokens (db w)) = [] ->
  testDevice s w
  = (Failure no_token_message,
     emit (EvStore (SelectLatestToken (Settings.branch_id s)) true) w).
Proof.
  intros Hu Hn. unfold testDevice, try_catch. rewrite Hu. cbn [negb].
  unfold bind. rewrite (select_latest_token_absent _ _ Hn). reflexivity.
Qed.

Lemma searchSites_without_credential (s : Settings.t) (n i : string) (w : World) :
  truthy_str (Some (Settings.api_url s)) = true ->
  tokens_of (Settings.branch_id s) (hikvision_tokens (db w)) = [] ->
  searchSites s n i w
  = (Failure no_token_message,
     emit (EvStore (SelectLatestToken (Settings.branch_id s)) true) w).
Proof.
  intros Hu Hn. unfold searchSites, try_catch. rewrite Hu. cbn [negb].
  unfold bind. rewrite (select_latest_token_absent _ _ Hn). reflexivity.
Qed.

Lemma registerPerson_without_credential (s : Settings.t) (p : PersonData.t)
    (b : string) (w : World) :
  truthy_str (Some (Settings.api_url s)) = true ->
  truthy_str (Some (PersonData.name p)) = true ->
  tokens_of b (hikvision_tokens (db w)) = [] ->
  registerPerson s p b w
  = (Failure no_token_message, emit (EvStore (SelectLatestToken b) true) w).
Proof.
  intros Hu Hp Hn. unfold registerPerson, try_catch. rewrite Hu, Hp. cbn [negb].
  unfold bind. rewrite (select_latest_token_absent _ _ Hn). reflexivity.
Qed.

Lemma createSite_without_credential (n b : string) (w : World) :
  tokens_of b (hikvision_tokens (db w)) = [] ->
  createSite n b w
  = (Failure no_token_message, emit (EvStore (SelectLatestToken b) true) w).
Proof.
  intros Hn. unfold createSite, try_catch.
  unfold bind. rewrite (select_latest_token_absent _ _ Hn). reflexivity.
Qed.

Lemma assignAccessPrivileges_without_credential (d p : string) (doors : list number)
    (vs ve : option string) (device : DeviceRow.t) (w : World) :
  store_fault (env w) (tick w) (SelectDeviceBranch d) = false ->
  device_row (db w) d = Some device ->
  tokens_of (DeviceRow.branch_id device) (hikvision_tokens (db w)) = [] ->
  assignAccessPrivileges d p doors vs ve w
  = (Failure no_token_message,
     emit (EvStore (SelectLatestToken (DeviceRow.branch_id device)) true)
       (emit (EvStore (SelectDeviceBranch d) false) w)).
Proof.
  intros Hf Hd Hn. unfold assignAccessPrivileges, try_catch.
  unfold bind at 1. unfold select_device_branch, store_read. rewrite Hf.
  unfold device_row in Hd. rewrite Hd.
  unfold bind. rewrite select_latest_token_absent by exact Hn. reflexivity.
Qed.

(** C6 (as amended).  When a request for a credentialed action passes
    the guards placed before the credential read (the router's required
    fields and branchId checks; an apiUrl for testDevice, registerPerson
    and searchSites; a person name for registerPerson; the device row for
    assignAccessPrivileges) and the tenant it reads has no credential
    row, the operation reads the credential, calls no vendor, changes
    nothing, and its result is success=false with the fixed message; the
    response has HTTP status 200, the result sitting at top level for
    testDevice, registerPerson and searchSites and under [data] for the
    other two. *)
Theorem no_credential_fixed_failure_status_200
    (req : Request.t) (rd : HikvisionRequest.t) (w : World) (tenant : string) :
  Request.method req <> "OPTIONS" ->
  Request.body req = Json rd ->
  credential_tenant rd w = Some tenant ->
  tokens_of tenant (hikvision_tokens (db w)) = [] ->
  exists body,
    In (HikvisionRequest.action rd) credentialed_actions
    /\ fst (serve req w) = Response.mk 200 jsonHeaders (Some body)
    /\ body_for (HikvisionRequest.action rd) (Failure no_token_message) body
    /\ success (Failure no_token_message) = false
    /\ In (EvStore (SelectLatestToken tenant) true) (since w (snd (serve req w)))
    /\ vendor_calls (since w (snd (serve req w))) = []
    /\ db (snd (serve req w)) = db w.
Proof.
  intros Hm Hb Hg Hn.
  apply String.eqb_neq in Hm.
  unfold serve. rewrite Hm, Hb.
  unfold credential_tenant in Hg.
  destruct (missing_required_field rd) eqn:Hmiss; [discriminate Hg|].
  unfold missing_required_field in Hmiss. unfold route.
  destruct (HikvisionRequest.action rd =? "getToken") eqn:A1.
  { apply String.eqb_eq in A1. rewrite A1 in Hg. discriminate Hg. }
  destruct (HikvisionRequest.action rd =? "testDevice") eqn:A2.
  { apply String.eqb_eq in A2. rewrite A2 in *. cbn [orb String.eqb] in Hg.
    rewrite Hmiss.
    destruct (truthy_str (HikvisionRequest.apiUrl rd)) eqn:Hu; [|discriminate Hg].
    injection Hg as <-.
    unfold bind, await.
    rewrite testDevice_without_credential
      by (cbn [Settings.api_url Settings.branch_id];
          rewrite ?truthy_or_empty, ?or_empty_some; assumption).
    unfold ret. cbn [Settings.branch_id fst snd]. rewrite or_empty_some.
    eexists. split; [simpl; tauto|]. split; [reflexivity|].
    split; [left; split; [simpl; tauto|reflexivity]|]. split; [reflexivity|].
    since_tac. cbn. auto. }
  destruct (HikvisionRequest.action rd =? "registerPerson") eqn:A3.
  { apply String.eqb_eq in A3. rewrite A3 in *. cbn [orb String.eqb] in Hg.
    destruct (HikvisionRequest.personData rd) as [p|]; [|discriminate Hg].
    destruct (truthy_str (HikvisionRequest.apiUrl rd)) eqn:Hu; [|discriminate Hg].
    destruct (truthy_str (Some (PersonData.name p))) eqn:Hp; [|discriminate Hg].
    destruct (truthy_str (Some (branchId_of rd))) eqn:Hbr; [|discriminate Hg].
    injection Hg as <-. cbn [negb].
    unfold bind, await.
    rewrite registerPerson_without_credential
      by (cbn [Settings.api_url]; rewrite ?truthy_or_empty; assumption).
    unfold ret. cbn [fst snd].
    eexists. split; [simpl; tauto|]. split; [reflexivity|].
    split; [left; split; [simpl; tauto|reflexivity]|]. split; [reflexivity|].
    since_tac. cbn. auto. }
  destruct (HikvisionRequest.action rd =? "assignAccessPrivileges") eqn:A4.
  { apply String.eqb_eq in A4. rewrite A4 in *. cbn [orb String.eqb] in Hg.
    apply orb_false_iff in Hmiss as [Hmiss Hdev]. rewrite Hmiss, Hdev.
    destruct (store_fault (env w) (tick w)
                (SelectDeviceBranch (or_empty (HikvisionRequest.deviceId rd)))) eqn:Hf;
      [discriminate Hg|].
    unfold device_tenant in Hg.
    destruct (device_row (db w) (or_empty (HikvisionRequest.deviceId rd)))
      as [device|] eqn:Hd; [|discriminate Hg].
    injection Hg as <-.
    unfold bind, await, engine.
    erewrite assignAccessPrivileges_without_credential by eassumption.
    unfold ret. cbn [fst snd].
    eexists. split; [simpl; tauto|]. split; [reflexivity|].
    split; [right; split; [simpl; tauto|eexists; reflexivity]|]. split; [reflexivity|].
    since_tac. cbn. auto. }
  destruct (HikvisionRequest.action rd =? "createSite") eqn:A5.
  { apply String.eqb_eq in A5. rewrite A5 in *. cbn [orb String.eqb] in Hg.
    rewrite Hmiss.
    destruct (truthy_str (Some (branchId_of rd))) eqn:Hbr; [|discriminate Hg].
    injection Hg as <-. cbn [negb].
    unfold bind, await.
    rewrite createSite_without_credential by assumption.
    unfold ret. cbn [fst snd].
    eexists. split; [simpl; tauto|]. split; [reflexivity|].
    split; [right; split; [simpl; tauto|eexists; reflexivity]|]. split; [reflexivity|].
    since_tac. cbn. auto. }
  destruct (HikvisionRequest.action rd =? "searchSites") eqn:A6.
  { apply String.eqb_eq in A6. rewrite A6 in *. cbn [orb String.eqb] in Hg.
    destruct (truthy_str (HikvisionRequest.apiUrl rd)) eqn:Hu; [|discriminate Hg].
    injection Hg as <-.
    unfold bind, await.
    rewrite searchSites_without_credential
      by (cbn [Settings.api_url Settings.branch_id];
          rewrite ?truthy_or_empty, ?or_empty_some; assumption).
    unfold ret. cbn [Settings.branch_id fst snd]. rewrite or_empty_some.
    eexists. split; [simpl; tauto|]. split; [reflexivity|].
    split; [left; split; [simpl; tauto|reflexivity]|]. split; [reflexivity|].
    since_tac. cbn. auto. }
  cbn [orb] in Hg. discriminate Hg.
Qed.

(** ** The tenant a run is keyed on *)

Ltac solve_tenant_keys :=
  since_tac;
  repeat first
    [ apply Forall_nil
    | apply Forall_cons;
      [cbn [tenant_key TokenRow.branch_id PersonRow.branch_id]; intros; congruence|] ].

Lemma testDevice_tenant_keys s w r w' :
  testDevice s w = (r, w') ->
  Forall (fun ev => forall k, tenant_key ev = Some k -> k = Settings.branch_id s)
    (since w w').
Proof.
  intros H. unfold testDevice in H. minv H; try absurd_run.
  all: solve_tenant_keys.
Qed.

Lemma searchSites_tenant_keys s n i w r w' :
  searchSites s n i w = (r, w') ->
  Forall (fun ev => forall k, tenant_key ev = Some k -> k = Settings.branch_id s)
    (since w w').
Proof.
  intros H. unfold searchSites in H. minv H; try absurd_run.
  all: solve_tenant_keys.
Qed.

Lemma registerPerson_tenant_keys s p b w r w' :
  registerPerson s p b w = (r, w') ->
  Forall (fun ev => forall k, tenant_key ev = Some k -> k = b) (since w w').
Proof.
  intros H. unfold registerPerson in H. minv H; try absurd_run.
  all: solve_tenant_keys.
Qed.

Lemma createSite_tenant_keys n b w r w' :
  createSite n b w = (r, w') ->
  Forall (fun ev => forall k, tenant_key ev = Some k -> k = b) (since w w').
Proof.
  intros H. unfold createSite in H. minv H; try absurd_run.
  all: solve_tenant_keys.
Qed.

(** Every store request of a credentialed run that is keyed on a tenant
    is keyed on the tenant id the call was given. *)
Lemma perform_tenant_keys (c : Call) w r w' tenant :
  perform c w = (r, w') ->
  call_tenant c = Some tenant ->
  Forall (fun ev => forall k, tenant_key ev = Some k -> k = tenant) (since w w').
Proof.
  destruct c; cbn [perform call_tenant]; intros H Ht; try discriminate Ht;
    injection Ht as <-.
  - eapply testDevice_tenant_keys; eassumption.
  - eapply registerPerson_tenant_keys; eassumption.
  - eapply createSite_tenant_keys; eassumption.
  - eapply searchSites_tenant_keys; eassumption.
Qed.

Ltac use_searchSites_tenant_keys :=
  match goal with
  | H : searchSites ?s ?n ?i ?w1 = (?r0, ?w2) |- _ =>
      let Hext := fresh "Hext" in let Hk := fresh "Hk" in
      destruct (searchSites_run _ _ _ _ _ _ H) as (Hext & _);
      pose proof (searchSites_tenant_keys _ _ _ _ _ _ H) as Hk;
      cbn [Settings.branch_id] in Hk;
      since_through_searchSites Hext
  end.

(** Every store request of a getToken run is keyed on the tenant id it
    was given. *)
Lemma getToken_tenant_keys a k s b w r w' :
  getToken a k s b w = (r, w') ->
  Forall (fun ev => forall key, tenant_key ev = Some key -> key = b) (since w w').
Proof.
  intros H. unfold getToken in H. minv H; try absurd_run.
  all: try use_searchSites_tenant_keys.
  all: since_tac.
  all: repeat first
         [ apply Forall_nil
         | apply Forall_cons; [cbn [tenant_key TokenRow.branch_id]; intros; congruence|]
         | apply Forall_app; split; [assumption|] ].
Qed.

Lemma branchId_of_empty (rd : HikvisionRequest.t) :
  branchId_of rd = "" -> HikvisionRequest.branchId rd = Some "".
Proof.
  unfold branchId_of. destruct (HikvisionRequest.branchId rd) as [b|].
  - now intros ->.
  - discriminate.
Qed.

(** The router's guards on branchId: the action is registerPerson or
    createSite. *)
Lemma route_branchId_guard (rd : HikvisionRequest.t) w msg w' :
  route rd w = (inl (JsError msg), w') ->
  In msg branchId_required_messages ->
  In (HikvisionRequest.action rd) ["registerPerson"; "createSite"]
  /\ branchId_of rd = "".
Proof.
  unfold route. intros H Hin.
  assert (Hmsg : msg = "branchId is required for registerPerson action"
                 \/ msg = "branchId is required for createSite action")
    by (simpl in Hin; intuition auto).
  clear Hin.
  destruct (HikvisionRequest.action rd =? "getToken") eqn:A1.
  { minv H; try absurd_run. destruct Hmsg; discriminate. }
  destruct (HikvisionRequest.action rd =? "testDevice") eqn:A2.
  { minv H; try absurd_run. destruct Hmsg; discriminate. }
  destruct (HikvisionRequest.action rd =? "registerPerson") eqn:A3.
  { apply String.eqb_eq in A3. minv H; try absurd_run.
    - apply not_truthy_empty in E0. split; [rewrite A3; simpl; tauto|exact E0].
    - destruct Hmsg; discriminate. }
  destruct (HikvisionRequest.action rd =? "assignAccessPrivileges") eqn:A4.
  { minv H; try absurd_run; destruct Hmsg; discriminate. }
  destruct (HikvisionRequest.action rd =? "createSite") eqn:A5.
  { apply String.eqb_eq in A5. minv H; try absurd_run.
    - destruct Hmsg; discriminate.
    - apply not_truthy_empty in E0. split; [rewrite A5; simpl; tauto|exact E0]. }
  destruct (HikvisionRequest.action rd =? "searchSites") eqn:A6.
  { minv H; try absurd_run. }
  minv H.
Qed.

(** C10 (as amended).  When the body omits branchId the router uses
    'default': such a request is never answered with one of the
    "branchId is required" messages; when it is dispatched (status 200),
    its operation is called for the tenant 'default', and every store
    request of its run that is keyed on a tenant (credential reads and
    writes, the branch update, the settings read and update, the person
    upsert) is keyed on 'default'; assignAccessPrivileges excepted, which
    is not given the tenant id and takes the tenant from the device row.
    A "branchId is required" answer is given only to a registerPerson or
    createSite request whose branchId is present and is the empty
    string. *)
Theorem omitted_branchId_is_default
    (req : Request.t) (rd : HikvisionRequest.t) (w : World) :
  Request.method req <> "OPTIONS" ->
  Request.body req = Json rd ->
  (HikvisionRequest.branchId rd = None ->
   branchId_of rd = "default"
   /\ (forall msg details,
         In msg branchId_required_messages ->
         Response.body (fst (serve req w)) <> Some (ErrorEnvelope msg details))
   /\ (Response.status (fst (serve req w)) = 200%Z ->
       (exists r,
          HikvisionRequest.action rd = "getToken"
          /\ getToken (or_empty (HikvisionRequest.apiUrl rd))
               (or_empty (HikvisionRequest.appKey rd))
               (or_empty (HikvisionRequest.secretKey rd)) "default" w
             = (r, snd (serve req w))
          /\ fst (serve req w) = json_response (Envelope r))
       \/ (exists c r body,
             perform c w = (r, snd (serve req w))
             /\ fst (serve req w) = json_response body
             /\ body_for (HikvisionRequest.action rd) r body
             /\ call_tenant c
                = if HikvisionRequest.action rd =? "assignAccessPrivileges"
                  then None else Some "default"))
   /\ (HikvisionRequest.action rd <> "assignAccessPrivileges" ->
       Forall (fun ev => forall key, tenant_key ev = Some key -> key = "default")
         (since w (snd (serve req w)))))
  /\ (forall msg details,
        In msg branchId_required_messages ->
        Response.body (fst (serve req w)) = Some (ErrorEnvelope msg details) ->
        HikvisionRequest.branchId rd = Some ""
        /\ In (HikvisionRequest.action rd) ["registerPerson"; "createSite"]).
Proof.
  intros Hm Hb.
  assert (Honly : forall msg details,
             In msg branchId_required_messages ->
             Response.body (fst (serve req w)) = Some (ErrorEnvelope msg details) ->
             HikvisionRequest.branchId rd = Some ""
             /\ In (HikvisionRequest.action rd) ["registerPerson"; "createSite"]).
  { intros msg details Hin Hbody.
    destruct (serve_inv req rd w Hm Hb)
      as [(response & Hr & Hf) | (msg' & w1 & Hr & Hw & Hf)].
    - exfalso. rewrite Hf in Hbody. apply route_inv in Hr.
      destruct Hr as [(m & _ & Hx & _) | [(m & _ & _ & Hx & _) | [(_ & Hx & _) | [(_ & r & _ & Hx) | (_ & c & r & body & _ & Hx & Hbf & _)]]]];
        try discriminate Hx; injection Hx as ->; cbn in Hbody.
      + injection Hbody as <- _. simpl in Hin. intuition discriminate.
      + discriminate Hbody.
      + destruct Hbf as [(_ & ->) | (_ & m & ->)]; discriminate Hbody.
    - rewrite Hf in Hbody. cbn in Hbody. injection Hbody as -> _.
      destruct (route_branchId_guard _ _ _ _ Hr Hin) as (Ha & He).
      split; [apply branchId_of_empty; exact He | exact Ha]. }
  split; [|exact Honly].
  intros Hnone.
  assert (Hd : branchId_of rd = "default") by (unfold branchId_of; now rewrite Hnone).
  split; [exact Hd|].
  split.
  { intros msg details Hin Hbody.
    destruct (Honly msg details Hin Hbody) as (He & _). congruence. }
  split.
  { intros Hst.
    destruct (serve_inv req rd w Hm Hb)
      as [(response & Hr & Hf) | (msg & w1 & Hr & Hw & Hf)];
      [|rewrite Hf in Hst; discriminate Hst].
    apply route_inv in Hr.
    destruct Hr as [(m & _ & Hx & _) | [(m & _ & _ & Hx & _) | [(_ & Hx & _) | [(Ha & r & Hg & Hx) | (_ & c & r & body & Hp & Hx & Hbody & Ht)]]]];
      try discriminate Hx; injection Hx as Hx.
    - rewrite Hf, Hx in Hst. discriminate Hst.
    - left. exists r. rewrite <- Hd, Hf, Hx. auto.
    - right. exists c, r, body. rewrite <- Hd, Hf, Hx. auto. }
  intros Hna.
  destruct (serve_inv req rd w Hm Hb) as [(response & Hr & Hf) | (msg & w1 & Hr & Hw & Hf)];
    apply route_inv in Hr;
    destruct Hr as [(m & Hin & Hx & Hw') | [(m & _ & He & _) | [(_ & Hx & Hw') | [(_ & r & Hg & Hx) | (_ & c & r & body & Hp & Hx & Hbody & Ht)]]]];
    try discriminate Hx;
    try (rewrite Hd in He; discriminate He).
  - (* Invalid action *)
    rewrite Hw'. rewrite since_refl. constructor.
  - (* getToken *)
    rewrite <- Hd. eapply getToken_tenant_keys; eassumption.
  - (* a credentialed operation *)
    apply String.eqb_neq in Hna. rewrite Hna in Ht.
    rewrite <- Hd. eapply perform_tenant_keys; eassumption.
  - (* a required field is missing *)
    rewrite Hw, Hw'. since_tac. repeat constructor; cbn; intros; discriminate.
Qed.

(** ** The credential store *)




(** ** The mirror of access privileges *)

(** C5.  When the vendor accepts the privilege configuration (code '0'),
    assignAccessPrivileges attempts exactly one local upsert per door of
    the list, in order, each keyed on the person id and the door id; it
    returns success whatever the store answers; each failed upsert is
    matched by one console.error line and nothing else; the vendor call
    is made once; and every upsert that succeeded is in the table
    afterwards. *)
Theorem assign_attempts_one_upsert_per_door
    (deviceId personId : string) (doorList : list number)
    (validStartTime validEndTime : option string)
    (w w' : World) (r : OpResult) (b : VendorBody.t) :
  assignAccessPrivileges deviceId personId doorList validStartTime validEndTime w
    = (r, w') ->
  answered_with (head_answer (since w w')) b ->
  strict_eq_str (VendorBody.code b) "0" = true ->
  r = PrivilegesSuccess
  /\ success r = true
  /\ map fst (privilege_upserts (history w w'))
     = map (fun door => (personId, number_toString door)) doorList
  /\ List.length (privilege_upserts (history w w')) = List.length doorList
  /\ logged "Error storing access privilege:" (since w w')
     = List.length (filter snd (privilege_upserts (since w w')))
  /\ List.length (vendor_calls (since w w')) = 1
  /\ (forall q door,
        In (q, door, false) (privilege_upserts (since w w')) ->
        has_privilege q door (hikvision_access_privileges (db w')) = true).
Proof.
  intros H Ha Hc. revert Ha. unfold assignAccessPrivileges in H.
  minv H; try absurd_run.
  all: try (since_tac; cbn [head_answer]; intros (resp & Ha & Hj);
            try discriminate Ha; injection Ha as <-;
            match goal with
            | E : HttpResponse.json _ = _ |- _ => rewrite Hj in E; try discriminate E;
                                                  injection E as <-
            end;
            match goal with
            | E : negb _ = true |- _ => rewrite Hc in E; discriminate E
            end).
  - apply for_of_store_privilege in H.
    destruct H as (_ & _ & evs & Htr & Hv & _ & Hup & Hlog & Hrows).
    intros _. unfold history.
    erewrite (since_prefix w w' (evs ++ [_; _; _; _]))
      by (rewrite Htr; cbn [trace emit]; rewrite <- app_assoc; reflexivity).
    match goal with
    | |- context [(evs ++ ?pre)%list] => remember pre as before eqn:Hbefore
    end.
    assert (Hb1 : privilege_upserts (rev before) = []) by (subst before; reflexivity).
    assert (Hb2 : privilege_upserts before = []) by (subst before; reflexivity).
    assert (Hb3 : logged "Error storing access privilege:" before = 0)
      by (subst before; reflexivity).
    assert (Hb4 : List.length (vendor_calls before) = 1) by (subst before; reflexivity).
    clear Hbefore.
    assert (Hmap : map fst (privilege_upserts (rev (evs ++ before)))
                   = map (fun door => (personId, number_toString door)) doorList).
    { rewrite rev_app_distr, privilege_upserts_app, Hb1. exact Hup. }
    split; [reflexivity|]. split; [reflexivity|].
    split; [exact Hmap|].
    split; [rewrite <- (length_map fst), Hmap; apply length_map|].
    split; [rewrite logged_app, privilege_upserts_app, Hb2, Hb3, app_nil_r, Hlog; lia|].
    split; [rewrite vendor_calls_app, Hv; exact Hb4|].
    intros q door Hin. apply Hrows.
    rewrite privilege_upserts_app, Hb2, app_nil_r in Hin. now right.
  - apply for_of_store_privilege in H. destruct H as (H & _). discriminate H.
Qed.

(** ** Token acquisition *)

Lemma set_branch_site_frame (b : string) (site : Site.t) (t : Z)
    (rows : list BranchRow.t) :
  map BranchRow.id (set_branch_site b site t rows) = map BranchRow.id rows
  /\ filter (fun r => negb (BranchRow.id r =? b)) (set_branch_site b site t rows)
     = filter (fun r => negb (BranchRow.id r =? b)) rows.
Proof.
  unfold set_branch_site.
  induction rows as [|r rows (IH1 & IH2)]; [split; reflexivity|].
  cbn [map filter]. rewrite IH1, IH2.
  destruct (BranchRow.id r =? b) eqn:E; cbn [BranchRow.id]; rewrite ?E; cbn [negb];
    split; reflexivity.
Qed.

Lemma set_branch_site_rows (b : string) (site : Site.t) (t : Z)
    (rows : list BranchRow.t) :
  forall row,
    In row (set_branch_site b site t rows) ->
    BranchRow.id row = b ->
    (forall i, Site.id site = Some i -> BranchRow.hikvision_site_id row = Some i)
    /\ (forall n, Site.name site = Some n -> BranchRow.hikvision_site_name row = Some n)
    /\ BranchRow.updated_at row = t.
Proof.
  unfold set_branch_site. intros row Hin Hb.
  apply in_map_iff in Hin as (r & Hr & _).
  destruct (BranchRow.id r =? b) eqn:E.
  - subst row. cbn. repeat split.
    + intros i ->. reflexivity.
    + intros n ->. reflexivity.
  - subst row. apply String.eqb_neq in E. contradiction.
Qed.

Lemma logged_rev (label : string) (evs : list Event) :
  logged label (rev evs) = logged label evs.
Proof.
  unfold logged. induction evs as [|ev evs IH]; [reflexivity|].
  cbn [rev]. rewrite filter_app, length_app, IH. cbn [filter].
  destruct (match ev with EvConsoleError l => l =? label | _ => false end);
    cbn [List.length]; lia.
Qed.

(** C7 (as amended).  A successful getToken run consists of: the token
    request, the credential upsert, the credential read and the vendor
    call of searchSites with empty filters, and one update of the branch
    rows keyed on the tenant id; the site is the first one listed, or the
    placeholder ('default-site', 'Default Site') when none is listed; the
    result carries the credential with that site's id and name.  The
    outcome of the update does not bear on the result: when the store
    accepts it, every branch row of the tenant holds the site's id and
    name (a member the site lacks leaves the column as stored) and the
    other rows are as before; when the store refuses it, the failure is
    logged once and the branch rows are as before. *)
Theorem getToken_resolves_site (a k s b : string) (w w' : World) (r : OpResult) :
  getToken a k s b w = (r, w') ->
  success r = true ->
  exists response d expire row tok response2 body2 uerr t2,
    let site := first_or_default (listed_sites body2) in
    history w w'
      = ([ EvFetch (token_request a k s) (Responded response);
           EvStore (UpsertToken row) false;
           EvStore (SelectLatestToken b) false;
           EvFetch (site_search_all a tok) (Responded response2);
           EvStore (UpdateBranchSite b (Site.id site) (Site.name site) t2) uerr ]
         ++ (if uerr : bool
             then [EvConsoleError "Error updating branch with site info:"]
             else []))%list
    /\ HttpResponse.json response2 = Parsed body2
    /\ (listed_sites body2 = [] -> site = default_site)
    /\ (forall first rest, listed_sites body2 = first :: rest -> site = first)
    /\ TokenRow.branch_id row = b
    /\ TokenRow.access_token row = VendorData.accessToken d
    /\ r = TokenSuccess (VendorData.accessToken d) (VendorData.tokenType d) expire
             (VendorData.areaDomain d) (Site.id site) (Site.name site)
    /\ branches (db w')
       = (if uerr then branches (db w)
          else set_branch_site b site t2 (branches (db w)))
    /\ logged "Error updating branch with site info:" (since w w')
       = (if uerr then 1 else 0)
    /\ (uerr = false ->
        forall brow,
          In brow (branches (db w')) ->
          BranchRow.id brow = b ->
          (forall i, Site.id site = Some i -> BranchRow.hikvision_site_id brow = Some i)
          /\ (forall n, Site.name site = Some n ->
                        BranchRow.hikvision_site_name brow = Some n)
          /\ BranchRow.updated_at brow = t2)
    /\ filter (fun brow => negb (BranchRow.id brow =? b)) (branches (db w'))
       = filter (fun brow => negb (BranchRow.id brow =? b)) (branches (db w)).
Proof.
  intros H Hs.
  destruct (getToken_success _ _ _ _ _ _ _ H Hs)
    as (response & body & d & expire & row & tok & response2 & body2 & uerr & t2
        & Hh & _ & _ & _ & Hb & Hacc & _ & _ & _ & _ & _ & Hj & _ & Hr & _ & Hbr).
  exists response, d, expire, row, tok, response2, body2, uerr, t2.
  cbn zeta in *.
  split; [exact Hh|]. split; [exact Hj|].
  split; [intros ->; reflexivity|].
  split; [intros first rest ->; reflexivity|].
  split; [exact Hb|]. split; [exact Hacc|]. split; [exact Hr|].
  split; [exact Hbr|].
  split.
  { assert (Hsince : since w w' = rev (history w w'))
      by (unfold history; now rewrite rev_involutive).
    rewrite Hsince, logged_rev, Hh. destruct uerr; reflexivity. }
  split.
  { intros ->. rewrite Hbr. apply set_branch_site_rows. }
  rewrite Hbr. destruct uerr; [reflexivity|].
  apply set_branch_site_frame.
Qed.

(** ** Classification of a body without a code *)

(** C9.  On a body whose code is absent or otherwise falsy, getToken
    (answered 2xx) does not report a vendor error and goes on to extract
    the token data, while each of the five credentialed operations
    reports the vendor error with that code. *)
Theorem absent_code_is_success_for_getToken_only
    (a k s b : string) (w w' : World) (r : OpResult)
    (response : HttpResponse.t) (body : VendorBody.t)
    (c : Call) (wc wc' : World) (rc : OpResult) :
  truthy (VendorBody.code body) = false ->
  getToken a k s b w = (r, w') ->
  head_answer (history w w') = Some (Responded response) ->
  HttpResponse.ok response = true ->
  token_body response = Some body ->
  perform c wc = (rc, wc') ->
  answered_with (head_answer (since wc wc')) body ->
  (errorCode_of r = None
   /\ (VendorBody.data body = None ->
       r = Failure (fault_message (env w) DestructureUndefined))
   /\ (forall d expire,
         VendorBody.data body = Some d ->
         VendorData.expireTime d = Some expire ->
         exists row err,
           In (EvStore (UpsertToken row) err) (history w w')
           /\ TokenRow.branch_id row = b
           /\ TokenRow.access_token row = VendorData.accessToken d
           /\ TokenRow.expire_time row = expire))
  /\ (is_code_failure rc (VendorBody.code body)
      /\ success rc = false
      /\ errorCode_of rc = Some (VendorBody.code body)).
Proof.
  intros Hfalsy Hg Ha Hok Hb Hp Hans. split.
  - eapply getToken_falsy_code; eassumption.
  - destruct (perform_run _ _ _ _ Hp) as (_ & _ & _ & Hc & _).
    assert (Hnz : strict_eq_str (VendorBody.code body) "0" = false).
    { destruct (VendorBody.code body) as [| | | |str]; try reflexivity.
      cbn in Hfalsy |- *. apply negb_false_iff, String.eqb_eq in Hfalsy. now subst. }
    specialize (Hc body Hans Hnz).
    destruct (code_failure_shape _ _ Hc). auto.
Qed.

(* ================================================================== *)
(** ** The handler and the operations, on every run *)

Lemma tables_eta (t : Tables) :
  mkTables (hikvision_tokens t) (hikvision_devices t) (hikvision_api_settings t)
    (hikvision_persons t) (hikvision_access_privileges t) (branches t) = t.
Proof. destruct t; reflexivity. Qed.

Lemma usable_latest (t : Tables) (tenant : string) (res : option TokenRow.t)
    (tok : string) :
  res = None \/ res = latest_token t tenant ->
  usable_token res = Some tok ->
  res <> None /\ usable_token (latest_token t tenant) = Some tok.
Proof.
  intros [->| ->] Hu; [discriminate|].
  split; [|exact Hu]. intros E. rewrite E in Hu. discriminate.
Qed.

Ltac solve_mirror :=
  cbn [mirror_only db emit];
  repeat match goal with
  | |- context [if ?e then _ else _] => destruct e
  end;
  cbn [hikvision_persons hikvision_access_privileges hikvision_api_settings
       with_persons with_privileges with_settings hikvision_tokens
       hikvision_devices branches];
  try reflexivity; try (unfold with_persons, with_privileges, with_settings;
                        now rewrite tables_eta).

Ltac solve_bearer :=
  let request := fresh "request" in let o := fresh "o" in let Hin := fresh "Hin" in
  intros request o Hin; cbn [In] in Hin;
  repeat (destruct Hin as [Hin|Hin]; [try discriminate Hin|]);
  try contradiction;
  try (injection Hin as <- <-;
       match goal with
       | Hr : ?res = None \/ ?res = latest_token _ ?tenant,
         Hu : usable_token ?res = Some ?tok |- _ =>
           let Hn := fresh "Hn" in let Hl := fresh "Hl" in
           destruct (usable_latest _ _ _ _ Hr Hu) as (Hn & Hl);
           exists tenant, tok;
           destruct res; [|contradiction];
           cbn [db emit] in Hl;
           (split; [cbn [In]; tauto|]); (split; [exact Hl|reflexivity])
       end).

Ltac solve_db_same :=
  cbn [db emit];
  repeat match goal with
  | |- context [if ?e then _ else _] => destruct e
  end; reflexivity.

Ltac solve_network :=
  let m := fresh "m" in let Ha := fresh "Ha" in
  intros m Ha; cbn [head_answer] in Ha; try discriminate Ha;
  injection Ha as <-; (split; [reflexivity|solve_db_same]).

Ltac solve_syntax :=
  let response := fresh "response" in let m := fresh "m" in
  let Ha := fresh "Ha" in let Hj := fresh "Hj" in
  intros response m Ha Hj; cbn [head_answer] in Ha; try discriminate Ha;
  injection Ha as <-;
  match goal with
  | E : HttpResponse.json _ = _ |- _ =>
      tryif constr_eq E Hj then fail
      else (rewrite Hj in E; try discriminate E; injection E as <-)
  end;
  (split; [reflexivity|solve_db_same]).

Ltac clean_run :=
  repeat match goal with
  | H : inl _ = inl _ |- _ => injection H as H; try subst
  | H : inr _ = inr _ |- _ => injection H as H; try subst
  end.

Ltac more_cases :=
  clean_run; cbn [exn_message];
  unfold credentialed_more; since_tac;
  (split; [reflexivity|]);
  (split; [solve_mirror|]);
  (split; [cbn; lia|]);
  (split; [solve_bearer|]);
  (split; [solve_network|]);
  solve_syntax.

Lemma testDevice_more s w r w' :
  testDevice s w = (r, w') -> credentialed_more (TestDevice s) w r w'.
Proof.
  intros H. unfold testDevice in H. minv H; try absurd_run.
  all: more_cases.
Qed.

Lemma searchSites_more s n i w r w' :
  searchSites s n i w = (r, w') -> credentialed_more (SearchSites s n i) w r w'.
Proof.
  intros H. unfold searchSites in H. minv H; try absurd_run.
  all: more_cases.
Qed.

Lemma registerPerson_more s p b w r w' :
  registerPerson s p b w = (r, w') -> credentialed_more (RegisterPerson s p b) w r w'.
Proof.
  intros H. unfold registerPerson in H. minv H; try absurd_run.
  all: more_cases.
Qed.

Lemma createSite_more n b w r w' :
  createSite n b w = (r, w') -> credentialed_more (CreateSite n b) w r w'.
Proof.
  intros H. unfold createSite in H. minv H; try absurd_run.
  all: more_cases.
Qed.

Lemma for_of_store_privilege_frame (personId : string) (vs ve : option string)
    (doors : list number) :
  forall w x w',
    for_of doors (store_privilege personId vs ve) w = (x, w') ->
    env w' = env w
    /\ db w' = with_privileges (db w) (hikvision_access_privileges (db w')).
Proof.
  induction doors as [|door doors IH]; intros w x w' H.
  - simpl in H. minv H. split; [reflexivity|].
    unfold with_privileges. now rewrite tables_eta.
  - simpl in H. apply bind_inv in H.
    destruct H as [(e & H & _) | (a & w1 & H1 & H2)].
    + unfold store_privilege in H. minv H; absurd_run.
    + apply IH in H2. destruct H2 as (He & Hd).
      unfold store_privilege in H1. minv H1; try absurd_run.
      all: cbn [env db emit] in *; split; [exact He|]; rewrite Hd; reflexivity.
Qed.

Lemma not_in_vendor_calls (evs : list Event) request o :
  vendor_calls evs = [] -> ~ In (EvFetch request o) evs.
Proof.
  intros Hv Hin.
  assert (H : In (EvFetch request o) (vendor_calls evs))
    by (apply filter_In; split; [exact Hin|reflexivity]).
  rewrite Hv in H. exact H.
Qed.

Lemma assignAccessPrivileges_more d p doors vs ve w r w' :
  assignAccessPrivileges d p doors vs ve w = (r, w') ->
  credentialed_more (AssignAccessPrivileges d p doors vs ve) w r w'.
Proof.
  intros H. unfold assignAccessPrivileges in H. minv H; try absurd_run.
  all: try solve [more_cases].
  - (* the vendor accepted: the loop ran *)
    pose proof (for_of_store_privilege_frame _ _ _ _ _ _ _ H) as (He & Hd).
    apply for_of_store_privilege in H.
    destruct H as (_ & _ & evs & Htr & Hv & _).
    unfold credentialed_more.
    erewrite (since_prefix w w' (evs ++ [_; _; _; _]))
      by (rewrite Htr; cbn [trace emit]; rewrite <- app_assoc; reflexivity).
    split; [exact He|].
    split; [exact Hd|].
    split; [rewrite vendor_calls_app, Hv; cbn; lia|].
    split.
    { intros request o Hin. apply in_app_or in Hin as [Hin|Hin].
      - exfalso. eapply not_in_vendor_calls; eassumption.
      - revert request o Hin.
        match goal with
        | |- forall request o, In _ ?pre -> exists tenant tok, In _ (_ ++ ?pre) /\ _ =>
            assert (Hpre : forall request o, In (EvFetch request o) pre ->
                      exists tenant tok,
                        In (EvStore (SelectLatestToken tenant) false) pre
                        /\ usable_token (latest_token (db w) tenant) = Some tok
                        /\ FetchRequest.authorization request = Some ("Bearer " ++ tok))
              by solve_bearer
        end.
        intros request o Hin.
        destruct (Hpre request o Hin) as (tenant & tok & H1 & H2 & H3).
        exists tenant, tok. split; [apply in_or_app; now right|]. now split. }
    split.
    { intros m Ha. rewrite head_answer_app in Ha by exact Hv.
      cbn [head_answer] in Ha. discriminate Ha. }
    intros response0 m Ha Hj. rewrite head_answer_app in Ha by exact Hv.
    cbn [head_answer] in Ha. injection Ha as <-. congruence.
  - apply for_of_store_privilege in H. destruct H as (H & _). discriminate H.
Qed.

Lemma perform_more (c : Call) w r w' :
  perform c w = (r, w') -> credentialed_more c w r w'.
Proof.
  destruct c; cbn [perform].
  - apply testDevice_more.
  - apply registerPerson_more.
  - apply assignAccessPrivileges_more.
  - apply createSite_more.
  - apply searchSites_more.
Qed.

(** ** The handler, on every request *)

Lemma serve_cases (req : Request.t) (w : World) :
  (Request.method req = "OPTIONS"
   /\ serve req w = (Response.mk 204 corsHeaders None, w))
  \/ (Request.method req <> "OPTIONS"
      /\ exists msg details,
           fst (serve req w) = Response.mk 500 jsonHeaders
                                 (Some (ErrorEnvelope msg details))
           /\ snd (serve req w)
              = emit (EvConsoleError "Error details:")
                  (emit (EvConsoleError "Error handling request:") w))
  \/ (Request.method req <> "OPTIONS"
      /\ serve req w = (invalid_action_response, w))
  \/ (Request.method req <> "OPTIONS"
      /\ exists body, fst (serve req w) = Response.mk 200 jsonHeaders (Some body)).
Proof.
  destruct (Request.method req =? "OPTIONS") eqn:Em.
  { left. apply String.eqb_eq in Em. split; [exact Em|].
    unfold serve. apply String.eqb_eq in Em. now rewrite Em. }
  right. apply String.eqb_neq in Em.
  destruct (Request.body req) as [m|rd] eqn:Eb.
  { left. split; [exact Em|]. exists m. eexists.
    unfold serve. apply String.eqb_neq in Em. rewrite Em, Eb.
    cbn. split; reflexivity. }
  destruct (serve_inv req rd w Em Eb) as [(response & Hr & Hf) | (msg & w1 & Hr & Hw & Hf)];
    apply route_inv in Hr;
    destruct Hr as [(m & _ & Hx & Hw') | [(m & _ & _ & Hx & Hw') | [(_ & Hx & Hw') | [(_ & r & _ & Hx) | (_ & c & r & body & _ & Hx & _)]]]];
    try discriminate Hx.
  - right; left. split; [exact Em|]. injection Hx as Hx.
    rewrite (surjective_pairing (serve req w)), Hf, Hx, Hw'. reflexivity.
  - right; right. split; [exact Em|]. injection Hx as Hx. rewrite Hf, Hx. eexists. reflexivity.
  - right; right. split; [exact Em|]. injection Hx as Hx. rewrite Hf, Hx. eexists. reflexivity.
  - left. split; [exact Em|]. rewrite Hf, Hw, Hw'. eauto.
  - left. split; [exact Em|]. rewrite Hf, Hw, Hw'. eauto.
Qed.

(** X1.  Whatever the request and the world, the handler's response
    carries the three CORS headers and one of the statuses 204, 200, 400
    and 500; it has no body exactly when the request is a pre-flight
    (method OPTIONS), and is sent as application/json otherwise. *)
Theorem every_response_is_well_formed (req : Request.t) (w : World) :
  incl corsHeaders (Response.headers (fst (serve req w)))
  /\ In (Response.status (fst (serve req w))) [204; 200; 400; 500]%Z
  /\ (Response.body (fst (serve req w)) = None <-> Request.method req = "OPTIONS")
  /\ (Response.status (fst (serve req w)) = 204%Z <-> Request.method req = "OPTIONS")
  /\ (Request.method req <> "OPTIONS" ->
      In ("Content-Type", "application/json") (Response.headers (fst (serve req w)))).
Proof.
  assert (Hj : incl corsHeaders jsonHeaders) by (apply incl_tl, incl_refl).
  destruct (serve_cases req w)
    as [(Hm & E) | [(Hm & msg & details & E & _) | [(Hm & E) | (Hm & body & E)]]];
    rewrite ?E; cbn [fst snd Response.headers Response.status Response.body
                     invalid_action_response].
  all: repeat split; intros; auto using incl_refl; try (simpl; tauto);
    try discriminate; try contradiction; try (now left).
Qed.

(** X2.  A response with status 500 means that nothing was done: the run
    consists of the two console.error lines of the outer catch, without
    any vendor call or store request, and the store is as it was.  Every
    fault inside an operation is answered with status 200 instead. *)
Theorem status_500_means_nothing_was_done (req : Request.t) (w : World) :
  Response.status (fst (serve req w)) = 500%Z ->
  history w (snd (serve req w))
    = [EvConsoleError "Error handling request:"; EvConsoleError "Error details:"]
  /\ db (snd (serve req w)) = db w
  /\ exists msg details,
       Response.body (fst (serve req w)) = Some (ErrorEnvelope msg details).
Proof.
  intros Hs.
  destruct (serve_cases req w)
    as [(Hm & E) | [(Hm & msg & details & E & Ew) | [(Hm & E) | (Hm & body & E)]]];
    rewrite ?E in Hs; try discriminate Hs.
  rewrite E, Ew. unfold history. since_tac. cbn. eauto.
Qed.

(** ** More on the credentialed operations *)

Lemma in_token_key (evs : list Event) (tenant : string) (err : bool) :
  Forall (fun ev => token_key ev = None) evs ->
  ~ In (EvStore (SelectLatestToken tenant) err) evs.
Proof.
  intros Hk Hin. rewrite Forall_forall in Hk. apply Hk in Hin. discriminate Hin.
Qed.

(** assignAccessPrivileges reads the credential of the tenant of the
    device's row. *)
Lemma assignAccessPrivileges_reads_tenant d p doors vs ve w r w' tenant err :
  assignAccessPrivileges d p doors vs ve w = (r, w') ->
  In (EvStore (SelectLatestToken tenant) err) (since w w') ->
  exists device, device_row (db w) d = Some device
                 /\ tenant = DeviceRow.branch_id device.
Proof.
  intros H. unfold assignAccessPrivileges in H.
  minv H; try absurd_run.
  all: try match goal with
       | H : for_of _ _ _ = _ |- _ =>
           apply for_of_store_privilege in H;
           destruct H as (Hx & _ & evs & Htr & _ & Hk & _);
           try discriminate Hx;
           erewrite (since_prefix w w' (evs ++ [_; _; _; _]))
             by (rewrite Htr; cbn [trace emit]; rewrite <- app_assoc; reflexivity)
       end.
  all: since_tac.
  all: intros Hin.
  all: repeat first
         [ apply in_app_or in Hin as [Hin|Hin];
           [exfalso; eapply in_token_key; eassumption|]
         | cbn [In] in Hin; destruct Hin as [Hin|Hin]; [try discriminate Hin|] ];
       try contradiction.
  all: injection Hin as <- _.
  all: match goal with
       | Hr : Some ?device = None \/ Some ?device = _ |- _ =>
           destruct Hr as [Hr|Hr]; [discriminate Hr|];
           exists device; split; [symmetry; exact Hr|reflexivity]
       end.
Qed.

(** Every credential read of a credentialed run is of the tenant the
    call is for. *)
Lemma perform_reads_tenant (c : Call) w r w' tenant err :
  perform c w = (r, w') ->
  In (EvStore (SelectLatestToken tenant) err) (since w w') ->
  tenant_of c (db w) = Some tenant.
Proof.
  intros H Hin.
  destruct c; cbn [tenant_of];
    try (destruct (perform_run _ _ _ _ H) as (_ & _ & _ & _ & Hk);
         specialize (Hk _ eq_refl); rewrite Forall_forall in Hk;
         cbn [call_tenant]; f_equal; symmetry; apply (Hk _ Hin); reflexivity).
  cbn [perform] in H. unfold device_tenant.
  destruct (assignAccessPrivileges_reads_tenant _ _ _ _ _ _ _ _ _ _ H Hin)
    as (device & -> & ->).
  reflexivity.
Qed.

(** X3.  A credentialed operation calls the vendor at most once, and only
    with a credential: the call carries [Authorization: Bearer] followed
    by the access token of the latest credential stored, before the run,
    for the tenant the call is for (the tenant id it is given, or for
    assignAccessPrivileges the tenant of the device's row); the run read
    that tenant's credential, and no other tenant's. *)
Theorem vendor_call_carries_the_stored_credential
    (c : Call) (w w' : World) (r : OpResult) (request : FetchRequest.t)
    (o : FetchOutcome) :
  perform c w = (r, w') ->
  In (EvFetch request o) (since w w') ->
  vendor_calls (since w w') = [EvFetch request o]
  /\ exists tenant tok,
       tenant_of c (db w) = Some tenant
       /\ In (EvStore (SelectLatestToken tenant) false) (since w w')
       /\ (forall other err,
             In (EvStore (SelectLatestToken other) err) (since w w') ->
             other = tenant)
       /\ usable_token (latest_token (db w) tenant) = Some tok
       /\ tokens_of tenant (hikvision_tokens (db w)) <> []
       /\ FetchRequest.authorization request = Some ("Bearer " ++ tok).
Proof.
  intros H Hin.
  destruct (perform_more _ _ _ _ H) as (_ & _ & Hlen & Hb & _).
  split.
  { assert (Hf : In (EvFetch request o) (vendor_calls (since w w')))
      by (apply filter_In; split; [exact Hin|reflexivity]).
    destruct (vendor_calls (since w w')) as [|x [|y l]]; cbn in *.
    - contradiction.
    - destruct Hf as [->|[]]. reflexivity.
    - lia. }
  destruct (Hb request o Hin) as (tenant & tok & Hsel & Hu & Ha).
  pose proof (perform_reads_tenant _ _ _ _ _ _ H Hsel) as Ht.
  exists tenant, tok. split; [exact Ht|]. split; [exact Hsel|]. split.
  { intros other err Ho.
    pose proof (perform_reads_tenant _ _ _ _ _ _ H Ho) as Ht'. congruence. }
  split; [exact Hu|]. split; [|exact Ha].
  intros E. unfold latest_token in Hu. rewrite E in Hu. discriminate Hu.
Qed.

(** X4.  A credentialed operation writes to its own mirror table at most:
    testDevice and searchSites leave the store as it was, registerPerson
    may change the person mappings only, assignAccessPrivileges the
    access privileges only, createSite the API settings only; none
    touches the credentials. *)
Theorem operation_writes_only_its_mirror
    (c : Call) (w w' : World) (r : OpResult) :
  perform c w = (r, w') ->
  mirror_only c (db w) (db w')
  /\ hikvision_tokens (db w') = hikvision_tokens (db w)
  /\ hikvision_devices (db w') = hikvision_devices (db w)
  /\ branches (db w') = branches (db w)
  /\ env w' = env w.
Proof.
  intros H.
  destruct (perform_more _ _ _ _ H) as (He & Hm & _).
  split; [exact Hm|].
  destruct c; cbn [mirror_only] in Hm; rewrite Hm; repeat split; auto.
Qed.

(** X5.  When the network fails the vendor call of a credentialed
    operation, or the answer is not JSON, the operation returns
    [{ success: false, error }] with the message of that fault, and the
    store is left as it was. *)
Theorem transport_fault_is_reported_and_nothing_is_stored
    (c : Call) (w w' : World) (r : OpResult) (m : string) :
  perform c w = (r, w') ->
  head_answer (since w w') = Some (NetworkFailure m)
  \/ (exists response,
        head_answer (since w w') = Some (Responded response)
        /\ HttpResponse.json response = SyntaxError m) ->
  r = Failure m /\ db w' = db w.
Proof.
  intros H Hf.
  destruct (perform_more _ _ _ _ H) as (_ & _ & _ & _ & Hn & Hs).
  destruct Hf as [Hf | (response & Hf & Hj)]; eauto.
Qed.


(** X6.  When the vendor accepts a registration (code '0'),
    registerPerson returns the vendor's person id and attempts one upsert
    of the person mapping, carrying that id, the member id, name and
    tenant, with status 'active' and sync status 'success', and the
    gender, phone and email of the request when it has them; an accepted
    upsert appends the row, or updates the row of the same member id,
    whose person id, gender, phone and email stay as stored where the
    payload lacks them; a failure of that upsert is logged once and
    changes neither the result nor the table.  When the accepted body has no [data], reading the person id
    throws: the result is a failure with the engine's message and nothing
    is stored. *)
Theorem registerPerson_mirrors_the_vendor_person
    (s : Settings.t) (p : PersonData.t) (b : string) (w w' : World)
    (r : OpResult) (body : VendorBody.t) :
  registerPerson s p b w = (r, w') ->
  answered_with (head_answer (since w w')) body ->
  strict_eq_str (VendorBody.code body) "0" = true ->
  match VendorBody.data body with
  | None =>
      r = Failure (fault_message (env w) ReadPropertyOfUndefined) /\ db w' = db w
  | Some d =>
      r = PersonSuccess (VendorData.personId d)
      /\ exists row err,
           In (EvStore (UpsertPerson row) err) (since w w')
           /\ PersonRow.person_id row = VendorData.personId d
           /\ PersonRow.member_id row = PersonData.id p
           /\ PersonRow.name row = PersonData.name p
           /\ PersonRow.branch_id row = b
           /\ PersonRow.gender row = PersonData.gender p
           /\ PersonRow.phone row = PersonData.phone p
           /\ PersonRow.email row = PersonData.email p
           /\ PersonRow.status row = "active"
           /\ PersonRow.sync_status row = "success"
           /\ hikvision_persons (db w')
              = (if err : bool then hikvision_persons (db w)
                 else upsert_with (fun r => same_member r row) update_person row
                        (hikvision_persons (db w)))
           /\ logged "Error storing person mapping:" (since w w')
              = (if err then 1 else 0)
  end.
Proof.
  intros H Ha Hc. revert Ha. unfold registerPerson in H.
  minv H; try absurd_run; clean_run.
  all: since_tac; cbn [head_answer]; intros (resp & Ha & Hj);
       try discriminate Ha; injection Ha as <-;
       match goal with
       | E : HttpResponse.json _ = _ |- _ => rewrite Hj in E; try discriminate E;
                                             injection E as <-
       end;
       match goal with
       | E : negb _ = _ |- _ => rewrite Hc in E; try discriminate E
       end.
  all: match goal with E : VendorBody.data _ = _ |- _ => rewrite E end.
  all: try (split; [reflexivity|]).
  all: try reflexivity.
  all: match goal with
       | |- context [EvStore (UpsertPerson ?row) ?err] => exists row, err
       end; cbn; repeat split; auto.
Qed.

Lemma set_site_frame b siteId n t (rows : list SettingsRow.t) :
  map SettingsRow.branch_id (map (set_site b siteId n t) rows)
    = map SettingsRow.branch_id rows
  /\ map SettingsRow.api_url (map (set_site b siteId n t) rows)
     = map SettingsRow.api_url rows
  /\ filter (fun r => negb (SettingsRow.branch_id r =? b)) (map (set_site b siteId n t) rows)
     = filter (fun r => negb (SettingsRow.branch_id r =? b)) rows
  /\ (forall row, In row (map (set_site b siteId n t) rows) ->
        SettingsRow.branch_id row = b ->
        SettingsRow.site_name row = Some n
        /\ (forall i, siteId = Some i -> SettingsRow.site_id row = Some i))
  /\ (siteId = None ->
      map SettingsRow.site_id (map (set_site b siteId n t) rows)
      = map SettingsRow.site_id rows).
Proof.
  induction rows as [|r rows (IH1 & IH2 & IH3 & IH4 & IH5)].
  { simpl. split; [reflexivity|]. split; [reflexivity|]. split; [reflexivity|].
    split; [intros row []|reflexivity]. }
  cbn [map filter].
  assert (Hs : set_site b siteId n t r
               = if SettingsRow.branch_id r =? b
                 then SettingsRow.mk (SettingsRow.branch_id r) (SettingsRow.api_url r)
                        (sent siteId (SettingsRow.site_id r)) (Some n) t
                 else r) by reflexivity.
  rewrite Hs, IH1, IH2, IH3. clear Hs.
  destruct (SettingsRow.branch_id r =? b) eqn:E;
    cbn [SettingsRow.branch_id SettingsRow.api_url SettingsRow.site_id];
    rewrite ?E; cbn [negb].
  - split; [reflexivity|]. split; [reflexivity|]. split; [reflexivity|]. split.
    + intros row [<-|Hin] Hb; [|apply IH4; assumption].
      split; [reflexivity|]. intros i ->. reflexivity.
    + intros ->. cbn [sent]. now rewrite IH5.
  - split; [reflexivity|]. split; [reflexivity|]. split; [reflexivity|]. split.
    + intros row [<-|Hin] Hb.
      * apply String.eqb_neq in E. contradiction.
      * apply IH4; assumption.
    + intros Hn. now rewrite IH5.
Qed.

(** X7.  createSite never changes the API settings of another tenant, nor
    any row's tenant id or API URL.  When the vendor accepts the site
    (code '0'), it returns the vendor's site id with the requested name
    and issues one update keyed on the tenant id; when the store accepts
    that update, every settings row of the tenant holds the new name, and
    the new site id when the vendor gave one (when it gave none, the site
    ids are as stored); when it does not, the failure is logged once and
    the settings are as before, the result still being a success. *)
Theorem createSite_updates_its_tenant_only
    (n b : string) (w w' : World) (r : OpResult) :
  createSite n b w = (r, w') ->
  map SettingsRow.branch_id (hikvision_api_settings (db w'))
    = map SettingsRow.branch_id (hikvision_api_settings (db w))
  /\ map SettingsRow.api_url (hikvision_api_settings (db w'))
     = map SettingsRow.api_url (hikvision_api_settings (db w))
  /\ filter (fun row => negb (SettingsRow.branch_id row =? b))
       (hikvision_api_settings (db w'))
     = filter (fun row => negb (SettingsRow.branch_id row =? b))
         (hikvision_api_settings (db w))
  /\ (forall body,
        answered_with (head_answer (since w w')) body ->
        strict_eq_str (VendorBody.code body) "0" = true ->
        let siteId := match VendorBody.data body with
                      | Some d => VendorData.siteId d
                      | None => None
                      end in
        r = SiteSuccess siteId n
        /\ exists err t,
             In (EvStore (UpdateSettingsSite b siteId n t) err) (since w w')
             /\ (err = false ->
                 hikvision_api_settings (db w')
                 = map (set_site b siteId n t) (hikvision_api_settings (db w))
                 /\ (forall row,
                       In row (hikvision_api_settings (db w')) ->
                       SettingsRow.branch_id row = b ->
                       SettingsRow.site_name row = Some n
                       /\ (forall i, siteId = Some i ->
                                     SettingsRow.site_id row = Some i))
                 /\ (siteId = None ->
                     map SettingsRow.site_id (hikvision_api_settings (db w'))
                     = map SettingsRow.site_id (hikvision_api_settings (db w))))
             /\ (err = true ->
                 hikvision_api_settings (db w') = hikvision_api_settings (db w)
                 /\ logged "Error updating site ID:" (since w w') = 1)).
Proof.
  intros H. unfold createSite in H.
  minv H; try absurd_run; clean_run.
  all: cbn [db emit hikvision_api_settings with_settings].
  all: repeat match goal with
       | |- context [map (fun r : SettingsRow.t => if SettingsRow.branch_id r =? ?b
                                                   then SettingsRow.mk _ _ (sent ?s _)
                                                          (Some ?n) ?t
                                                   else r) ?rows] =>
           change (map (fun r : SettingsRow.t => if SettingsRow.branch_id r =? b
                                                 then SettingsRow.mk (SettingsRow.branch_id r)
                                                        (SettingsRow.api_url r)
                                                        (sent s (SettingsRow.site_id r))
                                                        (Some n) t
                                                 else r) rows)
             with (map (set_site b s n t) rows)
       end.
  all: try match goal with
       | |- context [map (set_site ?b ?s ?n ?t) ?rows] =>
           destruct (set_site_frame b s n t rows) as (F1 & F2 & F3 & F4 & F5)
       end.
  all: (split; [try reflexivity; try exact F1|]).
  all: (split; [try reflexivity; try exact F2|]).
  all: (split; [try reflexivity; try exact F3|]).
  all: intros body; since_tac; cbn [head_answer]; intros (resp & Ha & Hj) Hc;
       try discriminate Ha; injection Ha as <-;
       match goal with
       | E : HttpResponse.json _ = _ |- _ => rewrite Hj in E; try discriminate E;
                                             injection E as <-
       end;
       match goal with
       | E : negb _ = _ |- _ => rewrite Hc in E; try discriminate E
       end.
  all: cbn zeta; (split; [reflexivity|]).
  all: match goal with
       | |- context [EvStore (UpdateSettingsSite _ _ _ ?t) ?err] => exists err, t
       end.
  all: (split; [cbn [In]; tauto|]).
  all: split; [intros E'; try discriminate E';
                try (split; [reflexivity|split; [exact F4|exact F5]])
              | intros E'; try discriminate E'; split; reflexivity].
Qed.

(** ** More on getToken *)

Lemma searchSites_reads s n i w r w' :
  searchSites s n i w = (r, w') ->
  forallb is_read_event (since w w') = true.
Proof.
  intros H. unfold searchSites in H. minv H; try absurd_run.
  all: since_tac; reflexivity.
Qed.

(** The facts about the site search inside a getToken run. *)
Ltac through_searchSites :=
  match goal with
  | H : searchSites ?s ?n ?i ?w1 = (?r0, ?w2) |- _ =>
      let Hext := fresh "Hext" in let Hread := fresh "Hread" in
      let Henv := fresh "Henv" in let Hdb := fresh "Hdb" in
      let Hlen := fresh "Hlen" in
      destruct (searchSites_run _ _ _ _ _ _ H) as (Hext & _);
      pose proof (searchSites_reads _ _ _ _ _ _ H) as Hread;
      destruct (searchSites_more _ _ _ _ _ _ H) as (Henv & Hdb & Hlen & _);
      cbn [mirror_only] in Hdb;
      since_through_searchSites Hext;
      let mid := fresh "mid" in
      set (mid := since w1 w2) in *; clearbody mid
  end.

Lemma head_answer_reads_none (evs : list Event) :
  vendor_calls evs = [] -> head_answer evs = None.
Proof.
  induction evs as [|ev evs IH]; [reflexivity|].
  destruct ev; cbn; auto; discriminate.
Qed.

(** Reads [token_body response] with what the run found in the
    response. *)
Ltac read_body Hb :=
  unfold token_body in Hb;
  repeat match goal with
  | E : (HttpResponse.text _ =? "") = _ |- _ => rewrite E in Hb
  | E : HttpResponse.json _ = _ |- _ => rewrite E in Hb
  end.

(** How getToken turns down an answer. *)
Lemma getToken_rejections a k s b w r w' :
  getToken a k s b w = (r, w') ->
  (forall m,
     head_answer (history w w') = Some (NetworkFailure m) ->
     r = Failure m /\ db w' = db w /\ List.length (since w w') = 2)
  /\ (forall response,
        head_answer (history w w') = Some (Responded response) ->
        token_body response = None ->
        r = Failure ("Invalid JSON response: "
                       ++ substring_utf16 200 (HttpResponse.text response))
        /\ db w' = db w /\ List.length (vendor_calls (since w w')) = 1)
  /\ (forall response body,
        head_answer (history w w') = Some (Responded response) ->
        token_body response = Some body ->
        HttpResponse.ok response = false ->
        r = Failure (or_str (VendorBody.msg body)
                       ("HTTP " ++ to_string (JNum (HttpResponse.status response))
                          ++ " " ++ HttpResponse.statusText response))
        /\ db w' = db w /\ List.length (vendor_calls (since w w')) = 1)
  /\ (forall response body,
        head_answer (history w w') = Some (Responded response) ->
        token_body response = Some body ->
        HttpResponse.ok response = true ->
        truthy (VendorBody.code body) = true ->
        strict_eq_str (VendorBody.code body) "0" = false ->
        r = TokenCodeFailure
              (or_str (VendorBody.msg body)
                 ("Error code: " ++ to_string (VendorBody.code body)))
              (VendorBody.code body)
        /\ db w' = db w /\ List.length (vendor_calls (since w w')) = 1).
Proof.
  intros H. unfold getToken in H. minv H; try absurd_run; clean_run.
  all: unfold history.
  all: try through_searchSites.
  all: since_tac.
  all: rewrite ?rev_app_distr; cbn [rev app]; rewrite <- ?app_assoc;
       cbn [app head_answer].
  all: split; [intros m Ha; try discriminate Ha; injection Ha as <-;
               repeat split; reflexivity|].
  all: split; [intros response' Ha Hb; try discriminate Ha; injection Ha as <-;
               read_body Hb; try discriminate Hb; repeat split; reflexivity|].
  all: split; [intros response' body Ha Hb Hok; try discriminate Ha; injection Ha as <-;
               read_body Hb; try discriminate Hb; injection Hb as <-;
               try match goal with
               | E : negb (HttpResponse.ok _) = false |- _ =>
                   rewrite Hok in E; discriminate E
               end;
               repeat split; reflexivity|].
  all: intros response' body Ha Hb Hok Ht Hn; try discriminate Ha; injection Ha as <-;
       read_body Hb; try discriminate Hb; injection Hb as <-;
       try match goal with
       | E : negb (HttpResponse.ok _) = true |- _ => rewrite Hok in E; discriminate E
       end;
       try match goal with
       | E : truthy _ && _ = false |- _ => rewrite Ht, Hn in E; discriminate E
       end;
       repeat split; reflexivity.
Qed.

Lemma tokens_of_upsert_other (b b' : string) (row : TokenRow.t)
    (rows : list TokenRow.t) :
  b' <> b ->
  TokenRow.branch_id row = b ->
  tokens_of b' (upsert_row (fun r => TokenRow.branch_id r =? b) row rows)
  = tokens_of b' rows.
Proof.
  intros Hne Hb. unfold tokens_of.
  assert (Hrow : (TokenRow.branch_id row =? b') = false)
    by (apply String.eqb_neq; congruence).
  induction rows as [|r rows IH]; simpl.
  - now rewrite Hrow.
  - destruct (TokenRow.branch_id r =? b) eqn:E; simpl.
    + apply String.eqb_eq in E.
      assert (Hr : (TokenRow.branch_id r =? b') = false)
        by (apply String.eqb_neq; congruence).
      now rewrite Hrow, Hr.
    + now rewrite IH.
Qed.

(** What a getToken run may change. *)
Lemma getToken_frame a k s b w r w' :
  getToken a k s b w = (r, w') ->
  env w' = env w
  /\ hikvision_devices (db w') = hikvision_devices (db w)
  /\ hikvision_api_settings (db w') = hikvision_api_settings (db w)
  /\ hikvision_persons (db w') = hikvision_persons (db w)
  /\ hikvision_access_privileges (db w') = hikvision_access_privileges (db w)
  /\ (forall b', b' <> b ->
        tokens_of b' (hikvision_tokens (db w')) = tokens_of b' (hikvision_tokens (db w)))
  /\ map BranchRow.id (branches (db w')) = map BranchRow.id (branches (db w))
  /\ filter (fun row => negb (BranchRow.id row =? b)) (branches (db w'))
     = filter (fun row => negb (BranchRow.id row =? b)) (branches (db w))
  /\ (hikvision_tokens (db w') = hikvision_tokens (db w)
      \/ exists row,
           In (EvStore (UpsertToken row) false) (since w w')
           /\ TokenRow.branch_id row = b
           /\ hikvision_tokens (db w')
              = upsert_row (fun r => TokenRow.branch_id r =? b) row
                  (hikvision_tokens (db w))).
Proof.
  intros H. unfold getToken in H. minv H; try absurd_run; clean_run.
  all: try through_searchSites.
  all: since_tac.
  all: cbn [db emit env] in *.
  all: repeat match goal with
       | H : env _ = _ |- _ => rewrite H
       | H : db _ = _ |- _ => rewrite H
       end.
  all: cbn [db emit env hikvision_devices hikvision_api_settings hikvision_persons
            hikvision_access_privileges hikvision_tokens branches with_tokens
            with_branches TokenRow.branch_id].
  all: repeat match goal with
       | |- context [map (fun r : BranchRow.t => if BranchRow.id r =? ?b
                                                 then BranchRow.mk _ (sent (Site.id ?site) _)
                                                        _ ?t
                                                 else r) ?rows] =>
           change (map (fun r : BranchRow.t =>
                          if BranchRow.id r =? b
                          then BranchRow.mk (BranchRow.id r)
                                 (sent (Site.id site) (BranchRow.hikvision_site_id r))
                                 (sent (Site.name site) (BranchRow.hikvision_site_name r)) t
                          else r) rows)
             with (set_branch_site b site t rows);
           destruct (set_branch_site_frame b site t rows) as (F1 & F2)
       end.
  all: split; [reflexivity|].
  all: split; [reflexivity|].
  all: split; [reflexivity|].
  all: split; [reflexivity|].
  all: split; [reflexivity|].
  all: split; [intros b' Hne;
               first [reflexivity
                     | apply tokens_of_upsert_other; [exact Hne|reflexivity]]|].
  all: split; [try reflexivity; try exact F1|].
  all: split; [try reflexivity; try exact F2|].
  all: try (left; reflexivity).
  all: right; eexists;
       (split; [repeat (apply in_or_app; right); cbn [In];
                first [left; reflexivity | right; left; reflexivity]
               |split; reflexivity]).
Qed.




(** X8.  getToken turns an answer down without touching the store and
    without a second vendor call: a network failure is reported with its
    message; a non-empty body that does not parse with "Invalid JSON
    response: " and the first 200 UTF-16 code units of the body, whatever
    the HTTP status; a status outside 2xx with the body's [msg], or
    "HTTP <status> <statusText>" when there is none; a 2xx body whose
    code is truthy and not '0' with the body's [msg], or
    "Error code: <code>", and the code as errorCode (the catalogue is not
    consulted). *)
Theorem getToken_turns_an_answer_down_without_storing
    (a k s b : string) (w w' : World) (r : OpResult) :
  getToken a k s b w = (r, w') ->
  (forall m,
     head_answer (history w w') = Some (NetworkFailure m) ->
     r = Failure m /\ db w' = db w /\ List.length (since w w') = 2)
  /\ (forall response,
        head_answer (history w w') = Some (Responded response) ->
        token_body response = None ->
        r = Failure ("Invalid JSON response: "
                       ++ substring_utf16 200 (HttpResponse.text response))
        /\ db w' = db w /\ List.length (vendor_calls (since w w')) = 1)
  /\ (forall response body,
        head_answer (history w w') = Some (Responded response) ->
        token_body response = Some body ->
        HttpResponse.ok response = false ->
        r = Failure (or_str (VendorBody.msg body)
                       ("HTTP " ++ to_string (JNum (HttpResponse.status response))
                          ++ " " ++ HttpResponse.statusText response))
        /\ db w' = db w /\ List.length (vendor_calls (since w w')) = 1)
  /\ (forall response body,
        head_answer (history w w') = Some (Responded response) ->
        token_body response = Some body ->
        HttpResponse.ok response = true ->
        truthy (VendorBody.code body) = true ->
        strict_eq_str (VendorBody.code body) "0" = false ->
        r = TokenCodeFailure
              (or_str (VendorBody.msg body)
                 ("Error code: " ++ to_string (VendorBody.code body)))
              (VendorBody.code body)
        /\ db w' = db w /\ List.length (vendor_calls (since w w')) = 1).
Proof. apply getToken_rejections. Qed.



(** X11.  getToken for one tenant leaves every other tenant alone: the
    credentials of any other tenant id and the branch rows of any other
    id are as before, no branch row is added or removed, and the device,
    settings, person and privilege tables are untouched. *)
Theorem getToken_touches_its_tenant_only
    (a k s b : string) (w w' : World) (r : OpResult) :
  getToken a k s b w = (r, w') ->
  (forall b', b' <> b ->
     tokens_of b' (hikvision_tokens (db w')) = tokens_of b' (hikvision_tokens (db w))
     /\ latest_token (db w') b' = latest_token (db w) b')
  /\ map BranchRow.id (branches (db w')) = map BranchRow.id (branches (db w))
  /\ filter (fun row => negb (BranchRow.id row =? b)) (branches (db w'))
     = filter (fun row => negb (BranchRow.id row =? b)) (branches (db w))
  /\ hikvision_devices (db w') = hikvision_devices (db w)
  /\ hikvision_api_settings (db w') = hikvision_api_settings (db w)
  /\ hikvision_persons (db w') = hikvision_persons (db w)
  /\ hikvision_access_privileges (db w') = hikvision_access_privileges (db w).
Proof.
  intros H.
  destruct (getToken_frame _ _ _ _ _ _ _ H)
    as (_ & Hd & Hs & Hp & Hv & Ht & Hi & Hf & _).
  repeat split; auto.
  unfold latest_token. now rewrite Ht.
Qed.



(** ** Examples on concrete runs *)

Import Scenario.

(** An unknown action on an empty store. *)
Lemma invalid_action_400_witness :
  fst (serve (post (request "bogus"))
         (world empty_tables (vendor_code JNull)
            no_fault))
  = Response.mk 400 jsonHeaders (Some (ErrorEnvelope "Invalid action" None)).
Proof.
  refine (f_equal fst (proj1 (invalid_action_400 _ (request "bogus") _ _ _ _))).
  - discriminate.
  - reflexivity.
  - simpl. intuition discriminate.
Defined.

(** getToken without appKey is answered 500 with the guard's message. *)
Lemma missing_field_500_no_vendor_call_witness :
  exists msg,
    In msg required_field_messages
    /\ fst (serve (post getToken_without_appKey) w_fresh)
       = Response.mk 500 jsonHeaders (Some (ErrorEnvelope msg None)).
Proof.
  destruct (missing_field_500_no_vendor_call (post getToken_without_appKey)
              getToken_without_appKey w_fresh)
    as (msg & Hin & Hresp & _);
    [discriminate | reflexivity | reflexivity |].
  exists msg. split; [exact Hin | exact Hresp].
Defined.

(** C1 as first stated fails there: a required field is missing and the
    status is outside the 400 class. *)
Lemma missing_appKey_is_answered_500 :
  missing_required_field getToken_without_appKey = true
  /\ ~ (400 <= Response.status (fst (serve (post getToken_without_appKey) w_fresh)) <= 499)%Z.
Proof. split; [reflexivity|]. vm_compute. intros [_ H]. apply H. reflexivity. Qed.

(** testDevice, the vendor answering code EVZ20002. *)
Lemma vendor_error_message_with_status_200_witness :
  exists body r,
    fst (serve (post testDevice_request) (w_b1 (vendor_code (JStr "EVZ20002"))))
      = Response.mk 200 jsonHeaders (Some body)
    /\ body_for "testDevice" r body
    /\ is_code_failure r (JStr "EVZ20002").
Proof.
  destruct (vendor_error_message_with_status_200 (post testDevice_request)
              testDevice_request (w_b1 (vendor_code (JStr "EVZ20002")))
              (VendorBody.mk (JStr "EVZ20002") None None))
    as (body & r & H1 & H2 & H3 & _).
  - discriminate.
  - reflexivity.
  - simpl. tauto.
  - eexists. split; vm_compute; reflexivity.
  - reflexivity.
  - exists body, r. auto.
Defined.

(** C2 as first stated fails there: the catalogue gives EVZ20002 the
    status 404, the response has status 200. *)
Lemma catalogued_status_is_not_surfaced :
  getHikvisionError (JStr "EVZ20002") = ErrorEntry (mkError "Device does not exist" 404)
  /\ answered_with
       (head_answer (since (w_b1 (vendor_code (JStr "EVZ20002")))
                       (snd (serve (post testDevice_request)
                               (w_b1 (vendor_code (JStr "EVZ20002")))))))
       (VendorBody.mk (JStr "EVZ20002") None None)
  /\ Response.status (fst (serve (post testDevice_request)
                             (w_b1 (vendor_code (JStr "EVZ20002"))))) = 200%Z
  /\ Response.status (fst (serve (post testDevice_request)
                             (w_b1 (vendor_code (JStr "EVZ20002"))))) <> 404%Z.
Proof.
  split; [reflexivity|]. split; [eexists; split; vm_compute; reflexivity|].
  split; [reflexivity|]. vm_compute. discriminate.
Qed.


(** Three doors, the upsert of door "2" rejected: three attempts, one
    console.error line, success. *)
Lemma assign_attempts_one_upsert_per_door_witness :
  fst assign_call = PrivilegesSuccess
  /\ map fst (privilege_upserts
                (history (world tables_b1 (vendor_code (JStr "0")) fail_door_2)
                   (snd assign_call)))
     = [("m-1", "1"); ("m-1", "2"); ("m-1", "3")]
  /\ logged "Error storing access privilege:"
       (since (world tables_b1 (vendor_code (JStr "0")) fail_door_2) (snd assign_call))
     = 1.
Proof.
  destruct (assign_attempts_one_upsert_per_door "dev-1" "m-1" three_doors None None
              (world tables_b1 (vendor_code (JStr "0")) fail_door_2)
              (snd assign_call) (fst assign_call)
              (VendorBody.mk (JStr "0") None None))
    as (H1 & _ & H2 & _ & H3 & _).
  - apply surjective_pairing.
  - eexists. split; vm_compute; reflexivity.
  - reflexivity.
  - split; [exact H1|]. split; [exact H2|]. rewrite H3. vm_compute. reflexivity.
Defined.

(** testDevice with an apiUrl for a tenant without credentials. *)
Lemma no_credential_fixed_failure_status_200_witness :
  fst testDevice_unauthenticated
  = Response.mk 200 jsonHeaders (Some (Envelope (Failure no_token_message)))
  /\ vendor_calls (since (world tables_no_token (vendor_code (JStr "0")) no_fault)
                     (snd testDevice_unauthenticated)) = [].
Proof.
  destruct (no_credential_fixed_failure_status_200 (post testDevice_request)
              testDevice_request
              (world tables_no_token (vendor_code (JStr "0")) no_fault) "b1")
    as (body & _ & H1 & H2 & _ & _ & H3 & _).
  - discriminate.
  - reflexivity.
  - reflexivity.
  - reflexivity.
  - split; [|exact H3].
    unfold testDevice_unauthenticated. rewrite H1.
    destruct H2 as [(_ & ->) | (Hin & _)]; [reflexivity|].
    simpl in Hin. exfalso. intuition discriminate.
Defined.

(** C6 as first stated fails there: no credential is stored, and
    searchSites without an apiUrl fails with another message. *)
Lemma unauthenticated_searchSites_without_apiUrl :
  hikvision_tokens empty_tables = []
  /\ Response.body (fst (serve (post searchSites_bare)
                           (world empty_tables (vendor_code (JStr "0")) no_fault)))
     = Some (Envelope (Failure "Hikvision API URL not configured"))
  /\ Failure "Hikvision API URL not configured" <> Failure no_token_message.
Proof. split; [reflexivity|]. split; [reflexivity|]. discriminate. Qed.

(** getToken on a store where tenant "b1" has a branch row: the row
    takes the first listed site. *)
Lemma getToken_resolves_site_witness :
  fst getToken_b1
  = TokenSuccess (Some "tok-k1") (Some "bearer") 9000000 (Some "https://in.example")
      (Some "site-1") (Some "Gym A")
  /\ exists t2,
       branches (db (snd getToken_b1))
       = [BranchRow.mk "b1" (Some "site-1") (Some "Gym A") t2].
Proof.
  destruct (getToken_resolves_site "https://api.example" "k1" "secret" "b1"
              (w_b1 (vendor_ok (JStr "0") [site_a])) (snd getToken_b1) (fst getToken_b1))
    as (response & d & expire & row & tok & response2 & body2 & uerr & t2
        & _ & _ & _ & _ & _ & _ & Hr & Hbr & Hlog & _).
  - apply surjective_pairing.
  - vm_compute. reflexivity.
  - split; [vm_compute; reflexivity|].
    exists t2. rewrite Hbr.
    vm_compute in Hlog. destruct uerr; [discriminate Hlog|].
    cbn zeta in Hr.
    remember (first_or_default (listed_sites body2)) as site eqn:Hsite.
    assert (E : fst getToken_b1
                = TokenSuccess (Some "tok-k1") (Some "bearer") 9000000
                    (Some "https://in.example") (Some "site-1") (Some "Gym A"))
      by (vm_compute; reflexivity).
    rewrite E in Hr. injection Hr as _ _ _ _ Hid Hname.
    unfold set_branch_site. cbn. rewrite <- Hid, <- Hname. reflexivity.
Defined.

(** C7 as first stated fails there: the call succeeds and names site
    "site-1", the store refuses the update, and the branch row of the
    tenant still holds the earlier site. *)
Lemma refused_site_update_is_still_success :
  success (fst getToken_update_refused) = true
  /\ fst getToken_update_refused
     = TokenSuccess (Some "tok-k1") (Some "bearer") 9000000 (Some "https://in.example")
         (Some "site-1") (Some "Gym A")
  /\ branches (db (snd getToken_update_refused))
     = [BranchRow.mk "b1" (Some "old-site") (Some "Old Gym") 0]
  /\ logged "Error updating branch with site info:"
       (since (world tables_used (vendor_ok (JStr "0") [site_a]) refuse_branch_update)
          (snd getToken_update_refused)) = 1.
Proof. repeat split; vm_compute; reflexivity. Qed.

(** One body without a code: no errorCode from getToken, errorCode
    undefined from testDevice. *)
Lemma absent_code_is_success_for_getToken_only_witness :
  errorCode_of (fst getToken_without_code) = None
  /\ errorCode_of (fst testDevice_without_code) = Some JUndefined.
Proof.
  destruct (absent_code_is_success_for_getToken_only
              "https://api.example" "k1" "secret" "b1"
              (world empty_tables (vendor_fixed body_without_code) no_fault)
              (snd getToken_without_code) (fst getToken_without_code)
              (HttpResponse.mk 200 "OK" "{...}" (Parsed body_without_code))
              body_without_code
              (TestDevice (Settings.mk "https://api.example" "b1" (Some "dev-1")))
              (w_b1 (vendor_fixed body_without_code))
              (snd testDevice_without_code) (fst testDevice_without_code))
    as ((H1 & _) & (_ & _ & H2)).
  - reflexivity.
  - apply surjective_pairing.
  - vm_compute. reflexivity.
  - reflexivity.
  - reflexivity.
  - apply surjective_pairing.
  - eexists. split; vm_compute; reflexivity.
  - split; [exact H1 | exact H2].
Defined.

(** getToken without a branchId reads and writes under "default". *)
Lemma omitted_branchId_is_default_witness :
  branchId_of (getToken_request "k1" None) = "default"
  /\ Forall (fun ev => forall key, tenant_key ev = Some key -> key = "default")
       (since w_fresh (snd getToken_default)).
Proof.
  destruct (omitted_branchId_is_default (post (getToken_request "k1" None))
              (getToken_request "k1" None) w_fresh)
    as (H & _).
  - discriminate.
  - reflexivity.
  - destruct (H eq_refl) as (H1 & _ & _ & H2).
    split; [exact H1|]. apply H2. discriminate.
Defined.

(** C10 as first stated fails there: with [branchId: ""] the guard of
    registerPerson is reached. *)
Lemma empty_branchId_reaches_the_guard :
  branchId_of registerPerson_empty_branch = ""
  /\ fst (serve (post registerPerson_empty_branch) (w_b1 (vendor_code (JStr "0"))))
     = Response.mk 500 jsonHeaders
         (Some (ErrorEnvelope "branchId is required for registerPerson action" None)).
Proof. split; reflexivity. Qed.

(** ** More examples on concrete runs *)

(** getToken without appKey: status 500, two console lines, no change. *)
Lemma status_500_means_nothing_was_done_witness :
  history w_fresh (snd (serve (post getToken_without_appKey) w_fresh))
    = [EvConsoleError "Error handling request:"; EvConsoleError "Error details:"]
  /\ db (snd (serve (post getToken_without_appKey) w_fresh)) = db w_fresh.
Proof.
  destruct (status_500_means_nothing_was_done (post getToken_without_appKey) w_fresh)
    as (H1 & H2 & _).
  - reflexivity.
  - split; [exact H1 | exact H2].
Defined.

(** testDevice for tenant "b1": one vendor call, with the stored token. *)
Lemma vendor_call_carries_the_stored_credential_witness :
  exists request o,
    vendor_calls (since (w_b1 (vendor_code (JStr "0"))) (snd testDevice_b1))
      = [EvFetch request o]
    /\ FetchRequest.authorization request = Some "Bearer tok-0".
Proof.
  edestruct (vendor_call_carries_the_stored_credential (TestDevice settings_b1)
               (w_b1 (vendor_code (JStr "0"))) (snd testDevice_b1) (fst testDevice_b1))
    as (H1 & tenant & tok & Ht & _ & _ & Hu & _ & Ha).
  - apply surjective_pairing.
  - vm_compute. left. reflexivity.
  - eexists. eexists. split; [exact H1|].
    rewrite Ha. injection Ht as <-. vm_compute in Hu.
    injection Hu as <-. reflexivity.
Defined.

(** testDevice leaves every table as it was. *)
Lemma operation_writes_only_its_mirror_witness :
  db (snd testDevice_b1) = tables_b1.
Proof.
  destruct (operation_writes_only_its_mirror (TestDevice settings_b1)
              (w_b1 (vendor_code (JStr "0"))) (snd testDevice_b1) (fst testDevice_b1))
    as (H & _).
  - apply surjective_pairing.
  - exact H.
Defined.

(** testDevice with the vendor out of reach. *)
Lemma transport_fault_is_reported_and_nothing_is_stored_witness :
  fst testDevice_offline = Failure "connection refused"
  /\ db (snd testDevice_offline) = tables_b1.
Proof.
  apply (transport_fault_is_reported_and_nothing_is_stored (TestDevice settings_b1)
           (w_b1 vendor_down)).
  - apply surjective_pairing.
  - left. vm_compute. reflexivity.
Defined.

(** Alice registered again with her name only: the stored gender and
    phone stay, the person id is the new one. *)
Lemma registerPerson_mirrors_the_vendor_person_witness :
  fst registerPerson_again = PersonSuccess (Some "p-9")
  /\ map PersonRow.person_id (hikvision_persons (db (snd registerPerson_again)))
     = [Some "p-9"]
  /\ map PersonRow.gender (hikvision_persons (db (snd registerPerson_again)))
     = [Some "female"]
  /\ map PersonRow.phone (hikvision_persons (db (snd registerPerson_again)))
     = [Some "555-0100"].
Proof.
  pose proof (registerPerson_mirrors_the_vendor_person settings_b1 alice "b1"
                (world tables_used (vendor_without_sites (JStr "0")) no_fault)
                (snd registerPerson_again) (fst registerPerson_again)
                (VendorBody.mk (JStr "0") None
                   (Some (VendorData.mk None None None None None (Some "p-9")
                            (Some "site-9") None)))) as H.
  cbn [VendorBody.data VendorData.personId] in H.
  destruct H as (Hr & row & err & _ & Hp & Hm & _ & _ & Hg & Hph & Hem & _ & _ & Htab & Hlog).
  - apply surjective_pairing.
  - eexists. split; vm_compute; reflexivity.
  - reflexivity.
  - split; [exact Hr|].
    vm_compute in Hlog. destruct err; [discriminate Hlog|].
    rewrite Htab. destruct row. cbn in Hp, Hm, Hg, Hph, Hem. subst.
    repeat split.
Defined.

(** createSite, the vendor giving no site id: the stored site id stays,
    the name is the new one. *)
Lemma createSite_updates_its_tenant_only_witness :
  fst createSite_unnamed = SiteSuccess None "Gym B"
  /\ map SettingsRow.site_id (hikvision_api_settings (db (snd createSite_unnamed)))
     = [Some "old-site"]
  /\ (forall row,
        In row (hikvision_api_settings (db (snd createSite_unnamed))) ->
        SettingsRow.branch_id row = "b1" -> SettingsRow.site_name row = Some "Gym B").
Proof.
  destruct (createSite_updates_its_tenant_only "Gym B" "b1"
              (world tables_used (vendor_code (JStr "0")) no_fault)
              (snd createSite_unnamed) (fst createSite_unnamed))
    as (_ & _ & _ & H4).
  - apply surjective_pairing.
  - destruct (H4 (VendorBody.mk (JStr "0") None None))
      as (Hr & err & t & _ & Hok & Hko).
    + eexists. split; vm_compute; reflexivity.
    + reflexivity.
    + split; [exact Hr|].
      destruct err.
      * destruct (Hko eq_refl) as (_ & Hlog). vm_compute in Hlog. discriminate Hlog.
      * destruct (Hok eq_refl) as (_ & Hrows & Hids).
        split; [rewrite (Hids eq_refl); reflexivity|].
        intros row Hin Hb. apply (Hrows row Hin Hb).
Defined.

(** getToken with the vendor out of reach. *)
Lemma getToken_turns_an_answer_down_without_storing_witness :
  fst getToken_offline = Failure "connection refused"
  /\ db (snd getToken_offline) = empty_tables.
Proof.
  destruct (getToken_turns_an_answer_down_without_storing
              "https://api.example" "k1" "secret" "b1"
              (world empty_tables vendor_down no_fault)
              (snd getToken_offline) (fst getToken_offline))
    as (H & _).
  - apply surjective_pairing.
  - destruct (H "connection refused") as (H1 & H2 & _).
    + vm_compute. reflexivity.
    + split; [exact H1 | exact H2].
Defined.



(** getToken for "b2" leaves the credential of "b1" alone. *)
Lemma getToken_touches_its_tenant_only_witness :
  latest_token (db (snd getToken_b2)) "b1" = Some (token_row "b1").
Proof.
  destruct (getToken_touches_its_tenant_only
              "https://api.example" "k2" "secret" "b2"
              (w_b1 (vendor_ok (JStr "0") [site_a]))
              (snd getToken_b2) (fst getToken_b2))
    as (H & _).
  - apply surjective_pairing.
  - destruct (H "b1") as (_ & ->); [discriminate | reflexivity].
Defined.


(** The catalogue entry of EVZ20007. *)
Lemma getHikvisionError_catalogued_witness :
  getHikvisionError (JStr "EVZ20007") = ErrorEntry (mkError "The device is offline" 503).
Proof.
  apply getHikvisionError_catalogued.
  vm_compute. tauto.
Defined.

(** A code the catalogue does not list. *)
Lemma getHikvisionError_fallback_witness :
  getHikvisionError (JStr "EVZ99999")
  = ErrorEntry (mkError "Hikvision error: EVZ99999" 400).
Proof.
  destruct (getHikvisionError_fallback "EVZ99999") as (H & _).
  - reflexivity.
  - reflexivity.
  - exact H.
Defined.

(* ================================================================== *)
(** * Properties of the event mirror *)

Import Events.

(** ** The event mirror *)


Lemma insert_newest_perm instant r l :
  Permutation (insert_newest instant r l) (r :: l).
Proof.
  induction l as [|x l IH]; simpl; [reflexivity|].
  destruct (_ <? _)%Z; [reflexivity|].
  rewrite IH. apply perm_swap.
Qed.

Lemma newest_first_perm instant l : Permutation (newest_first instant l) l.
Proof.
  induction l as [|r l IH]; simpl; [reflexivity|].
  rewrite insert_newest_perm. now constructor.
Qed.

Lemma insert_newest_sorted instant r l :
  Sorted (not_older instant) l -> Sorted (not_older instant) (insert_newest instant r l).
Proof.
  induction l as [|x l IH]; simpl; intros Hs.
  - repeat constructor.
  - destruct (instant (event_time (data x)) <? instant (event_time (data r)))%Z eqn:E.
    + constructor; [exact Hs|]. constructor. unfold not_older. lia.
    + inversion Hs as [|? ? Hs' Hhd]; subst.
      constructor; [apply IH; exact Hs'|].
      destruct l as [|y l]; simpl.
      * constructor. unfold not_older. lia.
      * destruct (instant (event_time (data y)) <? instant (event_time (data r)))%Z.
        -- constructor. unfold not_older. lia.
        -- inversion Hhd; subst. constructor. assumption.
Qed.

Lemma newest_first_sorted instant l : Sorted (not_older instant) (newest_first instant l).
Proof.
  induction l as [|r l IH]; simpl; [constructor|].
  apply insert_newest_sorted, IH.
Qed.

Lemma Sorted_firstn {A : Type} (R : A -> A -> Prop) (n : nat) (l : list A) :
  Sorted R l -> Sorted R (firstn n l).
Proof.
  revert l. induction n as [|n IH]; intros l Hs; [constructor|].
  destruct l as [|x l]; [constructor|]. simpl.
  inversion Hs as [|? ? Hs' Hhd]; subst.
  constructor; [apply IH; exact Hs'|].
  destruct n; [constructor|].
  destruct l as [|y l]; [constructor|]. simpl.
  inversion Hhd; subst. constructor. assumption.
Qed.

Lemma In_firstn {A : Type} (x : A) (n : nat) (l : list A) :
  In x (firstn n l) -> In x l.
Proof.
  revert l. induction n as [|n IH]; intros [|y l]; simpl; try contradiction.
  intros [->|H]; [now left|right; auto].
Qed.


(** X13.  What handleEventWebhook does with a delivery, by its result.
    Processed: the body had an event type and an event time, the store
    accepted the insert, and the table is the old one followed by exactly
    that event.  Rejected ("Invalid webhook data"): the event type or the
    event time is missing, and nothing at all was done.  Failed: the
    table is as before; either the body was not JSON and no insert was
    requested, or the store refused the one insert. *)
Theorem webhook_is_stored_exactly_when_processed
    (body : WebhookBody) (answer : InsertAnswer) (st : Store) :
  let r := fst (handleEventWebhook body answer st) in
  let st' := snd (handleEventWebhook body answer st) in
  match r with
  | Processed =>
      exists webhookData id,
        body = Delivered webhookData /\ answer = Inserted id
        /\ truthy_str (eventType webhookData) = true
        /\ truthy_str (eventTime webhookData) = true
        /\ hikvision_events st'
           = (hikvision_events st ++ [mkEventRow id (event_of webhookData)])%list
        /\ insert_requests (effects st')
           = event_of webhookData :: insert_requests (effects st)
  | Rejected =>
      exists webhookData,
        body = Delivered webhookData
        /\ (truthy_str (eventType webhookData) = false
            \/ truthy_str (eventTime webhookData) = false)
        /\ st' = st
  | WebhookFailed m =>
      hikvision_events st' = hikvision_events st
      /\ ((body = BadJson m
           /\ insert_requests (effects st') = insert_requests (effects st))
          \/ (exists webhookData error,
                body = Delivered webhookData /\ answer = InsertRefused error
                /\ m = caught_message error "Unknown error handling webhook"
                /\ insert_requests (effects st')
                   = event_of webhookData :: insert_requests (effects st)))
  end.
Proof.
  unfold handleEventWebhook.
  destruct body as [m|d]; cbn [fst snd].
  - split; [reflexivity|]. left. split; reflexivity.
  - destruct (truthy_str (eventType d)) eqn:E1; cbn [negb orb].
    + destruct (truthy_str (eventTime d)) eqn:E2; cbn [negb orb fst snd].
      * destruct answer as [id|error]; cbn [fst snd].
        -- exists d, id. repeat (split; [first [reflexivity|assumption]|]). reflexivity.
        -- split; [reflexivity|]. right. exists d, error.
           repeat (split; [reflexivity|]). reflexivity.
      * exists d. auto.
    + exists d. auto.
Qed.

Lemma webhook_outcome_processed (webhookData : Webhook) (id : Z) (st st1 : Store) :
  handleEventWebhook (Delivered webhookData) (Inserted id) st = (Processed, st1) ->
  hikvision_events st1
  = (hikvision_events st ++ [mkEventRow id (event_of webhookData)])%list.
Proof.
  unfold handleEventWebhook.
  destruct (negb (truthy_str (eventType webhookData))
            || negb (truthy_str (eventTime webhookData))); [discriminate|].
  intros [= <-]. reflexivity.
Qed.

(** X14.  Nothing removes duplicates: when the same valid webhook is
    delivered twice and the store accepts both inserts, the table ends
    with two rows holding the same event, one per delivery, after the
    rows it had (which are kept, in order). *)
Theorem redelivered_webhook_is_stored_twice
    (webhookData : Webhook) (id1 id2 : Z) (st : Store) :
  truthy_str (eventType webhookData) = true ->
  truthy_str (eventTime webhookData) = true ->
  let st1 := snd (handleEventWebhook (Delivered webhookData) (Inserted id1) st) in
  let st2 := snd (handleEventWebhook (Delivered webhookData) (Inserted id2) st1) in
  fst (handleEventWebhook (Delivered webhookData) (Inserted id2) st1) = Processed
  /\ hikvision_events st2
     = (hikvision_events st
        ++ [mkEventRow id1 (event_of webhookData);
            mkEventRow id2 (event_of webhookData)])%list.
Proof.
  intros E1 E2. unfold handleEventWebhook. rewrite E1, E2. cbn.
  split; [reflexivity|]. now rewrite <- app_assoc.
Qed.

Lemma matches_spec (branchId : string) (personId : option string) (r : EventRow) :
  matches branchId personId r = true ->
  branch_id (data r) = branchId
  /\ (forall p, if_truthy personId = Some p -> person_id (data r) = Some p).
Proof.
  unfold matches. intros H. apply andb_true_iff in H as [Hb Hp].
  apply String.eqb_eq in Hb. split; [exact Hb|].
  intros p Ep. rewrite Ep in Hp.
  destruct (person_id (data r)) as [q|]; [|discriminate].
  apply String.eqb_eq in Hp. now subst.
Qed.

(** X15.  When the store answers, getEvents returns the views of at most
    [limit] rows (10 when no limit is given), all of them rows of the
    table that belong to the tenant asked for, and to the person when a
    person id is given, ordered newest first; when the tenant (and
    person) has no more than [limit] rows, none of them is missing.  It
    leaves the table as it was. *)
Theorem getEvents_returns_the_newest_of_the_tenant
    (instant : string -> Z) (settings : Settings.t) (branchId : string)
    (personId : option string) (limit : option nat) (st : Store) :
  exists rows,
    fst (getEvents instant settings branchId personId limit None st)
      = EventsSuccess (map view rows)
    /\ List.length rows <= limit_of limit
    /\ Sorted (not_older instant) rows
    /\ (forall r, In r rows ->
          In r (hikvision_events st)
          /\ branch_id (data r) = branchId
          /\ (forall p, if_truthy personId = Some p -> person_id (data r) = Some p))
    /\ (List.length (filter (matches branchId personId) (hikvision_events st))
          <= limit_of limit ->
        forall r, In r (hikvision_events st) ->
                  matches branchId personId r = true -> In r rows)
    /\ hikvision_events
         (snd (getEvents instant settings branchId personId limit None st))
       = hikvision_events st.
Proof.
  exists (select_events instant branchId personId (limit_of limit) (hikvision_events st)).
  unfold getEvents, select_events. cbn [fst snd did hikvision_events].
  split; [reflexivity|].
  split; [apply firstn_le_length|].
  split; [apply Sorted_firstn, newest_first_sorted|].
  split.
  { intros r Hin. apply In_firstn in Hin.
    apply (Permutation_in _ (newest_first_perm instant _)) in Hin.
    apply filter_In in Hin as [Hin Hm].
    destruct (matches_spec _ _ _ Hm). auto. }
  split; [|reflexivity].
  intros Hlen r Hin Hm.
  rewrite firstn_all2
    by (rewrite (Permutation_length (newest_first_perm instant _)); exact Hlen).
  apply (Permutation_in _ (Permutation_sym (newest_first_perm instant _))).
  apply filter_In. auto.
Qed.

(** X16.  An event that handleEventWebhook stored is found again: after a
    processed delivery, getEvents for the tenant the event was filed
    under (the webhook's branchId, or 'unknown') returns its view, as
    long as the limit covers the tenant's rows. *)
Theorem stored_event_is_listed
    (instant : string -> Z) (settings : Settings.t) (webhookData : Webhook)
    (id : Z) (limit : option nat) (st st1 : Store) :
  handleEventWebhook (Delivered webhookData) (Inserted id) st = (Processed, st1) ->
  List.length (filter (matches (or_str (branchId webhookData) "unknown") None)
                 (hikvision_events st1)) <= limit_of limit ->
  exists events,
    fst (getEvents instant settings (or_str (branchId webhookData) "unknown")
           None limit None st1) = EventsSuccess events
    /\ In (view (mkEventRow id (event_of webhookData))) events.
Proof.
  intros H Hlen.
  pose proof (webhook_outcome_processed webhookData id st st1 H) as Htab.
  unfold getEvents. cbn [fst]. eexists. split; [reflexivity|].
  apply in_map. unfold select_events.
  rewrite firstn_all2
    by (rewrite (Permutation_length (newest_first_perm instant _)); exact Hlen).
  apply (Permutation_in _ (Permutation_sym (newest_first_perm instant _))).
  apply filter_In. split.
  - rewrite Htab. apply in_or_app. right. now left.
  - unfold matches. cbn. now rewrite String.eqb_refl.
Qed.

(** The door event delivered twice to an empty table. *)
Lemma redelivered_webhook_is_stored_twice_witness :
  hikvision_events
    (snd (handleEventWebhook (Delivered door_opened) (Inserted 2)
            (snd (handleEventWebhook (Delivered door_opened) (Inserted 1)
                    empty_store))))
  = [mkEventRow 1 (event_of door_opened); mkEventRow 2 (event_of door_opened)].
Proof.
  destruct (redelivered_webhook_is_stored_twice door_opened 1 2 empty_store)
    as (_ & H).
  - reflexivity.
  - reflexivity.
  - exact H.
Defined.

(** The door event is listed for tenant "b1" once it is stored. *)
Lemma stored_event_is_listed_witness :
  exists events,
    fst (getEvents any_instant (Settings.mk "https://api.example" "b1" None) "b1"
           None None None
           (snd (handleEventWebhook (Delivered door_opened) (Inserted 1) empty_store)))
      = EventsSuccess events
    /\ In (view (mkEventRow 1 (event_of door_opened))) events.
Proof.
  apply (stored_event_is_listed any_instant (Settings.mk "https://api.example" "b1" None)
           door_opened 1 None empty_store).
  - reflexivity.
  - vm_compute. lia.
Defined.

(* ================================================================== *)
(** * Properties of the storage service *)

Import Storage.

Lemma listings_app (l1 l2 : list Effect) :
  listings (l1 ++ l2) = (listings l1 ++ listings l2)%list.
Proof.
  induction l1 as [|e l1 IH]; [reflexivity|].
  destruct e; cbn; rewrite IH; reflexivity.
Qed.

Lemma toasts_app (l1 l2 : list Effect) :
  toasts (l1 ++ l2) = (toasts l1 ++ toasts l2)%list.
Proof.
  induction l1 as [|e l1 IH]; [reflexivity|].
  destruct e; cbn; rewrite IH; reflexivity.
Qed.

Lemma error_toasts_app (l1 l2 : list Effect) :
  error_toasts (l1 ++ l2) = (error_toasts l1 ++ error_toasts l2)%list.
Proof.
  induction l1 as [|e l1 IH]; [reflexivity|].
  destruct e; cbn; rewrite IH; reflexivity.
Qed.

Lemma written_buckets_app (l1 l2 : list Effect) :
  written_buckets (l1 ++ l2) = (written_buckets l1 ++ written_buckets l2)%list.
Proof.
  induction l1 as [|e l1 IH]; [reflexivity|].
  destruct e; cbn; rewrite IH; reflexivity.
Qed.

Lemma inaccessible_app (l1 l2 : list (string * bool)) :
  inaccessible (l1 ++ l2) = (inaccessible l1 ++ inaccessible l2)%list.
Proof. unfold inaccessible. now rewrite filter_app, map_app. Qed.

(** One turn of the loop: one listing of the bucket, and a toast exactly
    when it did not answer. *)
Lemma check_bucket_run (api : Api) (bucket : string) (log : Log) :
  exists evs,
    check_bucket api bucket log = (evs ++ log)%list
    /\ map fst (listings (rev evs)) = [bucket]
    /\ toasts (rev evs) = map not_accessible (inaccessible (listings (rev evs)))
    /\ written_buckets (rev evs) = []
    /\ error_toasts (rev evs) = [].
Proof.
  unfold check_bucket, bucketExists.
  destruct (list_files api (List.length log) bucket NoOptions) eqn:E; cbn.
  - exists [ListFiles bucket NoOptions Listed]. repeat split.
  - exists [Toast (not_accessible bucket)
              "Some file upload features may not work correctly." 5000;
            ListFiles bucket NoOptions ListError]. repeat split.
  - exists [Toast (not_accessible bucket)
              "Some file upload features may not work correctly." 5000;
            ListFiles bucket NoOptions ListThrew]. repeat split.
Qed.

Lemma check_buckets_run (api : Api) (buckets : list string) :
  forall log,
  exists evs,
    check_buckets api buckets log = (evs ++ log)%list
    /\ map fst (listings (rev evs)) = buckets
    /\ toasts (rev evs) = map not_accessible (inaccessible (listings (rev evs)))
    /\ written_buckets (rev evs) = []
    /\ error_toasts (rev evs) = [].
Proof.
  induction buckets as [|b bs IH]; intros log.
  - exists []. repeat split.
  - cbn [check_buckets fold_left].
    destruct (check_bucket_run api b log) as (e1 & -> & L1 & T1 & W1 & R1).
    destruct (IH (e1 ++ log)%list) as (e2 & H2 & L2 & T2 & W2 & R2).
    unfold check_buckets in H2. rewrite H2.
    exists (e2 ++ e1)%list. rewrite app_assoc. split; [reflexivity|].
    rewrite rev_app_distr, listings_app, toasts_app, written_buckets_app,
      error_toasts_app, inaccessible_app, !map_app, L1, L2, T1, T2, W1, W2, R1, R2.
    repeat split.
Qed.

(** X17.  ensureStorageBucketsExist only looks: it never uploads or
    removes anything and shows no error toast.  For a signed-in user it
    lists each of the seven required buckets once, in their order, and
    shows one "not accessible" toast for each bucket that did not answer,
    in that order; when nobody is signed in, or the user cannot be read,
    it lists nothing and shows nothing. *)
Theorem ensureStorageBucketsExist_checks_each_bucket_once
    (api : Api) (log : Log) :
  exists evs,
    ensureStorageBucketsExist api log = (evs ++ log)%list
    /\ map fst (listings (rev evs))
       = match getUser api (List.length log) with
         | SignedIn => requiredBuckets
         | _ => []
         end
    /\ toasts (rev evs) = map not_accessible (inaccessible (listings (rev evs)))
    /\ written_buckets (rev evs) = []
    /\ error_toasts (rev evs) = [].
Proof.
  unfold ensureStorageBucketsExist.
  destruct (getUser api (List.length log)) eqn:E.
  - destruct (check_buckets_run api requiredBuckets (GetUser SignedIn :: log))
      as (evs & -> & L & T & W & R).
    exists (evs ++ [GetUser SignedIn])%list.
    rewrite <- app_assoc. split; [reflexivity|].
    rewrite rev_app_distr. cbn [rev app listings toasts written_buckets error_toasts].
    auto.
  - exists [GetUser NoUser]. repeat split.
  - exists [GetUser GetUserThrew]. repeat split.
Qed.

(** X18.  uploadFile returns a URL only after the bucket answered the
    listing and the upload stored the file; the URL is the public URL of
    the path the upload reported, and no toast is shown.  Otherwise it
    returns null and shows exactly one error toast.  It sends at most one
    upload, to the bucket asked for, and none when the bucket did not
    answer the listing. *)
Theorem uploadFile_uploads_only_to_a_listed_bucket
    (api : Api) (bucketName filePath : string) (file : File) (log : Log) :
  exists evs,
    snd (uploadFile api bucketName filePath file log) = (evs ++ log)%list
    /\ listings (rev evs)
       = [(bucketName, listed (list_files api (List.length log) bucketName FirstOnly))]
    /\ written_buckets (rev evs)
       = (if listed (list_files api (List.length log) bucketName FirstOnly)
          then [bucketName] else [])
    /\ toasts (rev evs) = []
    /\ match fst (uploadFile api bucketName filePath file log) with
       | Some url =>
           exists path,
             rev evs = [ListFiles bucketName FirstOnly Listed; Now;
                        Upload bucketName filePath file "3600" true (type file)
                          (Uploaded path);
                        GetPublicUrl bucketName path]
             /\ url = publicUrl api bucketName path
       | None => exists message, error_toasts (rev evs) = [message]
       end.
Proof.
  unfold uploadFile, getBucketMetadata.
  destruct (list_files api (List.length log) bucketName FirstOnly) eqn:El;
    cbn [listed fst snd].
  - match goal with
    | |- context [upload api ?n bucketName filePath file] =>
        destruct (upload api n bucketName filePath file) eqn:Eu
    end; cbn [fst snd];
      eexists (_ :: _ :: _ :: _ :: nil); (split; [reflexivity|]); cbn;
      repeat (split; [reflexivity|]); eexists; try split; reflexivity.
  - eexists (_ :: _ :: nil). split; [reflexivity|]. cbn.
    repeat (split; [reflexivity|]). eexists. reflexivity.
  - eexists (_ :: _ :: nil). split; [reflexivity|]. cbn.
    repeat (split; [reflexivity|]). eexists. reflexivity.
Qed.

(* ================================================================== *)
(** * Properties of the trainer sidebar *)

Import TrainerSidebar.

Lemma includes_In (l : list string) (s : string) : includes l s = true <-> In s l.
Proof.
  unfold includes. rewrite existsb_exists. split.
  - intros (x & Hin & E). apply String.eqb_eq in E. now subst.
  - intros H. exists s. split; [exact H|apply String.eqb_refl].
Qed.

Lemma includes_toggleSection (l : list string) (s n : string) :
  includes (toggleSection l s) n
  = if n =? s then negb (includes l s) else includes l n.
Proof.
  unfold toggleSection.
  destruct (includes l s) eqn:Es; cbn [negb].
  - destruct (n =? s) eqn:En.
    + apply String.eqb_eq in En. subst n.
      apply not_true_is_false. rewrite includes_In, filter_In.
      intros [_ H]. now rewrite String.eqb_refl in H.
    + apply eq_true_iff_eq. rewrite !includes_In, filter_In. split.
      * tauto.
      * intros H. split; [exact H|]. now rewrite En.
  - destruct (n =? s) eqn:En.
    + apply String.eqb_eq in En. subst n.
      apply includes_In, in_or_app. right. now left.
    + apply eq_true_iff_eq. rewrite !includes_In, in_app_iff. cbn [In]. split.
      * intros [H|[H|[]]]; [exact H|]. subst. now rewrite String.eqb_refl in En.
      * tauto.
Qed.

Lemma toggleSection_NoDup (l : list string) (s : string) :
  NoDup l -> NoDup (toggleSection l s).
Proof.
  intros H. unfold toggleSection. destruct (includes l s) eqn:Es.
  - now apply NoDup_filter.
  - apply NoDup_app; [exact H|constructor; [intros []|constructor]|].
    intros x Hx [<-|[]]. apply includes_In in Hx. congruence.
Qed.

(** X19.  After any sequence of clicks, a section is expanded exactly
    when its initial state and the parity of the number of clicks on it
    say so: it is expanded if it was expanded at first and was clicked an
    even number of times, or was collapsed at first and was clicked an
    odd number of times.  Clicks on other sections do not affect it. *)
Theorem section_is_expanded_by_click_parity
    (expandedSections clicked : list string) (sectionName : string) :
  includes (after_clicks expandedSections clicked) sectionName
  = xorb (includes expandedSections sectionName)
         (Nat.odd (count_occ string_dec clicked sectionName)).
Proof.
  unfold after_clicks. revert expandedSections.
  induction clicked as [|c cs IH]; intros l; cbn [fold_left count_occ].
  - cbn. now rewrite xorb_false_r.
  - rewrite IH, includes_toggleSection.
    destruct (string_dec c sectionName) as [->|Hne].
    + rewrite String.eqb_refl, Nat.odd_succ, <- Nat.negb_odd.
      destruct (includes l sectionName), (Nat.odd _); reflexivity.
    + assert (E : (sectionName =? c) = false)
        by (apply String.eqb_neq; congruence).
      now rewrite E.
Qed.

(** X20.  The list of expanded sections never names a section twice: a
    duplicate-free list stays duplicate-free under any sequence of
    clicks. *)
Theorem expanded_sections_stay_duplicate_free
    (expandedSections clicked : list string) :
  NoDup expandedSections ->
  NoDup (after_clicks expandedSections clicked).
Proof.
  unfold after_clicks. revert expandedSections.
  induction clicked as [|c cs IH]; intros l H; cbn [fold_left]; [exact H|].
  apply IH, toggleSection_NoDup, H.
Qed.

(** X21.  Clicking a collapsed section twice gives back the same list;
    clicking an expanded one twice moves its name to the end and keeps
    the other names in their order. *)
Theorem toggleSection_twice
    (expandedSections : list string) (sectionName : string) :
  toggleSection (toggleSection expandedSections sectionName) sectionName
  = if includes expandedSections sectionName
    then (filter (fun name => negb (name =? sectionName)) expandedSections
          ++ [sectionName])%list
    else expandedSections.
Proof.
  pose proof (includes_toggleSection expandedSections sectionName sectionName) as H.
  rewrite String.eqb_refl in H.
  unfold toggleSection at 1. rewrite H.
  destruct (includes expandedSections sectionName) eqn:E; cbn [negb].
  - unfold toggleSection. now rewrite E.
  - unfold toggleSection. rewrite E, filter_app. cbn [filter].
    rewrite String.eqb_refl. cbn [negb]. rewrite app_nil_r.
    apply forallb_filter_id, forallb_forall. intros x Hx.
    apply negb_true_iff, String.eqb_neq. intros ->.
    apply includes_In in Hx. congruence.
Qed.

(** X22.  The sidebar offers a section exactly when it is one of the
    trainer sections and, if it is named 'Training', the user's role is
    'trainer'; the sections offered keep their order. *)
Theorem training_is_offered_to_trainers_only
    (NavSection : Type) (name : NavSection -> string)
    (userRole : option string) (trainerNavSections : list NavSection) :
  (forall section,
      In section (availableSections NavSection name userRole trainerNavSections)
      <-> In section trainerNavSections
          /\ (name section = "Training" -> userRole = Some "trainer"))
  /\ exists keep,
       availableSections NavSection name userRole trainerNavSections
       = filter keep trainerNavSections.
Proof.
  unfold availableSections.
  destruct userRole as [role|].
  - destruct (role =? "trainer") eqn:E.
    + apply String.eqb_eq in E. subst role. split.
      * intros s. tauto.
      * exists (fun _ => true). symmetry. apply forallb_filter_id, forallb_forall.
        reflexivity.
    + apply String.eqb_neq in E. split.
      * intros s. rewrite filter_In, negb_true_iff, String.eqb_neq.
        split; intros [H1 H2]; split; try assumption.
        -- intros H. contradiction.
        -- intros H. specialize (H2 H). congruence.
      * eexists. reflexivity.
  - split.
    + intros s. rewrite filter_In, negb_true_iff, String.eqb_neq.
      split; intros [H1 H2]; split; try assumption.
      * intros H. contradiction.
      * intros H. specialize (H2 H). discriminate.
    + eexists. reflexivity.
Qed.

(** The initial list, after clicks on 'Training' and 'Members'. *)
Lemma expanded_sections_stay_duplicate_free_witness :
  NoDup (after_clicks initialExpandedSections ["Training"; "Members"]).
Proof.
  apply expanded_sections_stay_duplicate_free.
  repeat constructor; simpl; intuition discriminate.
Defined.
